(** * GURLS-Bot: the Telegram front-end of the link shortener

    A shallow embedding of [internal/bot/bot.go] (with the thin wrapper
    [internal/grpc/client/client.go]) and the properties of its handlers.

    - Go strings are byte strings: [string], one [ascii] per byte.
    - [regexp], [strings] and [fmt] of the Go standard library are modelled by
      executable functions on these byte strings.
    - [b.userStates] is a [gmap Z UserState].
    - A handler is a computation over a [World] (the state store and the
      trace of what the handler did to the outside); a nil dereference ends
      it in [Panic].
    - What the handler gets from outside (the answers of the remote service
      and of the chat platform, the clock, [time.ParseDuration], the order of
      a range over a map) is a parameter, [Env]. *)

From Stdlib Require Import ZArith String Ascii List DecimalString.
From stdpp Require Import base option list strings gmap.

Local Open Scope string_scope.
Local Open Scope Z_scope.

(** ** Bytes and byte strings *)

Definition code (c : ascii) : N := N_of_ascii c.

Definition inRange (lo hi : ascii) (c : ascii) : bool :=
  ((code lo <=? code c) && (code c <=? code hi))%N.

Definition bytes (l : list nat) : string :=
  string_of_list_ascii (map ascii_of_nat l).

Fixpoint takeN (n : nat) (s : string) : string :=
  match n, s with
  | S n', String c s' => String c (takeN n' s')
  | _, _ => ""
  end.

Fixpoint dropN (n : nat) (s : string) : string :=
  match n, s with
  | S n', String _ s' => dropN n' s'
  | _, _ => s
  end.

(** The longest prefix of [s] whose bytes are all in [cls], and what follows. *)
Fixpoint span (cls : ascii -> bool) (s : string) : string * string :=
  match s with
  | String c s' =>
      if cls c then let '(a, b) := span cls s' in (String c a, b) else ("", s)
  | "" => ("", "")
  end.

Fixpoint srev (s : string) : string :=
  match s with
  | "" => ""
  | String c s' => srev s' +:+ String c ""
  end.

Fixpoint allb (cls : ascii -> bool) (s : string) : bool :=
  match s with
  | "" => true
  | String c s' => cls c && allb cls s'
  end.

(** ** Package [strings] *)

(** [strings.HasPrefix(s, prefix)] *)
Definition HasPrefix (s pre : string) : bool := String.prefix pre s.

(** [strings.TrimPrefix(s, prefix)] *)
Definition TrimPrefix (s pre : string) : string :=
  if HasPrefix s pre then dropN (String.length pre) s else s.

(** The UTF-8 encodings of the code points for which [unicode.IsSpace]
    holds: TAB, LF, VT, FF, CR, SPACE, U+0085, U+00A0, U+1680,
    U+2000..U+200A, U+2028, U+2029, U+202F, U+205F, U+3000. *)
Definition unicodeSpaces : list string :=
  map bytes
    [ [9]; [10]; [11]; [12]; [13]; [32]; [194; 133]; [194; 160];
      [225; 154; 128];
      [226; 128; 128]; [226; 128; 129]; [226; 128; 130]; [226; 128; 131];
      [226; 128; 132]; [226; 128; 133]; [226; 128; 134]; [226; 128; 135];
      [226; 128; 136]; [226; 128; 137]; [226; 128; 138];
      [226; 128; 168]; [226; 128; 169]; [226; 128; 175];
      [226; 129; 159]; [227; 128; 128] ]%nat.

(** One white-space rune at the front of [s]: what follows it. *)
Definition leadingSpace (s : string) : option string :=
  match filter (fun e => Is_true (String.prefix e s)) unicodeSpaces with
  | e :: _ => Some (dropN (String.length e) s)
  | [] => None
  end.

Fixpoint trimLeftN (n : nat) (s : string) : string :=
  match n with
  | O => s
  | S n' =>
      match leadingSpace s with
      | Some s' => trimLeftN n' s'
      | None => s
      end
  end.

(** [strings.TrimLeftFunc(s, unicode.IsSpace)] *)
Definition trimLeft (s : string) : string := trimLeftN (String.length s) s.

(** One white-space rune at the end of the string whose reversal is [r]. *)
Definition trailingSpace (r : string) : option string :=
  match filter (fun e => Is_true (String.prefix (srev e) r)) unicodeSpaces with
  | e :: _ => Some (dropN (String.length e) r)
  | [] => None
  end.

Fixpoint trimRightN (n : nat) (r : string) : string :=
  match n with
  | O => r
  | S n' =>
      match trailingSpace r with
      | Some r' => trimRightN n' r'
      | None => r
      end
  end.

(** [strings.TrimRightFunc(s, unicode.IsSpace)] *)
Definition trimRight (s : string) : string :=
  srev (trimRightN (String.length s) (srev s)).

(** [strings.TrimSpace(s)]: all leading and trailing white space removed. *)
Definition TrimSpace (s : string) : string := trimRight (trimLeft s).

(** ** Package [regexp]

    The fragment of RE2 syntax that the five patterns of the bot use, matched
    by backtracking with Go's leftmost-first preference: a greedy operator
    tries its longest alternative first. *)

Inductive regexp : Type :=
| Lit (l : string)                                  (* literal text *)
| OptChr (c : ascii)                                (* c? *)
| Rep (cls : ascii -> bool) (lo : nat) (hi : option nat)
                                                    (* [cls]{lo,hi}; + is {1,} *)
| Grp (r : regexp)                                  (* ( r ) *)
| Cat (r1 r2 : regexp)                              (* r1 r2 *)
| Bot                                               (* ^ *)
| Eot.                                              (* $ *)

(** A way of matching at the current position: the text consumed, the
    capture groups closed on the way, and the text left. *)
Definition thread : Type := string * list string * string.

(** All the ways [r] matches a prefix of [s], most preferred first; [bot]
    tells whether [s] is the whole text. *)
Fixpoint runs (r : regexp) (bot : bool) (s : string) : list thread :=
  match r with
  | Lit l =>
      if String.prefix l s then [(l, [], dropN (String.length l) s)] else []
  | OptChr c =>
      match s with
      | String c' s' =>
          if Ascii.eqb c c' then [(String c "", [], s'); ("", [], s)]
          else [("", [], s)]
      | "" => [("", [], s)]
      end
  | Rep cls lo hi =>
      let n := String.length (fst (span cls s)) in
      let top := match hi with Some h => Nat.min n h | None => n end in
      map (fun k => (takeN k s, [], dropN k s)) (rev (seq lo (S top - lo)))
  | Grp r' => map (fun '(m, cs, t) => (m, m :: cs, t)) (runs r' bot s)
  | Cat r1 r2 =>
      flat_map
        (fun '(m1, c1, t1) =>
           map (fun '(m2, c2, t2) => (m1 +:+ m2, (c1 ++ c2)%list, t2))
               (runs r2 (bot && String.eqb m1 "") t1))
        (runs r1 bot s)
  | Bot => if bot then [("", [], s)] else []
  | Eot => match s with "" => [("", [], s)] | _ => [] end
  end.

(** The preferred match of [r] at the front of [s]: the whole match followed
    by the capture groups. *)
Definition matchAt (r : regexp) (bot : bool) (s : string) : option (list string) :=
  match runs r bot s with
  | (m, cs, _) :: _ => Some (m :: cs)
  | [] => None
  end.

(** The leftmost match: try every start position from left to right. *)
Fixpoint search (r : regexp) (bot : bool) (s : string) : option (list string) :=
  match matchAt r bot s with
  | Some m => Some m
  | None =>
      match s with
      | String _ s' => search r false s'
      | "" => None
      end
  end.

(** [re.FindStringSubmatch(s)]: the match and its groups, nil when none. *)
Definition FindStringSubmatch (r : regexp) (s : string) : list string :=
  default [] (search r true s).

(** [re.FindString(s)]: the text of the leftmost match, empty when none. *)
Definition FindString (r : regexp) (s : string) : string :=
  match search r true s with
  | Some (m :: _) => m
  | _ => ""
  end.

(** [re.MatchString(s)] *)
Definition MatchString (r : regexp) (s : string) : bool :=
  bool_decide (is_Some (search r true s)).

(** Character classes of RE2: [\s] is [\t\n\f\r ], [\w] is [0-9A-Za-z_]. *)
Definition isSpace (c : ascii) : bool :=
  existsb (Ascii.eqb c) [ascii_of_nat 9; ascii_of_nat 10; ascii_of_nat 12;
                         ascii_of_nat 13; " "%char].
Definition notSpace (c : ascii) : bool := negb (isSpace c).
Definition isDigit (c : ascii) : bool := inRange "0" "9" c.
Definition isLetter (c : ascii) : bool := inRange "a" "z" c || inRange "A" "Z" c.
Definition isWord (c : ascii) : bool := isDigit c || isLetter c || Ascii.eqb c "_".
Definition isHyphen (c : ascii) : bool := Ascii.eqb c "-".
Definition dquote : ascii := ascii_of_nat 34.
Definition notQuote (c : ascii) : bool := negb (Ascii.eqb c dquote).

Definition plus (cls : ascii -> bool) : regexp := Rep cls 1 None.

(** [urlRegex = regexp.MustCompile(`https?://\S+`)] *)
Definition urlRegex : regexp :=
  Cat (Lit "http") (Cat (OptChr "s") (Cat (Lit "://") (plus notSpace))).

(** [titleRegex]: the text [title=], a double quote, a group of one or more
    bytes other than the double quote, and a double quote. *)
Definition titleRegex : regexp :=
  Cat (Lit "title=") (Cat (Lit (String dquote ""))
    (Cat (Grp (plus notQuote)) (Lit (String dquote "")))).

(** [expiresInRegex = regexp.MustCompile(`expires_in=([\w\d]+)`)] *)
Definition expiresInClass (c : ascii) : bool := isWord c || isDigit c.
Definition expiresInRegex : regexp :=
  Cat (Lit "expires_in=") (Grp (plus expiresInClass)).

(** [aliasRegex = regexp.MustCompile(`alias=([\w\-]+)`)] *)
Definition aliasClass (c : ascii) : bool := isWord c || isHyphen c.
Definition aliasRegex : regexp :=
  Cat (Lit "alias=") (Grp (plus aliasClass)).

(** [customAliasRegex = regexp.MustCompile(`^[a-zA-Z0-9\-]{1,20}$`)] *)
Definition customAliasClass (c : ascii) : bool :=
  inRange "a" "z" c || inRange "A" "Z" c || inRange "0" "9" c || isHyphen c.
Definition customAliasRegex : regexp :=
  Cat Bot (Cat (Rep customAliasClass 1 (Some 20%nat)) Eot).

(** ** Package [fmt]: the verbs the bot uses *)

Definition nl : string := String (ascii_of_nat 10) "".

(** [%d] *)
Definition itoa (z : Z) : string := NilZero.string_of_int (Z.to_int z).

(** ** Messages of the bot *)

Definition msgHelp : string :=
  "URL Shortener Bot" +:+ nl +:+ nl +:+
  "Create and manage short links efficiently." +:+ nl +:+
  "Select an action below:".
Definition msgUseShortenCommand : string :=
  "Send a URL to create a short link or use the buttons below:".
Definition msgInvalidShortenFormat : string :=
  "Invalid format. Please send a valid URL (e.g., https://example.com)".
Definition msgLinkSuccessfullyShortened (url : string) : string :=
  "Link created successfully." +:+ nl +:+ nl +:+ "Short URL: " +:+ url.
Definition msgLinkStats (alias title url : string) (clicks : Z)
    (expires devices : string) : string :=
  "Link Statistics: " +:+ alias +:+ title +:+ nl +:+ nl +:+
  "Original URL: " +:+ url +:+ nl +:+
  "Total Clicks: " +:+ itoa clicks +:+ nl +:+
  "Expires: " +:+ expires +:+ devices.
Definition msgUnknownCommand : string :=
  "Unknown command. Use /start to see available options.".
Definition msgInvalidCommandFormat (cmd : string) : string :=
  "Invalid command format. Use: /" +:+ cmd +:+ " <alias>".
Definition msgLinkNotFound (alias : string) : string :=
  "Link with alias '" +:+ alias +:+ "' not found.".
Definition msgInternalError : string :=
  "Internal error occurred. Please try again later.".
Definition msgLinkDeleted (alias : string) : string :=
  "Link '" +:+ alias +:+ "' has been deleted successfully.".
Definition msgMyLinksHeader : string := "Your Links:".
Definition msgNoLinks : string :=
  "You have no links yet." +:+ nl +:+ "Create your first link!".
Definition msgAliasTaken (alias : string) : string :=
  "Alias '" +:+ alias +:+ "' is already taken. Please choose another one.".

Definition callbackCreateLink : string := "create_link".
Definition callbackMyLinks : string := "my_links".
Definition callbackHelp : string := "help".
Definition callbackCancel : string := "cancel".
Definition callbackCustomAlias : string := "custom_alias".

Definition msgSendCustomAlias : string :=
  "Send your custom alias (letters, numbers, hyphens only):".
Definition msgSendUrlWithAlias (alias : string) : string :=
  "Now send the URL you want to shorten with alias '" +:+ alias +:+ "':".
Definition msgInvalidAliasFormat : string :=
  "Invalid alias format. Use only letters, numbers, and hyphens (1-20 characters).".

(** ** The remote service: messages, status codes, errors *)

Module shortenerv1.

(** Optional fields of the protocol are [option]s (nil pointers in Go);
    an instant is a number of nanoseconds since the epoch. *)
Record CreateLinkRequest : Type := {
  OriginalUrl : string;
  UserTgId : Z;
  Title : option string;
  CustomAlias : option string;
  ExpiresAt : option Z
}.

Record CreateLinkResponse : Type := { Alias : string }.

Record Link : Type := {
  LinkAlias : string;
  LinkOriginalUrl : string;
  LinkTitle : option string
}.

Record GetLinkStatsResponse : Type := {
  StatsOriginalUrl : string;
  StatsTitle : option string;
  ClickCount : Z;
  StatsExpiresAt : option Z;
  ClicksByDevice : gmap string Z
}.

End shortenerv1.
Import shortenerv1.

(** [google.golang.org/grpc/codes] *)
Inductive Code : Type :=
| OK | Canceled | Unknown | InvalidArgument | DeadlineExceeded | NotFound
| AlreadyExists | PermissionDenied | ResourceExhausted | FailedPrecondition
| Aborted | OutOfRange | Unimplemented | Internal | Unavailable | DataLoss
| Unauthenticated.

#[global] Instance Code_eq_dec : EqDecision Code.
Proof. solve_decision. Defined.

(** A non-nil Go [error]: one that carries a gRPC status, or any other. *)
Inductive error : Type :=
| StatusError (c : Code) (msg : string)
| PlainError (msg : string).

(** [st, ok := status.FromError(err); ok && st.Code() == c] *)
Definition hasCode (err : error) (c : Code) : bool :=
  match err with
  | StatusError c' _ => bool_decide (c' = c)
  | PlainError _ => false
  end.

(** ** The chat platform *)

Record Button : Type := { Label : string; Data : string }.

Definition Keyboard : Type := list (list Button).

Record Message : Type := {
  ChatID : Z;
  Text : string;
  Markdown : bool;
  ReplyMarkup : option Keyboard
}.

(** What arrives from the platform: a button press, with the chat of the
    message the button belongs to when the callback carries that message
    ([callback.Message] is a pointer, nil when the platform sends none), a
    slash command with its argument text, a plain text message, or an update
    with neither. *)
Inductive Update : Type :=
| CallbackQuery (id : string) (message : option Z) (data : string)
| Command (chat : Z) (name args : string)
| TextMessage (chat : Z) (text : string)
| OtherUpdate.

(** ** The bot *)

Record UserState : Type := { State : string; StateAlias : string }.

Definition StateNormal : string := "normal".
Definition StateWaitingForAlias : string := "waiting_for_alias".
Definition StateWaitingForURL : string := "waiting_for_url".

(** Calls to the remote service, as [BackendClient] issues them. *)
Inductive Call : Type :=
| CallCreateLink (req : CreateLinkRequest)
| CallGetLinkStats (alias : string)
| CallDeleteLink (alias : string)
| CallListUserLinks (user : Z).

(** What a handler does to the outside, in order. *)
Inductive Event : Type :=
| Rpc (c : Call)
| Sent (m : Message)
| Answered (id : string)
| Logged (msg : string).

Record World : Type := {
  userStates : gmap Z UserState;
  trace : list Event
}.

Inductive Result (A : Type) : Type :=
| Done (a : A) (w : World)
| Panic (w : World).
Arguments Done {A} a w.
Arguments Panic {A} w.

Definition M (A : Type) : Type := World -> Result A.

#[global] Instance M_ret : MRet M := fun A a w => Done a w.
#[global] Instance M_bind : MBind M := fun A B f m w =>
  match m w with
  | Done a w' => f a w'
  | Panic w' => Panic w'
  end.

Definition emit (e : Event) : M unit := fun w =>
  Done tt {| userStates := userStates w; trace := (trace w ++ [e])%list |}.

Definition panic {A : Type} : M A := fun w => Panic w.

(** [*p] *)
Definition deref {A : Type} (p : option A) : M A :=
  match p with
  | Some a => mret a
  | None => panic
  end.

(** [defer d] in front of [body]: [d] runs when [body] returns or panics. *)
Definition defer {A : Type} (d : M unit) (body : M A) : M A := fun w =>
  match body w with
  | Done a w' =>
      match d w' with
      | Done _ w'' => Done a w''
      | Panic w'' => Panic w''
      end
  | Panic w' =>
      match d w' with
      | Done _ w'' => Panic w''
      | Panic w'' => Panic w''
      end
  end.

(** Everything a handler gets from outside the bot. *)
Record Env : Type := {
  BaseURL : string;                      (* b.config.HTTPServer.BaseURL *)
  Now : Z;                               (* time.Now() *)
  ParseDuration : string -> option Z;    (* time.ParseDuration, None on error *)
  FormatTime : Z -> string;              (* AsTime().Format(layout) *)
  rangeOrder : gmap string Z -> list (string * Z);
                                         (* the order in which this run's range
                                            over a map visits its entries; Go
                                            leaves it unspecified and varies it
                                            from one range to the next *)
  remoteCreateLink : CreateLinkRequest -> CreateLinkResponse + error;
  remoteGetLinkStats : string -> GetLinkStatsResponse + error;
  remoteDeleteLink : string -> option error;
  remoteListUserLinks : Z -> list Link + error;
  apiSend : Message -> option error;     (* b.api.Send *)
  apiRequest : string -> option error    (* b.api.Request *)
}.

Section Bot.

Variable E : Env.

(** *** [internal/grpc/client]: one attempt per call, failures logged *)

Definition CreateLink (req : CreateLinkRequest) : M (CreateLinkResponse + error) :=
  emit (Rpc (CallCreateLink req));;
  match remoteCreateLink E req with
  | inr err => emit (Logged "failed to create link via backend");; mret (inr err)
  | inl resp => mret (inl resp)
  end.

Definition GetLinkStats (alias : string) : M (GetLinkStatsResponse + error) :=
  emit (Rpc (CallGetLinkStats alias));;
  match remoteGetLinkStats E alias with
  | inr err => emit (Logged "failed to get link stats via backend");; mret (inr err)
  | inl resp => mret (inl resp)
  end.

Definition DeleteLink (alias : string) : M (option error) :=
  emit (Rpc (CallDeleteLink alias));;
  match remoteDeleteLink E alias with
  | Some err => emit (Logged "failed to delete link via backend");; mret (Some err)
  | None => mret None
  end.

Definition ListUserLinks (user : Z) : M (list Link + error) :=
  emit (Rpc (CallListUserLinks user));;
  match remoteListUserLinks E user with
  | inr err => emit (Logged "failed to list user links via backend");; mret (inr err)
  | inl resp => mret (inl resp)
  end.

(** *** Sending *)

Definition send (m : Message) : M (option error) :=
  emit (Sent m);; mret (apiSend E m).

Definition sendMessage (chatID : Z) (text : string) (useMarkdown : bool)
    : M (option error) :=
  send {| ChatID := chatID; Text := text; Markdown := useMarkdown;
          ReplyMarkup := None |}.

Definition sendMessageWithKeyboard (chatID : Z) (text : string)
    (keyboard : Keyboard) : M (option error) :=
  send {| ChatID := chatID; Text := text; Markdown := false;
          ReplyMarkup := Some keyboard |}.

(** *** Keyboards *)

Definition button (label data : string) : Button :=
  {| Label := label; Data := data |}.

Definition createMainKeyboard : Keyboard :=
  [ [button "Create Link" callbackCreateLink];
    [button "My Links" callbackMyLinks];
    [button "Help" callbackHelp] ].

Definition createLinkActionsKeyboard (alias : string) : Keyboard :=
  [ [button "Statistics" ("stats_" +:+ alias);
     button "Delete" ("delete_" +:+ alias)];
    [button "My Links" callbackMyLinks;
     button "Create Another" callbackCreateLink] ].

Definition createCreateLinkKeyboard : Keyboard :=
  [ [button "Use Custom Alias" callbackCustomAlias];
    [button "Back to Menu" callbackHelp] ].

(** *** The state store *)

Definition getUserState (userID : Z) : M UserState := fun w =>
  Done (default {| State := StateNormal; StateAlias := "" |}
                (userStates w !! userID)) w.

Definition setUserState (userID : Z) (state customAlias : string) : M unit :=
  fun w =>
    Done tt {| userStates :=
                 <[userID := {| State := state; StateAlias := customAlias |}]>
                   (userStates w);
               trace := trace w |}.

Definition resetUserState (userID : Z) : M unit := fun w =>
  Done tt {| userStates := delete userID (userStates w); trace := trace w |}.

(** *** [handleShortenCommand] *)

(** [m := re.FindStringSubmatch(args); len(m) > 1] gives [m[1]]. *)
Definition submatch1 (r : regexp) (args : string) : option string :=
  match FindStringSubmatch r args with
  | _ :: g :: _ => Some g
  | _ => None
  end.

(** The request [handleShortenCommand] builds once a URL was found. *)
Definition shortenRequest (chatID : Z) (urlMatch args : string)
    : CreateLinkRequest :=
  {| OriginalUrl := urlMatch;
     UserTgId := chatID;
     Title := submatch1 titleRegex args;
     CustomAlias := submatch1 aliasRegex args;
     ExpiresAt :=
       match submatch1 expiresInRegex args with
       | Some v =>
           match ParseDuration E v with
           | Some duration => Some (Now E + duration)
           | None => None
           end
       | None => None
       end |}.

Definition handleShortenCommand (chatID : Z) (args : string) : M (option error) :=
  let urlMatch := FindString urlRegex args in
  if decide (urlMatch = "") then
    sendMessage chatID msgInvalidShortenFormat true
  else
    let req := shortenRequest chatID urlMatch args in
    r ← CreateLink req;
    match r with
    | inr err =>
        if hasCode err AlreadyExists then
          alias ← deref (CustomAlias req);
          sendMessage chatID (msgAliasTaken alias) false
        else
          emit (Logged "gRPC CreateLink failed");;
          sendMessage chatID msgInternalError false
    | inl res =>
        let shortURL := BaseURL E +:+ "/" +:+ Alias res in
        sendMessageWithKeyboard chatID (msgLinkSuccessfullyShortened shortURL)
          (createLinkActionsKeyboard (Alias res))
    end.

(** *** [handleMyLinksCommand] *)

(** The title of one entry of the list. *)
Definition listTitle (link : Link) : string :=
  let title := LinkOriginalUrl link in
  let title :=
    match LinkTitle link with
    | Some t => if decide (t = "") then title else t
    | None => title
    end in
  if (50 <? String.length title)%nat then takeN 47 title +:+ "..." else title.

Definition listEntry (i : nat) (link : Link) : string :=
  nl +:+ nl +:+ itoa (Z.of_nat i + 1) +:+ ". " +:+ listTitle link +:+ nl +:+
  "   " +:+ BaseURL E +:+ "/" +:+ LinkAlias link.

Definition listRow (link : Link) : list Button :=
  [button "Stats" ("stats_" +:+ LinkAlias link);
   button "Delete" ("delete_" +:+ LinkAlias link)].

Definition handleMyLinksCommand (chatID : Z) : M (option error) :=
  r ← ListUserLinks chatID;
  match r with
  | inr err =>
      emit (Logged "gRPC ListUserLinks failed");;
      sendMessage chatID msgInternalError false
  | inl links =>
      if decide (length links = 0%nat) then
        sendMessageWithKeyboard chatID msgNoLinks createMainKeyboard
      else
        let text := msgMyLinksHeader +:+ String.concat "" (imap listEntry links) in
        let keyboard :=
          (map listRow links ++
           [ [button "Create Link" callbackCreateLink];
             [button "Main Menu" callbackHelp] ])%list in
        sendMessageWithKeyboard chatID text keyboard
  end.

(** *** [handleStatsCommand] *)

(** The text of a statistics answer; [order] is the order in which the
    range over [ClicksByDevice] visits the entries. *)
Definition statsText (alias : string) (res : GetLinkStatsResponse)
    (order : list (string * Z)) : string :=
  let expiresText :=
    match StatsExpiresAt res with
    | Some t => FormatTime E t
    | None => "Never"
    end in
  let titleText :=
    match StatsTitle res with
    | Some t => if decide (t = "") then "" else nl +:+ "Title: " +:+ t
    | None => ""
    end in
  let deviceStats :=
    if (0 <? size (ClicksByDevice res))%nat then
      nl +:+ nl +:+ "By Device:" +:+
      String.concat ""
        (map (fun '(device, count) =>
                nl +:+ "- " +:+ device +:+ ": " +:+ itoa count) order)
    else "" in
  msgLinkStats alias titleText (StatsOriginalUrl res) (ClickCount res)
    expiresText deviceStats.

Definition statsKeyboard (alias : string) : Keyboard :=
  [ [button "Delete" ("delete_" +:+ alias)];
    [button "My Links" callbackMyLinks; button "Menu" callbackHelp] ].

Definition handleStatsCommand (chatID : Z) (alias : string) : M (option error) :=
  let alias := TrimSpace alias in
  if decide (alias = "") then
    sendMessage chatID (msgInvalidCommandFormat "stats") false
  else
    r ← GetLinkStats alias;
    match r with
    | inr err =>
        if hasCode err NotFound then
          sendMessage chatID (msgLinkNotFound alias) false
        else
          emit (Logged "gRPC GetLinkStats failed");;
          sendMessage chatID msgInternalError false
    | inl res =>
        sendMessageWithKeyboard chatID
          (statsText alias res (rangeOrder E (ClicksByDevice res)))
          (statsKeyboard alias)
    end.

(** *** [handleDeleteCommand] *)

Definition deletedKeyboard : Keyboard :=
  [ [button "Create Link" callbackCreateLink];
    [button "My Links" callbackMyLinks; button "Menu" callbackHelp] ].

Definition handleDeleteCommand (chatID : Z) (alias : string) : M (option error) :=
  let alias := TrimSpace alias in
  if decide (alias = "") then
    sendMessage chatID (msgInvalidCommandFormat "delete") false
  else
    r ← DeleteLink alias;
    match r with
    | Some err =>
        if hasCode err NotFound then
          sendMessage chatID (msgLinkNotFound alias) false
        else
          emit (Logged "gRPC DeleteLink failed");;
          sendMessage chatID msgInternalError false
    | None =>
        sendMessageWithKeyboard chatID (msgLinkDeleted alias) deletedKeyboard
    end.

(** *** The conversation: [handleCustomAliasInput], [handleURLInputWithAlias] *)

Definition handleCustomAliasInput (userID : Z) (alias : string) : M (option error) :=
  let alias := TrimSpace alias in
  if negb (MatchString customAliasRegex alias) then
    sendMessage userID msgInvalidAliasFormat false
  else
    setUserState userID StateWaitingForURL alias;;
    sendMessage userID (msgSendUrlWithAlias alias) false.

Definition handleURLInputWithAlias (userID : Z) (text customAlias : string)
    : M (option error) :=
  defer (resetUserState userID)
    (let urlMatch := FindString urlRegex text in
     if decide (urlMatch = "") then
       sendMessage userID msgInvalidShortenFormat false
     else
       let req := {| OriginalUrl := urlMatch; UserTgId := userID;
                     Title := None; CustomAlias := Some customAlias;
                     ExpiresAt := None |} in
       r ← CreateLink req;
       match r with
       | inr err =>
           if hasCode err AlreadyExists then
             sendMessage userID (msgAliasTaken customAlias) false
           else
             emit (Logged "gRPC CreateLink failed");;
             sendMessage userID msgInternalError false
       | inl res =>
           let shortURL := BaseURL E +:+ "/" +:+ Alias res in
           sendMessageWithKeyboard userID (msgLinkSuccessfullyShortened shortURL)
             (createLinkActionsKeyboard (Alias res))
       end).

(** *** Routing: [handleCommand], [handleMessage], [handleCallbackQuery] *)

Definition handleCommand (chatID : Z) (name args : string) : M (option error) :=
  if decide (name = "start") then
    sendMessageWithKeyboard chatID msgHelp createMainKeyboard
  else if decide (name = "shorten") then handleShortenCommand chatID args
  else if decide (name = "stats") then handleStatsCommand chatID args
  else if decide (name = "delete") then handleDeleteCommand chatID args
  else if decide (name = "my_links") then handleMyLinksCommand chatID
  else sendMessage chatID msgUnknownCommand false.

Definition handleMessage (userID : Z) (text : string) : M (option error) :=
  state ← getUserState userID;
  if decide (State state = StateWaitingForAlias) then
    handleCustomAliasInput userID text
  else if decide (State state = StateWaitingForURL) then
    handleURLInputWithAlias userID text (StateAlias state)
  else if MatchString urlRegex text then
    handleShortenCommand userID text
  else
    sendMessageWithKeyboard userID msgUseShortenCommand createMainKeyboard.

(** Every case of the switch reads [callback.Message.Chat.ID] first, with no
    nil check: [deref message]. *)
Definition handleCallbackQuery (id : string) (message : option Z) (data : string)
    : M (option error) :=
  emit (Answered id);;
  match apiRequest E id with
  | Some _ => emit (Logged "failed to answer callback")
  | None => mret tt
  end;;
  if decide (data = callbackCreateLink) then
    chatID ← deref message;
    sendMessageWithKeyboard chatID "Send a URL to create a short link:"
      createCreateLinkKeyboard
  else if decide (data = callbackMyLinks) then
    chatID ← deref message;
    handleMyLinksCommand chatID
  else if decide (data = callbackHelp) then
    chatID ← deref message;
    sendMessageWithKeyboard chatID msgHelp createMainKeyboard
  else if HasPrefix data "stats_" then
    chatID ← deref message;
    handleStatsCommand chatID (TrimPrefix data "stats_")
  else if HasPrefix data "delete_" then
    chatID ← deref message;
    handleDeleteCommand chatID (TrimPrefix data "delete_")
  else if decide (data = callbackCustomAlias) then
    chatID ← deref message;
    setUserState chatID StateWaitingForAlias "";;
    sendMessage chatID msgSendCustomAlias false
  else mret None.

(** *** [processUpdate] *)

Definition logFailure (what : string) (err : option error) : M unit :=
  match err with
  | Some _ => emit (Logged what)
  | None => mret tt
  end.

Definition processUpdate (update : Update) : M unit :=
  match update with
  | CallbackQuery id message data =>
      err ← handleCallbackQuery id message data;
      logFailure "failed to handle callback query" err
  | OtherUpdate => mret tt
  | Command chat name args =>
      err ← handleCommand chat name args;
      logFailure "failed to handle command" err
  | TextMessage chat text =>
      err ← handleMessage chat text;
      logFailure "failed to handle message" err
  end.

End Bot.

(** *** [Start]: the loop

    The updates the loop of [Start] takes from the channel before it is
    stopped, in order, each with the environment in which it is processed.
    One update is processed to its end before the next is taken; a panic
    ends the loop. *)
Fixpoint serve (us : list (Env * Update)) : M unit :=
  match us with
  | [] => mret tt
  | (E, u) :: rest => processUpdate E u;; serve rest
  end.

(** ** What a run did *)

Definition worldOf {A : Type} (r : Result A) : World :=
  match r with
  | Done _ w => w
  | Panic w => w
  end.

Definition panicked {A : Type} (r : Result A) : bool :=
  match r with
  | Done _ _ => false
  | Panic _ => true
  end.

(** The calls to the remote service in a trace, in order. *)
Definition calls (t : list Event) : list Call :=
  omap (fun e => match e with Rpc c => Some c | _ => None end) t.

(** The messages sent to the chat in a trace, in order. *)
Definition sent (t : list Event) : list Message :=
  omap (fun e => match e with Sent m => Some m | _ => None end) t.

(** A world in which nothing has happened yet. *)
Definition initial (states : gmap Z UserState) : World :=
  {| userStates := states; trace := [] |}.

(** The conversation state of a user: no record means [StateNormal]. *)
Definition stateOf (w : World) (userID : Z) : UserState :=
  default {| State := StateNormal; StateAlias := "" |} (userStates w !! userID).

(** ** [time.ParseDuration] on unsigned decimal terms

    The text that [expiresInRegex] captures has no sign and no fraction; on
    such text the function reads terms of digits followed by a unit, with
    the overflow checks of the 64-bit accumulator. Text with a sign or a
    fraction is outside this definition and is rejected by it. *)

Definition unitMap (u : string) : option Z :=
  if decide (u = "ns") then Some 1
  else if decide (u = "us") then Some 1000
  else if decide (u = bytes [194; 181]%nat +:+ "s") then Some 1000
  else if decide (u = bytes [206; 188]%nat +:+ "s") then Some 1000
  else if decide (u = "ms") then Some 1000000
  else if decide (u = "s") then Some 1000000000
  else if decide (u = "m") then Some 60000000000
  else if decide (u = "h") then Some 3600000000000
  else None.

Definition digitVal (c : ascii) : Z := Z.of_N (code c) - 48.

Fixpoint leadingInt (s : string) (x : Z) : option (Z * string) :=
  match s with
  | String c s' =>
      if isDigit c then
        if 2 ^ 63 / 10 <? x then None
        else
          let x' := x * 10 + digitVal c in
          if 2 ^ 63 <? x' then None else leadingInt s' x'
      else Some (x, s)
  | "" => Some (x, "")
  end.

Definition isUnitByte (c : ascii) : bool :=
  negb (Ascii.eqb c "." || isDigit c).

Fixpoint parseTerms (fuel : nat) (s : string) (d : Z) : option Z :=
  match fuel with
  | O => None
  | S fuel' =>
      match s with
      | "" => Some d
      | String c _ =>
          if isDigit c then
            match leadingInt s 0 with
            | None => None
            | Some (v, s1) =>
                let '(u, s2) := span isUnitByte s1 in
                match unitMap u with
                | None => None
                | Some unit =>
                    if 2 ^ 63 / unit <? v then None
                    else
                      let d' := (d + v * unit) mod 2 ^ 64 in
                      if 2 ^ 63 <? d' then None else parseTerms fuel' s2 d'
                end
            end
          else None
      end
  end.

Definition parseDuration (s : string) : option Z :=
  if decide (s = "0") then Some 0
  else if decide (s = "") then None
  else
    match parseTerms (S (String.length s)) s 0 with
    | Some d => if 2 ^ 63 - 1 <? d then None else Some d
    | None => None
    end.

(** ** A sample environment and sample data *)

Definition sampleLink : Link :=
  {| LinkAlias := "abc"; LinkOriginalUrl := "https://example.com";
     LinkTitle := None |}.

Definition sampleStats : GetLinkStatsResponse :=
  {| StatsOriginalUrl := "https://example.com"; StatsTitle := None;
     ClickCount := 3; StatsExpiresAt := None;
     ClicksByDevice := {[ "desktop" := 1; "mobile" := 2 ]} |}.

Definition oneDeviceStats : GetLinkStatsResponse :=
  {| StatsOriginalUrl := "https://example.com"; StatsTitle := Some "Home";
     ClickCount := 4; StatsExpiresAt := None;
     ClicksByDevice := {[ "mobile" := 4 ]} |}.

(** A remote service that answers every call with success. *)
Definition sampleEnv : Env :=
  {| BaseURL := "https://gurls.io";
     Now := 1700000000000000000;
     ParseDuration := parseDuration;
     FormatTime := fun t => itoa t;
     rangeOrder := map_to_list;
     remoteCreateLink := fun req =>
       inl {| Alias := default "auto01" (CustomAlias req) |};
     remoteGetLinkStats := fun _ => inl sampleStats;
     remoteDeleteLink := fun _ => None;
     remoteListUserLinks := fun _ => inl [sampleLink];
     apiSend := fun _ => None;
     apiRequest := fun _ => None |}.

(** The same, with a remote service that fails every call with [err]. *)
Definition failingEnv (err : error) : Env :=
  {| BaseURL := BaseURL sampleEnv;
     Now := Now sampleEnv;
     ParseDuration := parseDuration;
     FormatTime := FormatTime sampleEnv;
     rangeOrder := map_to_list;
     remoteCreateLink := fun _ => inr err;
     remoteGetLinkStats := fun _ => inr err;
     remoteDeleteLink := fun _ => Some err;
     remoteListUserLinks := fun _ => inr err;
     apiSend := fun _ => None;
     apiRequest := fun _ => None |}.

(** A remote service on which the alias [missing] does not exist and every
    alias is taken. *)
Definition refusingEnv : Env :=
  {| BaseURL := BaseURL sampleEnv;
     Now := Now sampleEnv;
     ParseDuration := parseDuration;
     FormatTime := FormatTime sampleEnv;
     rangeOrder := map_to_list;
     remoteCreateLink := fun _ => inr (StatusError AlreadyExists "alias exists");
     remoteGetLinkStats := fun _ => inr (StatusError NotFound "no such link");
     remoteDeleteLink := fun _ => Some (StatusError NotFound "no such link");
     remoteListUserLinks := fun _ => inr (StatusError Unavailable "down");
     apiSend := fun _ => None;
     apiRequest := fun _ => None |}.

(** The sample environment with the other order of iteration. *)
Definition reversedEnv : Env :=
  {| BaseURL := BaseURL sampleEnv;
     Now := Now sampleEnv;
     ParseDuration := parseDuration;
     FormatTime := FormatTime sampleEnv;
     rangeOrder := fun m => rev (map_to_list m);
     remoteCreateLink := remoteCreateLink sampleEnv;
     remoteGetLinkStats := remoteGetLinkStats sampleEnv;
     remoteDeleteLink := remoteDeleteLink sampleEnv;
     remoteListUserLinks := remoteListUserLinks sampleEnv;
     apiSend := apiSend sampleEnv;
     apiRequest := apiRequest sampleEnv |}.

(** ** The vocabulary of the properties *)

(** The constraint on a custom alias: 1 to 20 bytes, each a letter, a digit
    or a hyphen. *)
Definition validAlias (s : string) : bool :=
  (1 <=? String.length s)%nat && (String.length s <=? 20)%nat
  && allb customAliasClass s.

(** The URL at the front of [s], if [s] starts with one: the scheme and the
    whole run of non-space bytes after it. *)
Definition urlAt (s : string) : option string :=
  if String.prefix "http" s then
    let t := dropN 4 s in
    let '(scheme, t1) :=
      match t with
      | String c t' => if Ascii.eqb "s" c then ("https", t') else ("http", t)
      | "" => ("http", t)
      end in
    if String.prefix "://" t1 then
      match fst (span notSpace (dropN 3 t1)) with
      | "" => None
      | String _ _ as run => Some (scheme +:+ "://" +:+ run)
      end
    else None
  else None.

(** Text of the shape [https?://\S+]: a scheme and a non-empty run of
    non-space bytes. *)
Definition URLShaped (u : string) : Prop :=
  exists run, (u = "http://" +:+ run \/ u = "https://" +:+ run) /\
              run <> "" /\ allb notSpace run = true.

(** [u] occurs in [s] at offset [n]. *)
Definition occursAt (n : nat) (u s : string) : Prop :=
  exists pre post, s = pre +:+ u +:+ post /\ String.length pre = n.

Definition containsURL (s : string) : Prop :=
  exists n u, URLShaped u /\ occursAt n u s.

(** [u] is the first URL-shaped substring of [s]: no URL-shaped substring
    starts further left, and none that starts at the same place is longer. *)
Definition firstURL (s u : string) : Prop :=
  exists n, URLShaped u /\ occursAt n u s /\
    forall n' u', URLShaped u' -> occursAt n' u' s ->
      (n <= n')%nat /\ (n' = n -> String.length u' <= String.length u)%nat.

(** The value of a modifier at the front of [s]: the whole run of class
    bytes after the key. *)
Definition valueAt (key : string) (cls : ascii -> bool) (s : string) : option string :=
  if String.prefix key s then
    match fst (span cls (dropN (String.length key) s)) with
    | "" => None
    | String _ _ as v => Some v
    end
  else None.

(** The text [key] followed by the value [v] occurs in [s] at offset [n]; [v]
    is the whole non-empty run of class bytes found there. *)
Definition modifierAt (key : string) (cls : ascii -> bool) (n : nat)
    (v s : string) : Prop :=
  exists pre post,
    s = pre +:+ key +:+ v +:+ post /\ String.length pre = n /\
    v <> "" /\ allb cls v = true /\
    match post with "" => True | String c _ => cls c = false end.

Definition hasModifier (key : string) (cls : ascii -> bool) (s : string) : Prop :=
  exists n v, modifierAt key cls n v s.

(** [v] is the value of the leftmost modifier of [s]. *)
Definition firstModifier (key : string) (cls : ascii -> bool) (s v : string) : Prop :=
  exists n, modifierAt key cls n v s /\
    forall n' v', modifierAt key cls n' v' s -> (n <= n')%nat.

Definition idle : UserState := {| State := StateNormal; StateAlias := "" |}.

(** The request of the alias conversation: the URL and the carried alias,
    nothing else. *)
Definition aliasRequest (userID : Z) (url alias : string) : CreateLinkRequest :=
  {| OriginalUrl := url; UserTgId := userID; Title := None;
     CustomAlias := Some alias; ExpiresAt := None |}.

Definition plainMessage (chatID : Z) (text : string) : Message :=
  {| ChatID := chatID; Text := text; Markdown := false; ReplyMarkup := None |}.

Definition createdMessage (E : Env) (chatID : Z) (res : CreateLinkResponse) : Message :=
  {| ChatID := chatID;
     Text := msgLinkSuccessfullyShortened (BaseURL E +:+ "/" +:+ Alias res);
     Markdown := false;
     ReplyMarkup := Some (createLinkActionsKeyboard (Alias res)) |}.

(** The calls a button press leads to. *)
Definition buttonCalls (chatID : Z) (data : string) : list Call :=
  if decide (data = "my_links") then [CallListUserLinks chatID]
  else if HasPrefix data "stats_" then
    let alias := TrimSpace (TrimPrefix data "stats_") in
    if decide (alias = "") then [] else [CallGetLinkStats alias]
  else if HasPrefix data "delete_" then
    let alias := TrimSpace (TrimPrefix data "delete_") in
    if decide (alias = "") then [] else [CallDeleteLink alias]
  else [].

(** The title a link is shown under: its title when it has a non-empty one,
    its original URL otherwise. *)
Definition displayTitle (link : Link) : string :=
  match LinkTitle link with
  | Some t => if decide (t = "") then LinkOriginalUrl link else t
  | None => LinkOriginalUrl link
  end.

(** A byte that continues a character of UTF-8: [10xxxxxx]. *)
Definition isContinuation (c : ascii) : bool :=
  inRange (ascii_of_nat 128) (ascii_of_nat 191) c.

(** The number of characters of a UTF-8 text: the bytes that start one. *)
Fixpoint characters (s : string) : nat :=
  match s with
  | "" => 0
  | String c s' => ((if isContinuation c then 0 else 1) + characters s')%nat
  end.

(** The first [n] characters of a UTF-8 text. *)
Fixpoint firstCharacters (n : nat) (s : string) : string :=
  match s with
  | "" => ""
  | String c s' =>
      if isContinuation c then String c (firstCharacters n s')
      else match n with
           | O => ""
           | S n' => String c (firstCharacters n' s')
           end
  end.

(** Every character of [s] is one byte long: [s] is ASCII text. *)
Definition singleByte (s : string) : bool :=
  allb (fun c => (code c <? 128)%N) s.

(** What is typed after the first [key] of [s], up to the next white space. *)
Fixpoint typedValue (key s : string) : option string :=
  if String.prefix key s then
    Some (fst (span notSpace (dropN (String.length key) s)))
  else
    match s with
    | "" => None
    | String _ s' => typedValue key s'
    end.

(** The chat an update belongs to. *)
Definition chatOf (u : Update) : option Z :=
  match u with
  | CallbackQuery _ message _ => message
  | Command chat _ _ => Some chat
  | TextMessage chat _ => Some chat
  | OtherUpdate => None
  end.

(** [m] neither reads nor changes the state store: in any world it does what
    it does in the empty one, where [a] is its result, [d] the events it
    appends and [p] tells whether it panics. *)
Definition storeFree {A : Type} (m : M A) : Prop :=
  forall w,
    m w =
    match m (initial ∅) with
    | Done a w0 =>
        Done a {| userStates := userStates w; trace := (trace w ++ trace w0)%list |}
    | Panic w0 =>
        Panic {| userStates := userStates w; trace := (trace w ++ trace w0)%list |}
    end.

(** The events [m] appends to the trace of [w]. *)
Definition eventsOf {A : Type} (m : M A) (w : World) : list Event :=
  drop (length (trace w)) (trace (worldOf (m w))).

(** The world after the callback was answered. *)
Definition answerWorld (E : Env) (id : string) (w : World) : World :=
  {| userStates := userStates w;
     trace := (trace w ++ Answered id ::
               match apiRequest E id with
               | Some _ => [Logged "failed to answer callback"]
               | None => []
               end)%list |}.

(** The records the bot writes to the state store: waiting for an alias,
    with nothing carried, or waiting for a URL, with a valid alias. *)
Definition recordOK (st : UserState) : Prop :=
  (State st = StateWaitingForAlias /\ StateAlias st = "") \/
  (State st = StateWaitingForURL /\ validAlias (StateAlias st) = true).

Definition storeOK (m : gmap Z UserState) : Prop :=
  forall u st, m !! u = Some st -> recordOK st.

(** The tokens of the buttons of a keyboard. *)
Definition tokens (k : Keyboard) : list string :=
  map Data (concat k).

(** The switch of [handleCallbackQuery], after the callback was answered,
    for a callback that carries its message, of chat [chatID]. *)
Definition routeCallback (E : Env) (chatID : Z) (data : string) : M (option error) :=
  if decide (data = callbackCreateLink) then
    sendMessageWithKeyboard E chatID "Send a URL to create a short link:"
      createCreateLinkKeyboard
  else if decide (data = callbackMyLinks) then handleMyLinksCommand E chatID
  else if decide (data = callbackHelp) then
    sendMessageWithKeyboard E chatID msgHelp createMainKeyboard
  else if HasPrefix data "stats_" then
    handleStatsCommand E chatID (TrimPrefix data "stats_")
  else if HasPrefix data "delete_" then
    handleDeleteCommand E chatID (TrimPrefix data "delete_")
  else if decide (data = callbackCustomAlias) then
    setUserState chatID StateWaitingForAlias "";;
    sendMessage E chatID msgSendCustomAlias false
  else mret None.

(** The tokens [handleCallbackQuery] has a case for. *)
Definition knownToken (data : string) : bool :=
  bool_decide (data = "create_link") || bool_decide (data = "my_links") ||
  bool_decide (data = "help") || bool_decide (data = "custom_alias") ||
  HasPrefix data "stats_" || HasPrefix data "delete_".

(** [m] run in [w] makes at most one call to the remote service and sends
    exactly one message, or none when it panics. *)
Definition answersOnce {A : Type} (m : M A) (w : World) : Prop :=
  (length (calls (trace (worldOf (m w)))) <= length (calls (trace w)) + 1)%nat /\
  length (sent (trace (worldOf (m w)))) =
    (length (sent (trace w)) + if panicked (m w) then 0 else 1)%nat.

(** What one update of chat [c] may do to the state store: nothing, remove
    the record of [c], or write a record of the two kinds for [c]. *)
Definition storeStep (c : Z) (m m' : gmap Z UserState) : Prop :=
  m' = m \/ m' = delete c m \/ exists st, recordOK st /\ m' = <[c := st]> m.

(** What [m] appends to the trace, and whether it panics, do not depend on
    the world it runs in. *)
Definition storeBlind {A : Type} (m : M A) : Prop :=
  exists d p, forall w,
    trace (worldOf (m w)) = (trace w ++ d)%list /\ panicked (m w) = p.

(** An event that shows no button the switch of [handleCallbackQuery] has
    no case for. *)
Definition goodEvent (e : Event) : Prop :=
  match e with
  | Sent m =>
      match ReplyMarkup m with
      | Some k => forallb knownToken (tokens k) = true
      | None => True
      end
  | _ => True
  end.

Definition quoteMark : string := String dquote "".

(** The title at the front of [s]: what stands between the double quote
    after [title=] and the next double quote, when that is not empty. *)
Definition titleAt (s : string) : option string :=
  if String.prefix "title=" s then
    let t := dropN 6 s in
    if String.prefix quoteMark t then
      let body := dropN 1 t in
      match fst (span notQuote body) with
      | "" => None
      | String _ _ as v =>
          if String.prefix quoteMark (snd (span notQuote body)) then Some v else None
      end
    else None
  else None.

(** The text [title=], a double quote, the non-empty text [v] without double
    quote, and a double quote occur in [s] at offset [n]. *)
Definition titleOccursAt (n : nat) (v s : string) : Prop :=
  exists pre post,
    s = pre +:+ "title=" +:+ quoteMark +:+ v +:+ quoteMark +:+ post /\
    String.length pre = n /\ v <> "" /\ allb notQuote v = true.

Definition hasTitle (s : string) : Prop := exists n v, titleOccursAt n v s.

Definition firstTitle (s v : string) : Prop :=
  exists n, titleOccursAt n v s /\
    forall n' v', titleOccursAt n' v' s -> (n <= n')%nat.

(** * Properties *)

(** ** Durations *)

Example parseDuration_2h : parseDuration "2h" = Some 7200000000000.
Proof. vm_compute. reflexivity. Qed.
Example parseDuration_1h30m : parseDuration "1h30m" = Some 5400000000000.
Proof. vm_compute. reflexivity. Qed.
Example parseDuration_bad : parseDuration "notaduration" = None.
Proof. vm_compute. reflexivity. Qed.
Example parseDuration_7d : parseDuration "7d" = None.
Proof. vm_compute. reflexivity. Qed.
Example parseDuration_nounit : parseDuration "15" = None.
Proof. vm_compute. reflexivity. Qed.

(** ** Byte strings *)

#[local] Arguments String.append !_ _ / : simpl nomatch.

Lemma app_empty_r (s : string) : s +:+ "" = s.
Proof. induction s as [|c s IH]; simpl; [reflexivity | now rewrite IH]. Qed.

Lemma app_assoc' (a b c : string) : (a +:+ b) +:+ c = a +:+ (b +:+ c).
Proof. induction a as [|x a IH]; simpl; [reflexivity | now rewrite IH]. Qed.

Lemma length_app (a b : string) :
  String.length (a +:+ b) = (String.length a + String.length b)%nat.
Proof. induction a as [|x a IH]; simpl; [reflexivity | now rewrite IH]. Qed.

Lemma takeN_dropN (n : nat) (s : string) : takeN n s +:+ dropN n s = s.
Proof.
  revert s; induction n as [|n IH]; intros [|c s]; simpl; try reflexivity.
  now rewrite IH.
Qed.

Lemma dropN_app (a b : string) : dropN (String.length a) (a +:+ b) = b.
Proof. induction a as [|x a IH]; simpl; [now destruct b | exact IH]. Qed.

Lemma takeN_app (a b : string) : takeN (String.length a) (a +:+ b) = a.
Proof. induction a as [|x a IH]; simpl; [now destruct b | now rewrite IH]. Qed.

Lemma dropN_empty (n : nat) (s : string) :
  dropN n s = "" <-> (String.length s <= n)%nat.
Proof.
  revert s; induction n as [|n IH]; intros [|c s]; simpl.
  - split; [lia | reflexivity].
  - split; [discriminate | lia].
  - split; [lia | reflexivity].
  - rewrite IH. lia.
Qed.

Lemma prefix_split (l s : string) :
  String.prefix l s = true -> s = l +:+ dropN (String.length l) s.
Proof.
  revert s; induction l as [|a l IH]; intros s H; simpl.
  - now destruct s.
  - destruct s as [|b s]; simpl in H; [discriminate|].
    destruct (ascii_dec a b) as [->|]; [|discriminate].
    simpl. f_equal. now apply IH.
Qed.

Lemma prefix_app (l t : string) : String.prefix l (l +:+ t) = true.
Proof.
  induction l as [|a l IH]; simpl; [now destruct t|].
  destruct (ascii_dec a a); [exact IH | congruence].
Qed.

Lemma span_app (cls : ascii -> bool) (s : string) :
  fst (span cls s) +:+ snd (span cls s) = s.
Proof.
  induction s as [|c s IH]; simpl; [reflexivity|].
  destruct (cls c); [|reflexivity].
  destruct (span cls s) as [a b]; simpl in *. now rewrite IH.
Qed.

Lemma span_all (cls : ascii -> bool) (s : string) :
  allb cls (fst (span cls s)) = true.
Proof.
  induction s as [|c s IH]; simpl; [reflexivity|].
  destruct (cls c) eqn:Hc; [|reflexivity].
  destruct (span cls s) as [a b]; simpl in *. now rewrite Hc.
Qed.

Lemma span_length (cls : ascii -> bool) (s : string) :
  (String.length (fst (span cls s)) <= String.length s)%nat.
Proof.
  induction s as [|c s IH]; simpl; [lia|].
  destruct (cls c); [|simpl; lia].
  destruct (span cls s) as [a b]; simpl in *. lia.
Qed.

Lemma span_full (cls : ascii -> bool) (s : string) :
  String.length (fst (span cls s)) = String.length s <-> allb cls s = true.
Proof.
  induction s as [|c s IH]; simpl; [tauto|].
  destruct (cls c); simpl.
  - destruct (span cls s) as [a b]; simpl in *. rewrite <- IH. lia.
  - split; [discriminate | discriminate].
Qed.

(** [span] stops at the first byte outside the class. *)
Lemma span_stop (cls : ascii -> bool) (s : string) :
  match snd (span cls s) with
  | "" => True
  | String c _ => cls c = false
  end.
Proof.
  induction s as [|c s IH]; simpl; [exact I|].
  destruct (cls c) eqn:Hc; [|exact Hc].
  destruct (span cls s) as [a b]; simpl in *. exact IH.
Qed.

Lemma span_prefix (cls : ascii -> bool) (a b : string) :
  allb cls a = true ->
  match b with "" => True | String c _ => cls c = false end ->
  span cls (a +:+ b) = (a, b).
Proof.
  intros Ha Hb. induction a as [|x a IH]; simpl in *.
  - destruct b as [|c b]; simpl; [reflexivity | now rewrite Hb].
  - apply andb_true_iff in Ha as [Hx Ha]. rewrite Hx, (IH Ha). reflexivity.
Qed.

Lemma takeN_span (cls : ascii -> bool) (s : string) :
  takeN (String.length (fst (span cls s))) s = fst (span cls s).
Proof.
  rewrite <- (span_app cls s) at 2. apply takeN_app.
Qed.

Lemma dropN_span (cls : ascii -> bool) (s : string) :
  dropN (String.length (fst (span cls s))) s = snd (span cls s).
Proof.
  rewrite <- (span_app cls s) at 2. apply dropN_app.
Qed.

Lemma allb_app (cls : ascii -> bool) (a b : string) :
  allb cls (a +:+ b) = allb cls a && allb cls b.
Proof.
  induction a as [|x a IH]; simpl; [reflexivity|].
  now rewrite IH, andb_assoc.
Qed.

Lemma srev_app (a b : string) : srev (a +:+ b) = srev b +:+ srev a.
Proof.
  induction a as [|x a IH].
  - symmetry. apply app_empty_r.
  - simpl. now rewrite IH, app_assoc'.
Qed.

Lemma srev_involutive (s : string) : srev (srev s) = s.
Proof.
  induction s as [|c s IH]; simpl; [reflexivity|].
  now rewrite srev_app, IH.
Qed.

Lemma allb_srev (cls : ascii -> bool) (s : string) :
  allb cls (srev s) = allb cls s.
Proof.
  induction s as [|c s IH]; simpl; [reflexivity|].
  rewrite allb_app, IH. simpl. rewrite andb_true_r. apply andb_comm.
Qed.

Lemma length_srev (s : string) : String.length (srev s) = String.length s.
Proof.
  induction s as [|c s IH]; simpl; [reflexivity|].
  rewrite length_app, IH. simpl. lia.
Qed.

(** ** White space *)

(** No byte of the alias class starts or ends the encoding of a white-space
    rune. *)
Lemma leadingSpace_alias (c : ascii) (t : string) :
  customAliasClass c = true -> leadingSpace (String c t) = None.
Proof.
  destruct c as [[] [] [] [] [] [] [] []]; intros H;
    try (vm_compute in H; discriminate H); reflexivity.
Qed.

Lemma trailingSpace_alias (c : ascii) (t : string) :
  customAliasClass c = true -> trailingSpace (String c t) = None.
Proof.
  destruct c as [[] [] [] [] [] [] [] []]; intros H;
    try (vm_compute in H; discriminate H); reflexivity.
Qed.

Lemma trimLeftN_alias (n : nat) (s : string) :
  allb customAliasClass s = true -> trimLeftN n s = s.
Proof.
  intros H. destruct n as [|n]; [reflexivity|]. simpl.
  destruct s as [|c t]; [reflexivity|].
  simpl in H. apply andb_true_iff in H as [Hc _].
  now rewrite leadingSpace_alias.
Qed.

Lemma trimRightN_alias (n : nat) (r : string) :
  allb customAliasClass r = true -> trimRightN n r = r.
Proof.
  intros H. destruct n as [|n]; [reflexivity|]. simpl.
  destruct r as [|c t]; [reflexivity|].
  simpl in H. apply andb_true_iff in H as [Hc _].
  now rewrite trailingSpace_alias.
Qed.

(** Text made of alias bytes only has no white space to trim. *)
Lemma TrimSpace_alias (s : string) :
  allb customAliasClass s = true -> TrimSpace s = s.
Proof.
  intros H. unfold TrimSpace, trimLeft, trimRight.
  rewrite (trimLeftN_alias _ _ H).
  rewrite trimRightN_alias by now rewrite allb_srev.
  apply srev_involutive.
Qed.

(** ** The alias pattern *)

Lemma search_eq (r : regexp) (b : bool) (s : string) :
  search r b s =
  match matchAt r b s with
  | Some m => Some m
  | None =>
      match s with
      | String _ s' => search r false s'
      | "" => None
      end
  end.
Proof. destruct s; reflexivity. Qed.

Lemma search_Bot_false (r : regexp) (s : string) :
  search (Cat Bot r) false s = None.
Proof. induction s as [|c s IH]; simpl; [reflexivity | exact IH]. Qed.

Lemma in_runs_Rep_Eot cls lo hi b s (x : thread) :
  In x (runs (Cat (Rep cls lo (Some hi)) Eot) b s) <->
  x = (s, [], "") /\ (lo <= String.length s <= hi)%nat /\ allb cls s = true.
Proof.
  simpl. rewrite in_flat_map. split.
  - intros [[[m1 c1] t1] [Hin Hx]].
    apply in_map_iff in Hin as [k [Hk Hin]].
    apply in_rev, in_seq in Hin. inversion Hk; subst; clear Hk.
    destruct (dropN k s) eqn:Hd; simpl in Hx; [|contradiction].
    destruct Hx as [<-|[]].
    apply dropN_empty in Hd.
    pose proof (span_length cls s) as Hn.
    assert (k = String.length s) as -> by lia.
    assert (String.length (fst (span cls s)) = String.length s) as Hfull by lia.
    pose proof (takeN_dropN (String.length s) s) as Htd.
    assert (dropN (String.length s) s = "") as Hd' by (apply dropN_empty; lia).
    rewrite Hd', app_empty_r in Htd. rewrite Htd, app_empty_r.
    split; [reflexivity|]. split; [lia|]. now apply span_full.
  - intros (-> & Hlen & Hall). apply span_full in Hall.
    exists (s, [], ""). split.
    + apply in_map_iff. exists (String.length s).
      assert (dropN (String.length s) s = "") as Hd' by (apply dropN_empty; lia).
      pose proof (takeN_dropN (String.length s) s) as Htd.
      rewrite Hd', app_empty_r in Htd. rewrite Htd, Hd'. split; [reflexivity|].
      apply in_rev. rewrite rev_involutive. apply in_seq. lia.
    + simpl. rewrite app_empty_r. now left.
Qed.

Lemma matchAt_customAlias (s : string) :
  matchAt customAliasRegex true s = if validAlias s then Some [s] else None.
Proof.
  unfold matchAt, customAliasRegex.
  change (runs (Cat Bot ?r) true s)
    with (map (fun '(m2, c2, t2) => ("" +:+ m2, ([] ++ c2)%list, t2))
              (runs r true s) ++ [])%list.
  rewrite app_nil_r.
  destruct (runs _ true s) as [|x l] eqn:Hr.
  - destruct (validAlias s) eqn:Hv; [|reflexivity]. exfalso.
    unfold validAlias in Hv. rewrite !andb_true_iff in Hv.
    destruct Hv as [[H1 H2] H3].
    apply Nat.leb_le in H1. apply Nat.leb_le in H2.
    assert (In (s, [], "") (runs (Cat (Rep customAliasClass 1 (Some 20%nat)) Eot) true s)) as Hin
      by (apply in_runs_Rep_Eot; auto).
    rewrite Hr in Hin. destruct Hin.
  - assert (In x (runs (Cat (Rep customAliasClass 1 (Some 20%nat)) Eot) true s)) as Hin
      by (rewrite Hr; now left).
    apply in_runs_Rep_Eot in Hin as (-> & Hlen & Hall). simpl.
    unfold validAlias. rewrite Hall.
    destruct Hlen as [H1 H2].
    apply Nat.leb_le in H1. apply Nat.leb_le in H2. now rewrite H1, H2.
Qed.

(** [customAliasRegex] accepts exactly the valid aliases. *)
Lemma MatchString_customAlias (s : string) :
  MatchString customAliasRegex s = validAlias s.
Proof.
  unfold MatchString.
  assert (search customAliasRegex true s = if validAlias s then Some [s] else None) as ->.
  { rewrite search_eq, matchAt_customAlias.
    destruct (validAlias s); [reflexivity|].
    destruct s as [|c s]; [reflexivity | apply search_Bot_false]. }
  destruct (validAlias s); [apply bool_decide_eq_true_2 | apply bool_decide_eq_false_2].
  - eauto.
  - intros [? ?]; discriminate.
Qed.

Lemma validAlias_all (s : string) :
  validAlias s = true -> allb customAliasClass s = true.
Proof. unfold validAlias. rewrite !andb_true_iff. tauto. Qed.

(** ** The URL pattern *)

Lemma runs_Cat_Lit (l : string) (r : regexp) (b : bool) (s : string) :
  runs (Cat (Lit l) r) b s =
  if String.prefix l s then
    map (fun '(m2, c2, t2) => (l +:+ m2, c2, t2))
        (runs r (b && String.eqb l "") (dropN (String.length l) s))
  else [].
Proof.
  simpl. destruct (String.prefix l s); simpl; [|reflexivity].
  now rewrite app_nil_r.
Qed.

Lemma rev_seq_S (lo n : nat) :
  rev (seq lo (S n)) = (lo + n)%nat :: rev (seq lo n).
Proof. rewrite seq_S, rev_app_distr. reflexivity. Qed.

(** The preferred thread of a greedy [+] takes the whole run. *)
Lemma head_runs_plus (cls : ascii -> bool) (b : bool) (s : string) :
  head (runs (plus cls) b s) =
  match fst (span cls s) with
  | "" => None
  | String _ _ => Some (fst (span cls s), [], snd (span cls s))
  end.
Proof.
  unfold plus. simpl runs. rewrite Nat.sub_0_r.
  pose proof (takeN_span cls s) as Ht. pose proof (dropN_span cls s) as Hd.
  destruct (fst (span cls s)) as [|c a] eqn:Hf; [reflexivity|].
  cbn [String.length] in *. rewrite rev_seq_S. cbn [map head].
  change (1 + String.length a)%nat with (S (String.length a)).
  now rewrite Ht, Hd.
Qed.

Lemma head_map' {A B : Type} (f : A -> B) (l : list A) :
  head (map f l) = f <$> head l.
Proof. destruct l; reflexivity. Qed.

Lemma head_app' {A : Type} (l1 l2 : list A) :
  head (l1 ++ l2)%list = match head l1 with Some x => Some x | None => head l2 end.
Proof. destruct l1; reflexivity. Qed.

Lemma matchAt_head (r : regexp) (b : bool) (s : string) :
  matchAt r b s = (fun x : thread => x.1.1 :: x.1.2) <$> head (runs r b s).
Proof. unfold matchAt. destruct (runs r b s) as [|[[m cs] t] l]; reflexivity. Qed.

(** After the scheme name: the text [://] and a run of non-space bytes. *)
Lemma head_runs_url_tail (b : bool) (t1 : string) :
  head (runs (Cat (Lit "://") (plus notSpace)) b t1) =
  if String.prefix "://" t1 then
    match fst (span notSpace (dropN 3 t1)) with
    | "" => None
    | String _ _ as run =>
        Some ("://" +:+ run, [], snd (span notSpace (dropN 3 t1)))
    end
  else None.
Proof.
  rewrite runs_Cat_Lit. destruct (String.prefix "://" t1); [|reflexivity].
  rewrite head_map', head_runs_plus.
  change (String.length "://") with 3%nat.
  destruct (fst (span notSpace (dropN 3 t1))); reflexivity.
Qed.

Lemma runs_Cat_OptChr (c : ascii) (r : regexp) (b : bool) (s : string) :
  runs (Cat (OptChr c) r) b s =
  match s with
  | String c' s' =>
      if Ascii.eqb c c' then
        (map (fun '(m2, c2, t2) => (String c "" +:+ m2, c2, t2))
             (runs r (b && String.eqb (String c "") "") s') ++
         map (fun '(m2, c2, t2) => ("" +:+ m2, c2, t2))
             (runs r (b && String.eqb "" "") s))%list
      else
        map (fun '(m2, c2, t2) => ("" +:+ m2, c2, t2))
            (runs r (b && String.eqb "" "") s)
  | "" =>
      map (fun '(m2, c2, t2) => ("" +:+ m2, c2, t2))
          (runs r (b && String.eqb "" "") s)
  end.
Proof.
  destruct s as [|c' s']; simpl.
  - now rewrite app_nil_r.
  - destruct (Ascii.eqb c c'); simpl; now rewrite app_nil_r.
Qed.

Lemma matchAt_url (b : bool) (s : string) :
  matchAt urlRegex b s = (fun u => [u]) <$> urlAt s.
Proof.
  rewrite matchAt_head. unfold urlRegex, urlAt. rewrite runs_Cat_Lit.
  destruct (String.prefix "http" s); [|reflexivity].
  change (String.length "http") with 4%nat.
  generalize (dropN 4 s) (b && String.eqb "http" ""). intros t b'.
  rewrite head_map', runs_Cat_OptChr.
  destruct t as [|c t'].
  - rewrite head_map', head_runs_url_tail. reflexivity.
  - destruct (Ascii.eqb "s" c) eqn:Hc.
    + apply Ascii.eqb_eq in Hc as <-.
      rewrite head_app', !head_map', !head_runs_url_tail.
      change (String.prefix "://" (String "s" t')) with false.
      destruct (String.prefix "://" t'); [|reflexivity].
      destruct (fst (span notSpace (dropN 3 t'))); reflexivity.
    + rewrite head_map', head_runs_url_tail.
      destruct (String.prefix "://" (String c t')); [|reflexivity].
      destruct (fst (span notSpace (dropN 3 (String c t')))); reflexivity.
Qed.

Lemma span_app_all (cls : ascii -> bool) (a b : string) :
  allb cls a = true ->
  span cls (a +:+ b) = (a +:+ fst (span cls b), snd (span cls b)).
Proof.
  intros Ha. induction a as [|x a IH]; simpl in *.
  - now destruct (span cls b).
  - apply andb_true_iff in Ha as [Hx Ha]. rewrite Hx, (IH Ha). reflexivity.
Qed.

Lemma URLShaped_nonempty (u : string) : URLShaped u -> u <> "".
Proof. intros (run & [-> | ->] & _); discriminate. Qed.

Lemma urlAt_sound (s u : string) :
  urlAt s = Some u ->
  URLShaped u /\ exists post, s = u +:+ post.
Proof.
  unfold urlAt. destruct (String.prefix "http" s) eqn:Hp; [|discriminate].
  apply prefix_split in Hp. change (String.length "http") with 4%nat in Hp.
  revert Hp. generalize (dropN 4 s). intros t Hs.
  assert (forall scheme t1,
            (scheme = "http" \/ scheme = "https") -> s = scheme +:+ t1 ->
            (if String.prefix "://" t1 then
               match fst (span notSpace (dropN 3 t1)) with
               | "" => None
               | String _ _ as run => Some (scheme +:+ "://" +:+ run)
               end
             else None) = Some u ->
            URLShaped u /\ exists post, s = u +:+ post) as Hgen.
  { intros scheme t1 Hsch Hst.
    destruct (String.prefix "://" t1) eqn:Hp1; [|discriminate].
    apply prefix_split in Hp1. change (String.length "://") with 3%nat in Hp1.
    pose proof (span_app notSpace (dropN 3 t1)) as Hsp.
    pose proof (span_all notSpace (dropN 3 t1)) as Hall.
    destruct (fst (span notSpace (dropN 3 t1))) as [|a run] eqn:Hf; [discriminate|].
    intros [= <-]. split.
    - exists (String a run). split; [|split; [discriminate | exact Hall]].
      destruct Hsch as [-> | ->]; [left | right]; reflexivity.
    - exists (snd (span notSpace (dropN 3 t1))).
      rewrite Hst, Hp1 at 1. rewrite <- Hsp at 1.
      now rewrite !app_assoc'. }
  destruct t as [|c t'].
  - apply Hgen; [now left | exact Hs].
  - destruct (Ascii.eqb "s" c) eqn:Hc.
    + apply Ascii.eqb_eq in Hc as <-. apply Hgen; [now right | exact Hs].
    + apply Hgen; [now left | exact Hs].
Qed.

Lemma urlAt_complete (u' post' : string) :
  URLShaped u' ->
  exists u, urlAt (u' +:+ post') = Some u /\
            (String.length u' <= String.length u)%nat.
Proof.
  intros (run & Hu & Hne & Hall).
  assert (exists a r, run +:+ fst (span notSpace post') = String a r) as (a & r & Hrun).
  { destruct run as [|a r]; [congruence|]. simpl. eauto. }
  destruct Hu as [-> | ->].
  - exists ("http://" +:+ run +:+ fst (span notSpace post')). split.
    + unfold urlAt. rewrite app_assoc'.
      change (String.prefix "http" ("http://" +:+ run +:+ post')) with true.
      cbn [dropN String.append Ascii.eqb Bool.eqb].
      change (String ":" (String "/" (String "/" (run +:+ post'))))
        with ("://" +:+ (run +:+ post')).
      rewrite prefix_app.
      cbn [dropN]. rewrite (span_app_all _ _ _ Hall). cbn [fst].
      rewrite Hrun. reflexivity.
    + rewrite !length_app. lia.
  - exists ("https://" +:+ run +:+ fst (span notSpace post')). split.
    + unfold urlAt. rewrite app_assoc'.
      change (String.prefix "http" ("https://" +:+ run +:+ post')) with true.
      cbn [dropN String.append Ascii.eqb Bool.eqb].
      change (String ":" (String "/" (String "/" (run +:+ post'))))
        with ("://" +:+ (run +:+ post')).
      rewrite prefix_app.
      cbn [dropN]. rewrite (span_app_all _ _ _ Hall). cbn [fst].
      rewrite Hrun. reflexivity.
    + rewrite !length_app. lia.
Qed.

Lemma dropN_nil (k : nat) : dropN k "" = "".
Proof. now destruct k. Qed.

(** What the leftmost search for [urlRegex] finds. *)
Lemma search_url_spec (b : bool) (s : string) :
  match search urlRegex b s with
  | Some l =>
      exists pre u post,
        l = [u] /\ s = pre +:+ u +:+ post /\ urlAt (u +:+ post) = Some u /\
        forall k, (k < String.length pre)%nat -> urlAt (dropN k s) = None
  | None => forall k, urlAt (dropN k s) = None
  end.
Proof.
  revert b. induction s as [|c s IH]; intros b;
    rewrite search_eq, matchAt_url.
  - change (urlAt "") with (@None string). simpl.
    intros k. now rewrite dropN_nil.
  - destruct (urlAt (String c s)) as [u|] eqn:Hu; simpl.
    + destruct (urlAt_sound _ _ Hu) as [_ [post Hs]].
      exists "", u, post. repeat split; simpl; try assumption.
      * now rewrite <- Hs.
      * intros k Hk. lia.
    + specialize (IH false). destruct (search urlRegex false s) as [l|].
      * destruct IH as (pre & u & post & -> & -> & Hat & Hleft).
        exists (String c pre), u, post. repeat split; try assumption.
        intros [|k] Hk; simpl in *; [exact Hu | apply Hleft; lia].
      * intros [|k]; simpl; [exact Hu | apply IH].
Qed.

Lemma occursAt_dropN (n : nat) (u s : string) :
  occursAt n u s -> exists post, dropN n s = u +:+ post.
Proof.
  intros (pre & post & -> & <-). exists post. apply dropN_app.
Qed.

(** [urlRegex.FindString] returns the first URL-shaped substring, and the
    empty string exactly when there is none. *)
Lemma FindString_url (s : string) :
  (containsURL s -> firstURL s (FindString urlRegex s)) /\
  (~ containsURL s -> FindString urlRegex s = "").
Proof.
  unfold FindString. pose proof (search_url_spec true s) as H.
  destruct (search urlRegex true s) as [l|].
  - destruct H as (pre & u & post & -> & Hs & Hat & Hleft).
    destruct (urlAt_sound _ _ Hat) as [Hshape _].
    assert (firstURL s u) as Hfirst.
    { exists (String.length pre). split; [exact Hshape|]. split.
      - exists pre, post. split; [exact Hs | reflexivity].
      - intros n' u' Hu' Hocc.
        destruct (occursAt_dropN _ _ _ Hocc) as [post' Hd].
        destruct (urlAt_complete u' post' Hu') as (u2 & Hat2 & Hlen).
        rewrite <- Hd in Hat2.
        assert (String.length pre <= n')%nat as Hle.
        { destruct (Nat.le_gt_cases (String.length pre) n') as [|Hlt]; [assumption|].
          rewrite (Hleft _ Hlt) in Hat2. discriminate. }
        split; [exact Hle|]. intros ->.
        rewrite Hs, dropN_app, Hat in Hat2. injection Hat2 as <-. exact Hlen. }
    split; [intros _; exact Hfirst|].
    intros Hno. exfalso. apply Hno.
    exists (String.length pre), u. split; [exact Hshape|].
    exists pre, post. split; [exact Hs | reflexivity].
  - split; [|reflexivity].
    intros (n & u & Hu & Hocc). exfalso.
    destruct (occursAt_dropN _ _ _ Hocc) as [post' Hd].
    destruct (urlAt_complete u post' Hu) as (u2 & Hat2 & _).
    rewrite <- Hd, H in Hat2. discriminate.
Qed.

Lemma firstURL_contains (s u : string) : firstURL s u -> containsURL s.
Proof. intros (n & Hu & Hocc & _). now exists n, u. Qed.

Lemma FindString_url_nonempty (s : string) :
  FindString urlRegex s <> "" <-> containsURL s.
Proof.
  split.
  - intros Hne. destruct (FindString_url s) as [H1 H2].
    pose proof (search_url_spec true s) as H.
    unfold FindString in Hne.
    destruct (search urlRegex true s) as [l|]; [|congruence].
    destruct H as (pre & u & post & -> & Hs & Hat & _).
    destruct (urlAt_sound _ _ Hat) as [Hshape _].
    exists (String.length pre), u. split; [exact Hshape|].
    exists pre, post. split; [exact Hs | reflexivity].
  - intros Hc. destruct (FindString_url s) as [H1 _].
    destruct (H1 Hc) as (n & Hu & _). now apply URLShaped_nonempty.
Qed.

Lemma MatchString_url (s : string) :
  MatchString urlRegex s = true <-> FindString urlRegex s <> "".
Proof.
  unfold MatchString, FindString. pose proof (search_url_spec true s) as H.
  destruct (search urlRegex true s) as [l|].
  - destruct H as (pre & u & post & -> & Hs & Hat & _).
    destruct (urlAt_sound _ _ Hat) as [Hshape _].
    split; [intros _; now apply URLShaped_nonempty|].
    intros _. apply bool_decide_eq_true_2. eauto.
  - split; [|congruence].
    intros Hm. apply bool_decide_eq_true_1 in Hm. destruct Hm; discriminate.
Qed.

(** ** The [key=value] modifiers *)

Lemma runs_Grp (r : regexp) (b : bool) (s : string) :
  runs (Grp r) b s = map (fun '(m, cs, t) => (m, m :: cs, t)) (runs r b s).
Proof. reflexivity. Qed.

Lemma matchAt_key (key : string) (cls : ascii -> bool) (b : bool) (s : string) :
  matchAt (Cat (Lit key) (Grp (plus cls))) b s =
  (fun v => [key +:+ v; v]) <$> valueAt key cls s.
Proof.
  rewrite matchAt_head, runs_Cat_Lit. unfold valueAt.
  destruct (String.prefix key s); [|reflexivity].
  rewrite head_map', runs_Grp, head_map', head_runs_plus.
  destruct (fst (span cls (dropN (String.length key) s))); reflexivity.
Qed.

Lemma valueAt_sound (key : string) (cls : ascii -> bool) (s v : string) :
  valueAt key cls s = Some v -> modifierAt key cls 0 v s.
Proof.
  unfold valueAt. destruct (String.prefix key s) eqn:Hp; [|discriminate].
  apply prefix_split in Hp.
  pose proof (span_app cls (dropN (String.length key) s)) as Hsp.
  pose proof (span_all cls (dropN (String.length key) s)) as Hall.
  pose proof (span_stop cls (dropN (String.length key) s)) as Hstop.
  destruct (fst (span cls (dropN (String.length key) s))) as [|a run] eqn:Hf;
    [discriminate|].
  intros [= <-].
  exists "", (snd (span cls (dropN (String.length key) s))).
  split; [|split; [reflexivity|split; [discriminate|split; assumption]]].
  rewrite Hsp. exact Hp.
Qed.

Lemma valueAt_complete (key : string) (cls : ascii -> bool) (v post : string) :
  v <> "" -> allb cls v = true ->
  match post with "" => True | String c _ => cls c = false end ->
  valueAt key cls (key +:+ v +:+ post) = Some v.
Proof.
  intros Hne Hall Hstop. unfold valueAt.
  rewrite prefix_app, dropN_app, (span_prefix _ _ _ Hall Hstop).
  destruct v; [congruence | reflexivity].
Qed.

Lemma modifierAt_dropN (key : string) (cls : ascii -> bool) (n : nat) (v s : string) :
  modifierAt key cls n v s -> valueAt key cls (dropN n s) = Some v.
Proof.
  intros (pre & post & -> & <- & Hne & Hall & Hstop).
  rewrite dropN_app. now apply valueAt_complete.
Qed.

(** What the leftmost search for a [key=value] pattern finds. *)
Lemma search_key_spec (key : string) (cls : ascii -> bool) (b : bool) (s : string) :
  match search (Cat (Lit key) (Grp (plus cls))) b s with
  | Some l =>
      exists pre v,
        l = [key +:+ v; v] /\ (String.length pre <= String.length s)%nat /\
        modifierAt key cls (String.length pre) v s /\
        forall k, (k < String.length pre)%nat -> valueAt key cls (dropN k s) = None
  | None => forall k, valueAt key cls (dropN k s) = None
  end.
Proof.
  revert b. induction s as [|c s IH]; intros b; rewrite search_eq, matchAt_key.
  - destruct (valueAt key cls "") as [v|] eqn:Hv; simpl.
    + exists "", v. split; [reflexivity|]. split; [simpl; lia|].
      split; [now apply valueAt_sound|]. intros k Hk. simpl in Hk. lia.
    + intros k. now rewrite dropN_nil.
  - destruct (valueAt key cls (String c s)) as [v|] eqn:Hv; simpl.
    + exists "", v. split; [reflexivity|]. split; [simpl; lia|].
      split; [now apply valueAt_sound|]. intros k Hk. simpl in Hk. lia.
    + specialize (IH false).
      destruct (search (Cat (Lit key) (Grp (plus cls))) false s) as [l|].
      * destruct IH as (pre & v & -> & Hlen & Hmod & Hleft).
        exists (String c pre), v. split; [reflexivity|]. split; [simpl; lia|].
        split.
        -- destruct Hmod as (pre' & post & -> & Hl & Hrest).
           exists (String c pre'), post. split; [reflexivity|].
           split; [simpl; now rewrite Hl | exact Hrest].
        -- intros [|k] Hk; simpl in *; [exact Hv | apply Hleft; lia].
      * intros [|k]; simpl; [exact Hv | apply IH].
Qed.

(** The group a [key=value] pattern captures is the value of the leftmost
    modifier, and there is no match exactly when the text has no modifier. *)
Lemma submatch1_key (key : string) (cls : ascii -> bool) (s : string) :
  match submatch1 (Cat (Lit key) (Grp (plus cls))) s with
  | Some v => firstModifier key cls s v
  | None => ~ hasModifier key cls s
  end.
Proof.
  unfold submatch1, FindStringSubmatch.
  pose proof (search_key_spec key cls true s) as H.
  destruct (search (Cat (Lit key) (Grp (plus cls))) true s) as [l|]; simpl.
  - destruct H as (pre & v & -> & _ & Hmod & Hleft).
    exists (String.length pre). split; [exact Hmod|].
    intros n' v' Hmod'. apply modifierAt_dropN in Hmod'.
    destruct (Nat.le_gt_cases (String.length pre) n') as [|Hlt]; [assumption|].
    rewrite (Hleft _ Hlt) in Hmod'. discriminate.
  - intros (n & v & Hmod). apply modifierAt_dropN in Hmod.
    rewrite H in Hmod. discriminate.
Qed.

Lemma firstModifier_unique (key : string) (cls : ascii -> bool) (s v v' : string) :
  firstModifier key cls s v -> firstModifier key cls s v' -> v = v'.
Proof.
  intros (n & Hm & Hmin) (n' & Hm' & Hmin').
  assert (n = n') as <- by (pose proof (Hmin _ _ Hm'); pose proof (Hmin' _ _ Hm); lia).
  apply modifierAt_dropN in Hm. apply modifierAt_dropN in Hm'. congruence.
Qed.

Lemma submatch1_key_iff (key : string) (cls : ascii -> bool) (s v : string) :
  submatch1 (Cat (Lit key) (Grp (plus cls))) s = Some v <-> firstModifier key cls s v.
Proof.
  pose proof (submatch1_key key cls s) as H.
  destruct (submatch1 (Cat (Lit key) (Grp (plus cls))) s) as [v0|].
  - split; [intros [= <-]; exact H|].
    intros Hv. f_equal. eapply firstModifier_unique; eassumption.
  - split; [discriminate|].
    intros (n & Hm & _). exfalso. apply H. now exists n, v.
Qed.

Lemma submatch1_key_none (key : string) (cls : ascii -> bool) (s : string) :
  submatch1 (Cat (Lit key) (Grp (plus cls))) s = None <-> ~ hasModifier key cls s.
Proof.
  pose proof (submatch1_key key cls s) as H.
  destruct (submatch1 (Cat (Lit key) (Grp (plus cls))) s) as [v0|].
  - split; [discriminate|]. intros Hno. exfalso. apply Hno.
    destruct H as (n & Hm & _). now exists n, v0.
  - split; [intros _; exact H | reflexivity].
Qed.

(** ** Traces *)

Lemma calls_app (t1 t2 : list Event) : calls (t1 ++ t2) = (calls t1 ++ calls t2)%list.
Proof. apply omap_app. Qed.

Lemma sent_app (t1 t2 : list Event) : sent (t1 ++ t2) = (sent t1 ++ sent t2)%list.
Proof. apply omap_app. Qed.

(** Unfold one handler down to the worlds it produces. *)
Ltac run :=
  unfold handleMessage, handleCallbackQuery, handleCommand,
    handleCustomAliasInput, handleURLInputWithAlias, handleShortenCommand,
    handleStatsCommand, handleDeleteCommand, handleMyLinksCommand,
    CreateLink, GetLinkStats, DeleteLink, ListUserLinks,
    sendMessage, sendMessageWithKeyboard, send, defer, deref, panic,
    getUserState, setUserState, resetUserState, emit,
    mbind, M_bind, mret, M_ret;
  cbn [worldOf panicked userStates trace].

Ltac traces :=
  cbn [worldOf panicked userStates trace];
  rewrite ?calls_app, ?sent_app; cbn [calls sent omap list_omap app];
  rewrite ?app_nil_r, <- ?app_assoc; cbn [app].

(** ** The conversation *)

(** [handleMessage] by conversation state. *)
Lemma handleMessage_waiting_url (E : Env) (w : World) (userID : Z) (text alias : string) :
  userStates w !! userID =
    Some {| State := StateWaitingForURL; StateAlias := alias |} ->
  handleMessage E userID text w = handleURLInputWithAlias E userID text alias w.
Proof.
  intros Hst. unfold handleMessage, getUserState, mbind, M_bind.
  rewrite Hst. reflexivity.
Qed.

Lemma handleMessage_waiting_alias (E : Env) (w : World) (userID : Z) (text alias : string) :
  userStates w !! userID =
    Some {| State := StateWaitingForAlias; StateAlias := alias |} ->
  handleMessage E userID text w = handleCustomAliasInput E userID text w.
Proof.
  intros Hst. unfold handleMessage, getUserState, mbind, M_bind.
  rewrite Hst. reflexivity.
Qed.

Lemma handleMessage_default (E : Env) (w : World) (userID : Z) (text : string) :
  State (stateOf w userID) <> StateWaitingForAlias ->
  State (stateOf w userID) <> StateWaitingForURL ->
  handleMessage E userID text w =
  if MatchString urlRegex text then handleShortenCommand E userID text w
  else sendMessageWithKeyboard E userID msgUseShortenCommand createMainKeyboard w.
Proof.
  intros H1 H2. unfold handleMessage, getUserState, mbind, M_bind.
  fold (stateOf w userID).
  destruct (decide (State (stateOf w userID) = StateWaitingForAlias)); [contradiction|].
  destruct (decide (State (stateOf w userID) = StateWaitingForURL)); [contradiction|].
  now destruct (MatchString urlRegex text).
Qed.

(** What [handleURLInputWithAlias] does, by the text and the answer of the
    remote service. *)
Lemma handleURLInputWithAlias_run (E : Env) (w : World) (userID : Z) (text alias : string) :
  let url := FindString urlRegex text in
  let r := handleURLInputWithAlias E userID text alias w in
  panicked r = false /\
  userStates (worldOf r) = delete userID (userStates w) /\
  (url = "" ->
     trace (worldOf r) =
       (trace w ++ [Sent (plainMessage userID msgInvalidShortenFormat)])%list) /\
  (url <> "" ->
     calls (trace (worldOf r)) =
       (calls (trace w) ++ [CallCreateLink (aliasRequest userID url alias)])%list /\
     sent (trace (worldOf r)) =
       (sent (trace w) ++
        [match remoteCreateLink E (aliasRequest userID url alias) with
         | inl res =>
             {| ChatID := userID;
                Text := msgLinkSuccessfullyShortened (BaseURL E +:+ "/" +:+ Alias res);
                Markdown := false;
                ReplyMarkup := Some (createLinkActionsKeyboard (Alias res)) |}
         | inr err =>
             plainMessage userID
               (if hasCode err AlreadyExists then msgAliasTaken alias
                else msgInternalError)
         end])%list).
Proof.
  intros url r. subst url r. run.
  fold (aliasRequest userID (FindString urlRegex text) alias).
  destruct (decide (FindString urlRegex text = "")) as [Hnone|Hsome].
  - cbn [worldOf panicked userStates trace]. repeat split. contradiction.
    contradiction.
  - destruct (remoteCreateLink E _) as [res|err];
      [|destruct (hasCode err AlreadyExists)];
      cbn [worldOf panicked userStates trace];
      (split; [reflexivity|]; split; [reflexivity|]; split; [contradiction|]);
      intros _; split; now traces.
Qed.

(** C5. A text message in state [StateWaitingForURL] carrying [alias]: the
    handler returns, the state of the user is reset to idle whatever the
    remote service answers, and if the text contains a URL-shaped substring,
    exactly one CreateLink call is made, with the first such substring and
    the carried alias; if it contains none, no call is made and the format
    error is sent. *)
Theorem awaiting_url_one_call_then_idle
    (E : Env) (w : World) (userID : Z) (text alias : string) :
  userStates w !! userID =
    Some {| State := StateWaitingForURL; StateAlias := alias |} ->
  let r := handleMessage E userID text w in
  panicked r = false /\
  userStates (worldOf r) = delete userID (userStates w) /\
  stateOf (worldOf r) userID = idle /\
  (containsURL text ->
     exists u, firstURL text u /\
       calls (trace (worldOf r)) =
         (calls (trace w) ++ [CallCreateLink (aliasRequest userID u alias)])%list) /\
  (~ containsURL text ->
     calls (trace (worldOf r)) = calls (trace w) /\
     sent (trace (worldOf r)) =
       (sent (trace w) ++ [plainMessage userID msgInvalidShortenFormat])%list).
Proof.
  intros Hst r. subst r. rewrite (handleMessage_waiting_url _ _ _ _ _ Hst).
  destruct (handleURLInputWithAlias_run E w userID text alias)
    as (Hp & Hu & Hnone & Hsome).
  destruct (FindString_url text) as [Hyes Hno].
  split; [exact Hp|]. split; [exact Hu|]. split.
  { unfold stateOf. rewrite Hu, lookup_delete_eq. reflexivity. }
  split.
  - intros Hc. exists (FindString urlRegex text). split; [now apply Hyes|].
    apply Hsome. now apply FindString_url_nonempty.
  - intros Hc. rewrite (Hnone (Hno Hc)). split; now traces.
Qed.

Lemma awaiting_url_one_call_then_idle_witness :
  let w := initial {[ 5 := {| State := StateWaitingForURL; StateAlias := "foo" |} ]} in
  let r := handleMessage sampleEnv 5 "here: https://a.b/c extra" w in
  userStates w !! 5 = Some {| State := StateWaitingForURL; StateAlias := "foo" |} /\
  panicked r = false /\
  userStates (worldOf r) = delete 5 (userStates w) /\
  stateOf (worldOf r) 5 = idle /\
  (containsURL "here: https://a.b/c extra" ->
     exists u, firstURL "here: https://a.b/c extra" u /\
       calls (trace (worldOf r)) =
         (calls (trace w) ++ [CallCreateLink (aliasRequest 5 u "foo")])%list) /\
  (~ containsURL "here: https://a.b/c extra" ->
     calls (trace (worldOf r)) = calls (trace w) /\
     sent (trace (worldOf r)) =
       (sent (trace w) ++ [plainMessage 5 msgInvalidShortenFormat])%list).
Proof.
  split; [reflexivity|].
  apply (awaiting_url_one_call_then_idle sampleEnv
           (initial {[ 5 := {| State := StateWaitingForURL; StateAlias := "foo" |} ]})
           5 "here: https://a.b/c extra" "foo").
  reflexivity.
Defined.

(** The example of the specification: the call carries [https://a.b/c]. *)
Example awaiting_url_example :
  calls (trace (worldOf (handleMessage sampleEnv 5 "here: https://a.b/c extra"
    (initial {[ 5 := {| State := StateWaitingForURL; StateAlias := "foo" |} ]})))) =
  [CallCreateLink (aliasRequest 5 "https://a.b/c" "foo")].
Proof. vm_compute. reflexivity. Qed.

(** ** [handleShortenCommand] *)

(** What [handleShortenCommand] does, by the argument text and the answer of
    the remote service. *)
Lemma handleShortenCommand_run (E : Env) (w : World) (chatID : Z) (args : string) :
  let url := FindString urlRegex args in
  let req := shortenRequest E chatID url args in
  let r := handleShortenCommand E chatID args w in
  userStates (worldOf r) = userStates w /\
  (url = "" ->
     panicked r = false /\
     trace (worldOf r) =
       (trace w ++ [Sent {| ChatID := chatID; Text := msgInvalidShortenFormat;
                            Markdown := true; ReplyMarkup := None |}])%list) /\
  (url <> "" ->
     calls (trace (worldOf r)) = (calls (trace w) ++ [CallCreateLink req])%list /\
     match remoteCreateLink E req with
     | inl res =>
         panicked r = false /\
         sent (trace (worldOf r)) = (sent (trace w) ++ [createdMessage E chatID res])%list
     | inr err =>
         if hasCode err AlreadyExists then
           match CustomAlias req with
           | Some a =>
               panicked r = false /\
               sent (trace (worldOf r)) =
                 (sent (trace w) ++ [plainMessage chatID (msgAliasTaken a)])%list
           | None =>
               panicked r = true /\ sent (trace (worldOf r)) = sent (trace w)
           end
         else
           panicked r = false /\
           sent (trace (worldOf r)) =
             (sent (trace w) ++ [plainMessage chatID msgInternalError])%list
     end).
Proof.
  intros url req r. subst url req r. run.
  destruct (decide (FindString urlRegex args = "")) as [Hnone|Hsome].
  - cbn [worldOf panicked userStates trace].
    split; [reflexivity|]. split; [intros _; split; reflexivity | contradiction].
  - set (req := shortenRequest E chatID (FindString urlRegex args) args).
    destruct (remoteCreateLink E req) as [res|err];
      [|destruct (hasCode err AlreadyExists); [destruct (CustomAlias req) as [a|]|]];
      cbn [worldOf panicked userStates trace];
      (split; [reflexivity|]; split; [contradiction|]);
      intros _; repeat split; now traces.
Qed.




(** C7 (the value as the code reads it). [/shorten] with a URL and an
    [expires_in=] modifier, where the value [v] of the modifier is the run of
    word bytes (letters, digits, underscore) that follows the first
    [expires_in=] followed by one, not all that is typed up to the next white
    space: the request is sent to the remote service in any case; it has no
    expiry when [v] does not parse as a duration, and the expiry is the
    current time plus the duration when it does. A remote success is answered
    with the success message. *)
Theorem unparseable_expiry_dropped
    (E : Env) (w : World) (chatID : Z) (args v : string) :
  containsURL args ->
  firstModifier "expires_in=" expiresInClass args v ->
  let r := handleShortenCommand E chatID args w in
  exists req,
    calls (trace (worldOf r)) = (calls (trace w) ++ [CallCreateLink req])%list /\
    (ParseDuration E v = None -> ExpiresAt req = None) /\
    (forall d, ParseDuration E v = Some d -> ExpiresAt req = Some (Now E + d)) /\
    (forall res, remoteCreateLink E req = inl res ->
       panicked r = false /\
       sent (trace (worldOf r)) = (sent (trace w) ++ [createdMessage E chatID res])%list).
Proof.
  intros Hc Hv r. subst r. apply submatch1_key_iff in Hv.
  fold expiresInRegex in Hv.
  pose proof (proj2 (FindString_url_nonempty args) Hc) as Hne.
  destruct (handleShortenCommand_run E w chatID args) as (_ & _ & Hsome).
  destruct (Hsome Hne) as [Hcalls Hans].
  exists (shortenRequest E chatID (FindString urlRegex args) args).
  split; [exact Hcalls|].
  unfold shortenRequest at 1 2. cbn [ExpiresAt]. rewrite Hv.
  split; [intros ->; reflexivity|]. split; [intros d ->; reflexivity|].
  intros res Hres. rewrite Hres in Hans. exact Hans.
Qed.

Lemma unparseable_expiry_dropped_witness :
  let args := "https://x.com expires_in=notaduration" in
  let w := initial ∅ in
  let r := handleShortenCommand sampleEnv 5 args w in
  containsURL args /\
  firstModifier "expires_in=" expiresInClass args "notaduration" /\
  exists req,
    calls (trace (worldOf r)) = (calls (trace w) ++ [CallCreateLink req])%list /\
    (ParseDuration sampleEnv "notaduration" = None -> ExpiresAt req = None) /\
    (forall d, ParseDuration sampleEnv "notaduration" = Some d ->
       ExpiresAt req = Some (Now sampleEnv + d)) /\
    (forall res, remoteCreateLink sampleEnv req = inl res ->
       panicked r = false /\
       sent (trace (worldOf r)) =
         (sent (trace w) ++ [createdMessage sampleEnv 5 res])%list).
Proof.
  assert (containsURL "https://x.com expires_in=notaduration") as Hc.
  { apply FindString_url_nonempty. vm_compute. discriminate. }
  assert (firstModifier "expires_in=" expiresInClass
            "https://x.com expires_in=notaduration" "notaduration") as Hm.
  { apply submatch1_key_iff. reflexivity. }
  split; [exact Hc|]. split; [exact Hm|].
  apply (unparseable_expiry_dropped sampleEnv (initial ∅) 5
           "https://x.com expires_in=notaduration" "notaduration").
  - exact Hc.
  - exact Hm.
Defined.

(** C7 as stated fails on the value as typed: in [expires_in=1h.5] the value
    [1h.5] is no duration ([time.ParseDuration] finds no unit after [.5]),
    yet the request is sent with an expiry, one hour from now: the pattern
    takes [1h] and leaves the rest. *)
Lemma expiry_typed_value_counterexample :
  let args := "https://x.com expires_in=1h.5" in
  let r := handleShortenCommand sampleEnv 5 args (initial ∅) in
  containsURL args /\
  typedValue "expires_in=" args = Some "1h.5" /\
  ParseDuration sampleEnv "1h.5" = None /\
  firstModifier "expires_in=" expiresInClass args "1h" /\
  calls (trace (worldOf r)) =
    [CallCreateLink {| OriginalUrl := "https://x.com"; UserTgId := 5; Title := None;
                       CustomAlias := None;
                       ExpiresAt := Some (Now sampleEnv + 3600 * 1000000000) |}] /\
  ~ (forall req, In (CallCreateLink req) (calls (trace (worldOf r))) ->
       ExpiresAt req = None).
Proof.
  split; [apply FindString_url_nonempty; vm_compute; discriminate|].
  split; [reflexivity|]. split; [reflexivity|].
  split; [apply submatch1_key_iff; reflexivity|].
  split; [vm_compute; reflexivity|].
  intros H.
  specialize (H {| OriginalUrl := "https://x.com"; UserTgId := 5; Title := None;
                   CustomAlias := None;
                   ExpiresAt := Some (Now sampleEnv + 3600 * 1000000000) |}).
  assert (Some (Now sampleEnv + 3600 * 1000000000) = @None Z) as Habs; [|discriminate Habs].
  apply H. vm_compute. left. reflexivity.
Qed.

(** In the other direction, a value the pattern does not take leaves the
    request without expiry whatever it stands for: a sign stops the pattern
    at once, a fraction is cut at the dot. *)
Example expiry_sign_and_fraction :
  (forall E : Env,
     ExpiresAt (shortenRequest E 5 "https://x.com" "https://x.com expires_in=-1h") = None) /\
  typedValue "expires_in=" "https://x.com expires_in=-1h" = Some "-1h" /\
  typedValue "expires_in=" "https://x.com expires_in=1.5h" = Some "1.5h" /\
  submatch1 expiresInRegex "https://x.com expires_in=1.5h" = Some "1" /\
  ExpiresAt (shortenRequest sampleEnv 5 "https://x.com" "https://x.com expires_in=1.5h")
    = None.
Proof. repeat split. Qed.

(** The two examples of the specification. *)
Example shorten_full_example :
  calls (trace (worldOf (handleShortenCommand sampleEnv 5
    ("https://x.com title=" +:+ String dquote "T" +:+ String dquote " expires_in=2h alias=z")
    (initial ∅)))) =
  [CallCreateLink {| OriginalUrl := "https://x.com"; UserTgId := 5;
                     Title := Some "T"; CustomAlias := Some "z";
                     ExpiresAt := Some (Now sampleEnv + 2 * 3600 * 1000000000) |}].
Proof. vm_compute. reflexivity. Qed.

Example shorten_bad_expiry_example :
  calls (trace (worldOf (handleShortenCommand sampleEnv 5
    "https://x.com expires_in=notaduration" (initial ∅)))) =
  [CallCreateLink {| OriginalUrl := "https://x.com"; UserTgId := 5;
                     Title := None; CustomAlias := None; ExpiresAt := None |}].
Proof. vm_compute. reflexivity. Qed.

(** The value of the modifier is the run of word bytes after [expires_in=]:
    a fraction is cut at the dot. *)
Example expires_in_value_example :
  submatch1 expiresInRegex "https://x.com expires_in=1.5h" = Some "1".
Proof. vm_compute. reflexivity. Qed.

(** ** Failure messages *)

(** [handleStatsCommand] when the remote call fails. *)
Lemma handleStatsCommand_failure (E : Env) (w : World) (chatID : Z) (alias : string)
    (err : error) :
  TrimSpace alias <> "" ->
  remoteGetLinkStats E (TrimSpace alias) = inr err ->
  let r := handleStatsCommand E chatID alias w in
  panicked r = false /\
  calls (trace (worldOf r)) =
    (calls (trace w) ++ [CallGetLinkStats (TrimSpace alias)])%list /\
  sent (trace (worldOf r)) =
    (sent (trace w) ++
     [plainMessage chatID
        (if hasCode err NotFound then msgLinkNotFound (TrimSpace alias)
         else msgInternalError)])%list.
Proof.
  intros Hne Herr r. subst r. run.
  destruct (decide (TrimSpace alias = "")) as [|_]; [contradiction|].
  rewrite Herr. destruct (hasCode err NotFound);
    cbn [worldOf panicked userStates trace]; repeat split; now traces.
Qed.

(** C8. The texts of the failures. A GetLinkStats call on alias [a] that
    fails with status NotFound is answered [Link with alias 'a' not found.];
    a CreateLink call with custom alias [a] that fails with status
    AlreadyExists is answered [Alias 'a' is already taken. Please choose
    another one.], from [/shorten] as from the alias conversation; every
    other failure of these calls, with another status or with none, is
    answered [Internal error occurred. Please try again later.]. *)
Theorem failure_texts (E : Env) (w : World) (chatID : Z) (err : error) :
  (forall alias,
     TrimSpace alias <> "" ->
     remoteGetLinkStats E (TrimSpace alias) = inr err ->
     let r := handleStatsCommand E chatID alias w in
     calls (trace (worldOf r)) =
       (calls (trace w) ++ [CallGetLinkStats (TrimSpace alias)])%list /\
     sent (trace (worldOf r)) =
       (sent (trace w) ++
        [plainMessage chatID
           match err with
           | StatusError NotFound _ =>
               "Link with alias '" +:+ TrimSpace alias +:+ "' not found."
           | _ => "Internal error occurred. Please try again later."
           end])%list) /\
  (forall args a,
     FindString urlRegex args <> "" ->
     let req := shortenRequest E chatID (FindString urlRegex args) args in
     CustomAlias req = Some a ->
     remoteCreateLink E req = inr err ->
     let r := handleShortenCommand E chatID args w in
     calls (trace (worldOf r)) = (calls (trace w) ++ [CallCreateLink req])%list /\
     sent (trace (worldOf r)) =
       (sent (trace w) ++
        [plainMessage chatID
           match err with
           | StatusError AlreadyExists _ =>
               "Alias '" +:+ a +:+ "' is already taken. Please choose another one."
           | _ => "Internal error occurred. Please try again later."
           end])%list) /\
  (forall text a,
     FindString urlRegex text <> "" ->
     let req := aliasRequest chatID (FindString urlRegex text) a in
     remoteCreateLink E req = inr err ->
     let r := handleURLInputWithAlias E chatID text a w in
     calls (trace (worldOf r)) = (calls (trace w) ++ [CallCreateLink req])%list /\
     sent (trace (worldOf r)) =
       (sent (trace w) ++
        [plainMessage chatID
           match err with
           | StatusError AlreadyExists _ =>
               "Alias '" +:+ a +:+ "' is already taken. Please choose another one."
           | _ => "Internal error occurred. Please try again later."
           end])%list).
Proof.
  split; [|split].
  - intros alias Hne Herr r.
    destruct (handleStatsCommand_failure E w chatID alias err Hne Herr) as (_ & Hc & Hs).
    subst r. split; [exact Hc|]. rewrite Hs. now destruct err as [[] msg|msg].
  - intros args a Hne req Ha Herr r.
    destruct (handleShortenCommand_run E w chatID args) as (_ & _ & Hsome).
    destruct (Hsome Hne) as [Hcalls Hans]. fold req in Hcalls, Hans.
    rewrite Herr, Ha in Hans. split; [exact Hcalls|].
    destruct err as [[] msg|msg]; apply Hans.
  - intros text a Hne req Herr r.
    destruct (handleURLInputWithAlias_run E w chatID text a) as (_ & _ & _ & Hsome).
    destruct (Hsome Hne) as [Hcalls Hsent]. fold req in Hcalls, Hsent.
    rewrite Herr in Hsent. subst r. split; [exact Hcalls|]. rewrite Hsent.
    now destruct err as [[] msg|msg].
Qed.

Lemma failure_texts_witness :
  sent (trace (worldOf (handleStatsCommand refusingEnv 5 "missing" (initial ∅)))) =
    [plainMessage 5 "Link with alias 'missing' not found."] /\
  sent (trace (worldOf (handleShortenCommand refusingEnv 5
                          "https://x.com alias=taken" (initial ∅)))) =
    [plainMessage 5 "Alias 'taken' is already taken. Please choose another one."] /\
  sent (trace (worldOf (handleURLInputWithAlias
                          (failingEnv (PlainError "connection reset")) 5
                          "https://x.com" "taken" (initial ∅)))) =
    [plainMessage 5 "Internal error occurred. Please try again later."] /\
  (let E := failingEnv (StatusError Unavailable "down") in
   sent (trace (worldOf (handleStatsCommand E 5 "missing" (initial ∅)))) =
     [plainMessage 5 "Internal error occurred. Please try again later."] /\
   sent (trace (worldOf (handleShortenCommand E 5 "https://x.com alias=taken"
                           (initial ∅)))) =
     [plainMessage 5 "Internal error occurred. Please try again later."] /\
   sent (trace (worldOf (handleURLInputWithAlias E 5 "https://x.com" "taken"
                           (initial ∅)))) =
     [plainMessage 5 "Internal error occurred. Please try again later."]) /\
  sent (trace (worldOf (handleStatsCommand
                          (failingEnv (StatusError AlreadyExists "alias exists")) 5
                          "missing" (initial ∅)))) =
    [plainMessage 5 "Internal error occurred. Please try again later."] /\
  sent (trace (worldOf (handleShortenCommand
                          (failingEnv (StatusError NotFound "no such link")) 5
                          "https://x.com alias=taken" (initial ∅)))) =
    [plainMessage 5 "Internal error occurred. Please try again later."].
Proof.
  destruct (failure_texts refusingEnv (initial ∅) 5
              (StatusError NotFound "no such link")) as (H1 & _ & _).
  destruct (failure_texts refusingEnv (initial ∅) 5
              (StatusError AlreadyExists "alias exists")) as (_ & H2 & _).
  destruct (failure_texts (failingEnv (PlainError "connection reset")) (initial ∅) 5
              (PlainError "connection reset")) as (_ & _ & H3).
  destruct (failure_texts (failingEnv (StatusError Unavailable "down")) (initial ∅) 5
              (StatusError Unavailable "down")) as (H4 & H5 & H6).
  destruct (failure_texts (failingEnv (StatusError AlreadyExists "alias exists"))
              (initial ∅) 5 (StatusError AlreadyExists "alias exists")) as (H7 & _ & _).
  destruct (failure_texts (failingEnv (StatusError NotFound "no such link"))
              (initial ∅) 5 (StatusError NotFound "no such link")) as (_ & H8 & _).
  split; [|split; [|split; [|split; [split; [|split]|split]]]].
  - apply (H1 "missing"); [vm_compute; discriminate | reflexivity].
  - apply (H2 "https://x.com alias=taken" "taken");
      [vm_compute; discriminate | reflexivity | reflexivity].
  - apply (H3 "https://x.com" "taken"); [vm_compute; discriminate | reflexivity].
  - apply (H4 "missing"); [vm_compute; discriminate | reflexivity].
  - apply (H5 "https://x.com alias=taken" "taken");
      [vm_compute; discriminate | reflexivity | reflexivity].
  - apply (H6 "https://x.com" "taken"); [vm_compute; discriminate | reflexivity].
  - apply (H7 "missing"); [vm_compute; discriminate | reflexivity].
  - apply (H8 "https://x.com alias=taken" "taken");
      [vm_compute; discriminate | reflexivity | reflexivity].
Defined.

(** C10. [/shorten] with a URL, answered AlreadyExists by the remote
    service: without an [alias=] modifier in the argument text the handler
    dereferences the nil custom alias and panics, sending nothing; with one,
    it answers that the alias is taken. *)
Theorem shorten_conflict_needs_alias
    (E : Env) (w : World) (chatID : Z) (args : string) (err : error) :
  containsURL args ->
  remoteCreateLink E (shortenRequest E chatID (FindString urlRegex args) args)
    = inr err ->
  hasCode err AlreadyExists = true ->
  let r := handleShortenCommand E chatID args w in
  (~ hasModifier "alias=" aliasClass args ->
     CustomAlias (shortenRequest E chatID (FindString urlRegex args) args) = None /\
     panicked r = true /\ sent (trace (worldOf r)) = sent (trace w)) /\
  (forall a, firstModifier "alias=" aliasClass args a ->
     CustomAlias (shortenRequest E chatID (FindString urlRegex args) args) = Some a /\
     panicked r = false /\
     sent (trace (worldOf r)) =
       (sent (trace w) ++ [plainMessage chatID (msgAliasTaken a)])%list).
Proof.
  intros Hc Herr Hcode r.
  pose proof (proj2 (FindString_url_nonempty args) Hc) as Hne.
  destruct (handleShortenCommand_run E w chatID args) as (_ & _ & Hsome).
  destruct (Hsome Hne) as [_ Hans]. rewrite Herr, Hcode in Hans.
  cbn [CustomAlias shortenRequest] in Hans |- *.
  split.
  - intros Hno. apply submatch1_key_none in Hno. fold aliasRegex in Hno.
    rewrite Hno in Hans |- *. split; [reflexivity | exact Hans].
  - intros a Ha. apply submatch1_key_iff in Ha. fold aliasRegex in Ha.
    rewrite Ha in Hans |- *. split; [reflexivity | exact Hans].
Qed.

Lemma shorten_conflict_needs_alias_witness :
  let args := "https://x.com" in
  let w := initial ∅ in
  let r := handleShortenCommand refusingEnv 5 args w in
  containsURL args /\
  ~ hasModifier "alias=" aliasClass args /\
  CustomAlias (shortenRequest refusingEnv 5 (FindString urlRegex args) args) = None /\
  panicked r = true /\ sent (trace (worldOf r)) = sent (trace w).
Proof.
  assert (containsURL "https://x.com") as Hc.
  { apply FindString_url_nonempty. vm_compute. discriminate. }
  assert (~ hasModifier "alias=" aliasClass "https://x.com") as Hno.
  { apply submatch1_key_none. reflexivity. }
  split; [exact Hc|]. split; [exact Hno|].
  apply (shorten_conflict_needs_alias refusingEnv (initial ∅) 5 "https://x.com"
           (StatusError AlreadyExists "alias exists")).
  - exact Hc.
  - reflexivity.
  - reflexivity.
  - exact Hno.
Defined.

(** ** The alias conversation, first step *)

(** What [handleCustomAliasInput] does, by the trimmed text. *)
Lemma handleCustomAliasInput_run (E : Env) (w : World) (userID : Z) (text : string) :
  let a := TrimSpace text in
  let r := handleCustomAliasInput E userID text w in
  panicked r = false /\
  calls (trace (worldOf r)) = calls (trace w) /\
  (validAlias a = true ->
     userStates (worldOf r) =
       <[userID := {| State := StateWaitingForURL; StateAlias := a |}]> (userStates w) /\
     sent (trace (worldOf r)) =
       (sent (trace w) ++ [plainMessage userID (msgSendUrlWithAlias a)])%list) /\
  (validAlias a = false ->
     userStates (worldOf r) = userStates w /\
     sent (trace (worldOf r)) =
       (sent (trace w) ++ [plainMessage userID msgInvalidAliasFormat])%list).
Proof.
  intros a r. subst a r. run. rewrite MatchString_customAlias.
  destruct (validAlias (TrimSpace text)); cbn [negb worldOf panicked userStates trace].
  - split; [reflexivity|]. split; [now traces|].
    split; [intros _; split; [reflexivity | now traces] | discriminate].
  - split; [reflexivity|]. split; [now traces|].
    split; [discriminate | intros _; split; [reflexivity | now traces]].
Qed.

(** C6 (as the code has it). A text message in state [StateWaitingForAlias]:
    the text is trimmed of leading and trailing white space first. If the
    trimmed text is a valid alias (1 to 20 letters, digits or hyphens), the
    state becomes [StateWaitingForURL] carrying the trimmed text, which is
    the text itself when the text is already a valid alias, and the prompt
    for the URL is sent; otherwise the validation failure is sent and the
    state store is left as it was. No call to the remote service is made in
    either case. *)
Theorem awaiting_alias_validates_trimmed
    (E : Env) (w : World) (userID : Z) (text alias0 : string) :
  userStates w !! userID =
    Some {| State := StateWaitingForAlias; StateAlias := alias0 |} ->
  let a := TrimSpace text in
  let r := handleMessage E userID text w in
  panicked r = false /\
  calls (trace (worldOf r)) = calls (trace w) /\
  (MatchString customAliasRegex a = true ->
     stateOf (worldOf r) userID =
       {| State := StateWaitingForURL; StateAlias := a |} /\
     sent (trace (worldOf r)) =
       (sent (trace w) ++ [plainMessage userID (msgSendUrlWithAlias a)])%list) /\
  (MatchString customAliasRegex a = false ->
     userStates (worldOf r) = userStates w /\
     sent (trace (worldOf r)) =
       (sent (trace w) ++ [plainMessage userID msgInvalidAliasFormat])%list) /\
  (MatchString customAliasRegex text = true -> a = text) /\
  MatchString customAliasRegex a = validAlias a.
Proof.
  intros Hst a r. subst a r. rewrite (handleMessage_waiting_alias _ _ _ _ _ Hst).
  destruct (handleCustomAliasInput_run E w userID text) as (Hp & Hc & Hok & Hbad).
  rewrite !MatchString_customAlias.
  split; [exact Hp|]. split; [exact Hc|]. split; [|split; [exact Hbad|split]].
  - intros Hv. destruct (Hok Hv) as [Hu Hs]. split; [|exact Hs].
    unfold stateOf. rewrite Hu, lookup_insert_eq. reflexivity.
  - intros Hv. apply TrimSpace_alias. now apply validAlias_all.
  - reflexivity.
Qed.

Lemma awaiting_alias_validates_trimmed_witness :
  let w := initial {[ 5 := {| State := StateWaitingForAlias; StateAlias := "" |} ]} in
  let a := TrimSpace " my-link " in
  let r := handleMessage sampleEnv 5 " my-link " w in
  userStates w !! 5 = Some {| State := StateWaitingForAlias; StateAlias := "" |} /\
  panicked r = false /\
  calls (trace (worldOf r)) = calls (trace w) /\
  (MatchString customAliasRegex a = true ->
     stateOf (worldOf r) 5 = {| State := StateWaitingForURL; StateAlias := a |} /\
     sent (trace (worldOf r)) =
       (sent (trace w) ++ [plainMessage 5 (msgSendUrlWithAlias a)])%list) /\
  (MatchString customAliasRegex a = false ->
     userStates (worldOf r) = userStates w /\
     sent (trace (worldOf r)) =
       (sent (trace w) ++ [plainMessage 5 msgInvalidAliasFormat])%list) /\
  (MatchString customAliasRegex " my-link " = true -> a = " my-link ") /\
  MatchString customAliasRegex a = validAlias a.
Proof.
  split; [reflexivity|].
  apply (awaiting_alias_validates_trimmed sampleEnv
           (initial {[ 5 := {| State := StateWaitingForAlias; StateAlias := "" |} ]})
           5 " my-link " "").
  reflexivity.
Defined.

(** C6 as stated fails: the text [ foo], with a leading space, does not match
    the alias pattern, yet no validation failure is sent and the state
    changes: the user is now asked for the URL of alias [foo]. *)
Lemma awaiting_alias_untrimmed_counterexample :
  let w := initial {[ 5 := {| State := StateWaitingForAlias; StateAlias := "" |} ]} in
  let r := handleMessage sampleEnv 5 " foo" w in
  MatchString customAliasRegex " foo" = false /\
  ~ (userStates (worldOf r) = userStates w /\
     sent (trace (worldOf r)) = [plainMessage 5 msgInvalidAliasFormat]) /\
  stateOf (worldOf r) 5 = {| State := StateWaitingForURL; StateAlias := "foo" |}.
Proof.
  split; [vm_compute; reflexivity|]. split; [|vm_compute; reflexivity].
  intros [_ Hs]. vm_compute in Hs. discriminate Hs.
Qed.

(** ** Button presses *)

(** The alias-scoped handlers call the remote service unless the alias is
    blank. *)
Lemma handleStatsCommand_calls (E : Env) (w : World) (chatID : Z) (alias : string) :
  calls (trace (worldOf (handleStatsCommand E chatID alias w))) =
  (calls (trace w) ++
   if decide (TrimSpace alias = "") then []
   else [CallGetLinkStats (TrimSpace alias)])%list.
Proof.
  run. destruct (decide (TrimSpace alias = "")); [now traces|].
  destruct (remoteGetLinkStats E _) as [res|err];
    [|destruct (hasCode err NotFound)]; now traces.
Qed.

Lemma handleDeleteCommand_calls (E : Env) (w : World) (chatID : Z) (alias : string) :
  calls (trace (worldOf (handleDeleteCommand E chatID alias w))) =
  (calls (trace w) ++
   if decide (TrimSpace alias = "") then []
   else [CallDeleteLink (TrimSpace alias)])%list.
Proof.
  run. destruct (decide (TrimSpace alias = "")); [now traces|].
  destruct (remoteDeleteLink E _) as [err|];
    [destruct (hasCode err NotFound)|]; now traces.
Qed.

Lemma handleMyLinksCommand_calls (E : Env) (w : World) (chatID : Z) :
  calls (trace (worldOf (handleMyLinksCommand E chatID w))) =
  (calls (trace w) ++ [CallListUserLinks chatID])%list.
Proof.
  run. destruct (remoteListUserLinks E _) as [links|err]; [|now traces].
  destruct (decide (length links = 0%nat)); now traces.
Qed.

(** [handleCallbackQuery] answers the callback, then routes the token. *)
Lemma handleCallbackQuery_eq (E : Env) (id : string) (chatID : Z) (data : string)
    (w : World) :
  handleCallbackQuery E id (Some chatID) data w =
  routeCallback E chatID data (answerWorld E id w).
Proof.
  unfold handleCallbackQuery, routeCallback, answerWorld.
  unfold mbind at 1 2, M_bind at 1 2, emit at 1. cbn [userStates trace].
  destruct (apiRequest E id); unfold emit, mret, M_ret;
    cbn [userStates trace]; rewrite <- ?app_assoc;
    repeat (destruct (decide _); [reflexivity|]);
    repeat (destruct (HasPrefix _ _); [reflexivity|]);
    repeat (destruct (decide _); [reflexivity|]); reflexivity.
Qed.

(** Without its message, every case of the switch stops at the nil
    dereference, right after the callback was answered. *)
Lemma handleCallbackQuery_nil (E : Env) (id : string) (data : string) (w : World) :
  handleCallbackQuery E id None data w =
  if knownToken data then Panic (answerWorld E id w)
  else Done None (answerWorld E id w).
Proof.
  assert (forall w', (if decide (data = callbackCreateLink) then
                        chatID ← deref None;
                        sendMessageWithKeyboard E chatID "Send a URL to create a short link:"
                          createCreateLinkKeyboard
                      else if decide (data = callbackMyLinks) then
                        chatID ← deref None; handleMyLinksCommand E chatID
                      else if decide (data = callbackHelp) then
                        chatID ← deref None;
                        sendMessageWithKeyboard E chatID msgHelp createMainKeyboard
                      else if HasPrefix data "stats_" then
                        chatID ← deref None;
                        handleStatsCommand E chatID (TrimPrefix data "stats_")
                      else if HasPrefix data "delete_" then
                        chatID ← deref None;
                        handleDeleteCommand E chatID (TrimPrefix data "delete_")
                      else if decide (data = callbackCustomAlias) then
                        chatID ← deref None;
                        setUserState chatID StateWaitingForAlias "";;
                        sendMessage E chatID msgSendCustomAlias false
                      else mret None) w' =
                     if knownToken data then Panic w' else Done None w') as Hswitch.
  { intros w'. unfold knownToken.
    destruct (decide (data = callbackCreateLink)) as [->|H1]; [reflexivity|].
    destruct (decide (data = callbackMyLinks)) as [->|H2]; [reflexivity|].
    destruct (decide (data = callbackHelp)) as [->|H3]; [reflexivity|].
    rewrite (bool_decide_eq_false_2 (data = "create_link")) by exact H1.
    rewrite (bool_decide_eq_false_2 (data = "my_links")) by exact H2.
    rewrite (bool_decide_eq_false_2 (data = "help")) by exact H3.
    cbn [orb].
    destruct (HasPrefix data "stats_"); [now rewrite orb_true_r|].
    destruct (HasPrefix data "delete_"); [now rewrite orb_true_r|].
    rewrite !orb_false_r.
    destruct (decide (data = callbackCustomAlias)) as [->|H4]; [reflexivity|].
    now rewrite (bool_decide_eq_false_2 (data = "custom_alias")) by exact H4. }
  unfold handleCallbackQuery, answerWorld.
  unfold mbind at 1 2, M_bind at 1 2, emit at 1. cbn [userStates trace].
  destruct (apiRequest E id); unfold emit, mret, M_ret;
    cbn [userStates trace]; rewrite <- ?app_assoc; apply Hswitch.
Qed.

Lemma answerWorld_facts (E : Env) (id : string) (w : World) :
  userStates (answerWorld E id w) = userStates w /\
  calls (trace (answerWorld E id w)) = calls (trace w) /\
  sent (trace (answerWorld E id w)) = sent (trace w).
Proof.
  unfold answerWorld. cbn [userStates trace].
  destruct (apiRequest E id); repeat split; now traces.
Qed.

Lemma routeCallback_calls (E : Env) (w : World) (chatID : Z) (data : string) :
  calls (trace (worldOf (routeCallback E chatID data w))) =
  (calls (trace w) ++ buttonCalls chatID data)%list.
Proof.
  unfold routeCallback, buttonCalls.
  destruct (decide (data = callbackCreateLink)) as [->|H1].
  { run. now traces. }
  destruct (decide (data = callbackMyLinks)) as [->|H2].
  { now rewrite handleMyLinksCommand_calls. }
  unfold callbackMyLinks in H2.
  destruct (decide (data = "my_links")) as [|_]; [contradiction|].
  destruct (decide (data = callbackHelp)) as [->|H3].
  { run. now traces. }
  destruct (HasPrefix data "stats_") eqn:Hs.
  { now rewrite handleStatsCommand_calls. }
  destruct (HasPrefix data "delete_") eqn:Hd.
  { now rewrite handleDeleteCommand_calls. }
  destruct (decide (data = callbackCustomAlias)) as [->|H4].
  { run. now traces. }
  run. now rewrite app_nil_r.
Qed.

Lemma handleCallbackQuery_calls (E : Env) (w : World) (id : string) (chatID : Z)
    (data : string) :
  calls (trace (worldOf (handleCallbackQuery E id (Some chatID) data w))) =
  (calls (trace w) ++ buttonCalls chatID data)%list.
Proof.
  rewrite handleCallbackQuery_eq, routeCallback_calls.
  now destruct (answerWorld_facts E id w) as (_ & -> & _).
Qed.

Lemma HasPrefix_neq (data pre other : string) :
  HasPrefix data pre = true -> HasPrefix other pre = false -> data <> other.
Proof. intros H1 H2 ->. congruence. Qed.

(** C2 (as the code has it). A button press, in whatever conversation state,
    leads to a call to the remote service only for the token [my_links]
    (ListUserLinks) and for tokens that start with [stats_] (GetLinkStats)
    or [delete_] (DeleteLink) followed by a non-blank alias; [create_link],
    [help], [custom_alias], [cancel] and every other token lead to none. A
    press whose callback carries no message leads to no call at all. *)
Theorem button_press_calls
    (E : Env) (w : World) (id : string) (chatID : Z) (data : string) :
  let r := handleCallbackQuery E id (Some chatID) data w in
  let new := buttonCalls chatID data in
  calls (trace (worldOf r)) = (calls (trace w) ++ new)%list /\
  calls (trace (worldOf (handleCallbackQuery E id None data w))) = calls (trace w) /\
  (data = "my_links" -> new = [CallListUserLinks chatID]) /\
  (HasPrefix data "stats_" = true ->
     new = if decide (TrimSpace (TrimPrefix data "stats_") = "") then []
           else [CallGetLinkStats (TrimSpace (TrimPrefix data "stats_"))]) /\
  (HasPrefix data "delete_" = true ->
     new = if decide (TrimSpace (TrimPrefix data "delete_") = "") then []
           else [CallDeleteLink (TrimSpace (TrimPrefix data "delete_"))]) /\
  (data <> "my_links" -> HasPrefix data "stats_" = false ->
     HasPrefix data "delete_" = false -> new = []) /\
  (data = "create_link" \/ data = "help" \/ data = "custom_alias" \/
   data = "cancel" -> new = []).
Proof.
  intros r new. subst r new. split; [apply handleCallbackQuery_calls|].
  split.
  { rewrite handleCallbackQuery_nil.
    destruct (knownToken data); apply (answerWorld_facts E id w). }
  unfold buttonCalls. split; [|split; [|split; [|split]]].
  - intros ->. reflexivity.
  - intros Hs.
    destruct (decide (data = "my_links")) as [Heq|_].
    { exfalso. revert Heq. now apply (HasPrefix_neq _ "stats_"). }
    now rewrite Hs.
  - intros Hd.
    destruct (decide (data = "my_links")) as [Heq|_].
    { exfalso. revert Heq. now apply (HasPrefix_neq _ "delete_"). }
    destruct (HasPrefix data "stats_") eqn:Hs; [|now rewrite Hd].
    exfalso. apply prefix_split in Hs. apply prefix_split in Hd.
    rewrite Hs in Hd. discriminate Hd.
  - intros Hm Hs Hd. destruct (decide (data = "my_links")); [contradiction|].
    now rewrite Hs, Hd.
  - intros [-> | [-> | [-> | ->]]]; reflexivity.
Qed.

(** C2 as stated fails: the token [my_links] is none of the three kinds the
    claim allows, and pressing it calls the remote service. *)
Lemma my_links_button_counterexample :
  let data := "my_links" in
  let r := handleCallbackQuery sampleEnv "q1" (Some 5) data (initial ∅) in
  ~ (calls (trace (worldOf r)) <> [] ->
       HasPrefix data "stats_" = true \/ HasPrefix data "delete_" = true \/
       data = "create_link") /\
  calls (trace (worldOf r)) = [CallListUserLinks 5].
Proof.
  split; [|vm_compute; reflexivity].
  intros H. destruct H as [H | [H | H]]; try discriminate H.
  vm_compute. discriminate.
Qed.

(** ** The list of links *)

Lemma length_takeN (n : nat) (s : string) :
  String.length (takeN n s) = Nat.min n (String.length s).
Proof.
  revert s; induction n as [|n IH]; intros [|c s]; simpl; try reflexivity.
  now rewrite IH.
Qed.

Lemma listTitle_eq (link : Link) :
  listTitle link =
  if (50 <? String.length (displayTitle link))%nat
  then takeN 47 (displayTitle link) +:+ "..."
  else displayTitle link.
Proof.
  unfold listTitle, displayTitle.
  destruct (LinkTitle link) as [t|]; [destruct (decide (t = ""))|]; reflexivity.
Qed.

Lemma singleByte_characters (s : string) :
  singleByte s = true ->
  characters s = String.length s /\ forall n, firstCharacters n s = takeN n s.
Proof.
  unfold singleByte. induction s as [|c s IH]; cbn [allb characters String.length].
  - intros _. split; [reflexivity|]. now intros [|n].
  - intros Hall. apply andb_prop in Hall as [Hc Hs].
    destruct (IH Hs) as [IH1 IH2].
    assert (isContinuation c = false) as Hk.
    { unfold isContinuation, inRange. apply andb_false_iff. left.
      apply N.leb_gt. apply N.ltb_lt in Hc. exact Hc. }
    split.
    + rewrite Hk, IH1. reflexivity.
    + intros [|n]; cbn [firstCharacters takeN]; rewrite Hk; [reflexivity|].
      now rewrite IH2.
Qed.

(** C3 (threshold as the code has it). In the list of links a display title
    of single-byte characters that is longer than 50 characters is shown as
    its first 47 characters followed by [...], 50 characters in all; one of
    50 characters or fewer is shown unchanged. The text of the list is the
    header followed by one entry per link, in the order of the answer, each
    with its number, this title and its short URL. *)
Theorem list_title_cut_above_50 (E : Env) (w : World) (chatID : Z) (link : Link) :
  let t := displayTitle link in
  (singleByte t = true ->
     ((50 < characters t)%nat ->
        listTitle link = firstCharacters 47 t +:+ "..." /\
        characters (listTitle link) = 50%nat) /\
     ((characters t <= 50)%nat -> listTitle link = t)) /\
  (forall links, remoteListUserLinks E chatID = inl (link :: links) ->
     exists keyboard,
       sent (trace (worldOf (handleMyLinksCommand E chatID w))) =
       (sent (trace w) ++
        [{| ChatID := chatID;
            Text := "Your Links:" +:+
                    String.concat ""
                      (imap (fun i l =>
                               nl +:+ nl +:+ itoa (Z.of_nat i + 1) +:+ ". " +:+
                               listTitle l +:+ nl +:+ "   " +:+ BaseURL E +:+
                               "/" +:+ LinkAlias l)
                            (link :: links));
            Markdown := false;
            ReplyMarkup := Some keyboard |}])%list).
Proof.
  intros t. subst t. split.
  - intros Hsb. destruct (singleByte_characters _ Hsb) as [Hch Hfirst].
    rewrite Hch, Hfirst, listTitle_eq. split.
    + intros Hlen. apply Nat.ltb_lt in Hlen as Hb. rewrite Hb. split; [reflexivity|].
      assert (singleByte (takeN 47 (displayTitle link) +:+ "...") = true) as Hsb'.
      { clear -Hsb. unfold singleByte in *. revert Hsb.
        generalize (displayTitle link) as s. generalize 47%nat as n.
        induction n as [|n IH]; intros [|c s]; try reflexivity.
        cbn [allb takeN]. intros H. apply andb_prop in H as [Hc Hs].
        change (String c (takeN n s) +:+ "...") with (String c (takeN n s +:+ "...")).
        cbn [allb]. rewrite Hc. now apply IH. }
      rewrite (proj1 (singleByte_characters _ Hsb')).
      rewrite length_app, length_takeN. simpl String.length. lia.
    + intros Hlen. apply Nat.ltb_ge in Hlen. now rewrite Hlen.
  - intros links Hans. run. rewrite Hans.
    destruct (decide (length (link :: links) = 0%nat)) as [Heq|_]; [discriminate Heq|].
    eexists. traces. reflexivity.
Qed.

Lemma list_title_cut_above_50_witness :
  let link := {| LinkAlias := "abc"; LinkTitle := None;
                 LinkOriginalUrl :=
                   "https://example.com/a/very/long/path/that/goes/on/and/on" |} in
  singleByte (displayTitle link) = true /\
  (50 < characters (displayTitle link))%nat /\
  listTitle link = "https://example.com/a/very/long/path/that/goes/..." /\
  characters (listTitle link) = 50%nat.
Proof.
  assert (singleByte "https://example.com/a/very/long/path/that/goes/on/and/on" = true)
    as Hsb by reflexivity.
  split; [exact Hsb|]. split; [vm_compute; lia|].
  destruct (list_title_cut_above_50 sampleEnv (initial ∅) 5
              {| LinkAlias := "abc"; LinkTitle := None;
                 LinkOriginalUrl :=
                   "https://example.com/a/very/long/path/that/goes/on/and/on" |})
    as [H _].
  destruct (H Hsb) as [Hcut _]. apply Hcut. vm_compute. lia.
Defined.

(** Outside single-byte text the code counts and cuts bytes, not characters:
    a title of 26 Cyrillic characters, 52 bytes, is cut although it has fewer
    than 50 characters, and the cut falls inside its 24th character. *)
Example list_title_cut_inside_character :
  let t := "ЖЖЖЖЖЖЖЖЖЖЖЖЖЖЖЖЖЖЖЖЖЖЖЖЖЖ" in
  let link := {| LinkAlias := "abc"; LinkOriginalUrl := "https://example.com";
                 LinkTitle := Some t |} in
  characters t = 26%nat /\
  String.length t = 52%nat /\
  listTitle link = takeN 47 t +:+ "..." /\
  listTitle link <> t /\
  takeN 47 t = firstCharacters 23 t +:+ bytes [208]%nat.
Proof. vm_compute. repeat split. discriminate. Qed.

(** C3 as stated fails: a title of 48 characters, of one byte each, is
    longer than 47 and is shown unchanged. *)
Lemma list_title_48_counterexample :
  let link := {| LinkAlias := "abc"; LinkOriginalUrl := "https://example.com";
                 LinkTitle := Some "123456789012345678901234567890123456789012345678" |} in
  (47 < String.length (displayTitle link))%nat /\
  listTitle link <> takeN 47 (displayTitle link) +:+ "..." /\
  listTitle link = displayTitle link /\
  singleByte (displayTitle link) = true /\
  characters (displayTitle link) = 48%nat /\
  listTitle link <> firstCharacters 47 (displayTitle link) +:+ "...".
Proof.
  split; [vm_compute; lia|]. split; [vm_compute; discriminate|].
  split; [reflexivity|]. split; [reflexivity|]. split; [reflexivity|].
  vm_compute. discriminate.
Qed.

(** ** The alias of [/shorten] *)

(** All that [/shorten] guarantees of the alias it sends: it is the value of
    the leftmost [alias=] modifier, a non-empty run of word bytes and
    hyphens of any length. *)
Lemma shorten_alias_shape (E : Env) (chatID : Z) (url args a : string) :
  CustomAlias (shortenRequest E chatID url args) = Some a ->
  firstModifier "alias=" aliasClass args a /\ a <> "" /\ allb aliasClass a = true.
Proof.
  cbn [CustomAlias shortenRequest]. intros Ha.
  apply submatch1_key_iff in Ha. split; [exact Ha|].
  destruct Ha as (n & (pre & post & _ & _ & Hne & Hall & _) & _). now split.
Qed.

(** C4 fails on the code: [aliasRegex] takes any run of word bytes and
    hyphens, so [/shorten] sends aliases with an underscore, and aliases of
    more than 20 bytes, which the alias conversation rejects. *)
Theorem shorten_alias_not_validated :
  calls (trace (worldOf (handleShortenCommand sampleEnv 5
                           "https://x.com alias=my_alias" (initial ∅)))) =
    [CallCreateLink {| OriginalUrl := "https://x.com"; UserTgId := 5; Title := None;
                       CustomAlias := Some "my_alias"; ExpiresAt := None |}] /\
  validAlias "my_alias" = false /\
  MatchString customAliasRegex "my_alias" = false /\
  calls (trace (worldOf (handleShortenCommand sampleEnv 5
                           "https://x.com alias=abcdefghijklmnopqrstuvwxyz" (initial ∅)))) =
    [CallCreateLink {| OriginalUrl := "https://x.com"; UserTgId := 5; Title := None;
                       CustomAlias := Some "abcdefghijklmnopqrstuvwxyz";
                       ExpiresAt := None |}] /\
  validAlias "abcdefghijklmnopqrstuvwxyz" = false.
Proof. vm_compute. repeat split. Qed.

(** The same text is refused by the alias conversation. *)
Example conversation_rejects_underscore :
  sent (trace (worldOf (handleMessage sampleEnv 5 "my_alias"
    (initial {[ 5 := {| State := StateWaitingForAlias; StateAlias := "" |} ]})))) =
  [plainMessage 5 msgInvalidAliasFormat].
Proof. vm_compute. reflexivity. Qed.

(** ** The statistics text *)

(** C9 fails on the code: the lines of the click breakdown follow the order
    in which the range over the map visits its entries. Two orders of the
    same two entries give two different texts for the same answer of the
    remote service. *)
Theorem stats_text_follows_range_order :
  let m := ClicksByDevice sampleStats in
  (forall m' : gmap string Z, rangeOrder sampleEnv m' ≡ₚ map_to_list m') /\
  (forall m' : gmap string Z, rangeOrder reversedEnv m' ≡ₚ map_to_list m') /\
  remoteGetLinkStats sampleEnv "abc" = remoteGetLinkStats reversedEnv "abc" /\
  statsText sampleEnv "abc" sampleStats (rangeOrder sampleEnv m) <>
  statsText reversedEnv "abc" sampleStats (rangeOrder reversedEnv m) /\
  sent (trace (worldOf (handleStatsCommand sampleEnv 5 "abc" (initial ∅)))) <>
  sent (trace (worldOf (handleStatsCommand reversedEnv 5 "abc" (initial ∅)))).
Proof.
  split; [reflexivity|].
  split; [intros m'; cbn [rangeOrder reversedEnv]; symmetry; apply Permutation_rev|].
  split; [reflexivity|]. split; vm_compute; discriminate.
Qed.


(** * Further properties of the handlers *)

(** ** Handlers that leave the state store alone *)

Lemma storeFree_ret {A : Type} (a : A) : storeFree (mret a : M A).
Proof. intros [us tr]. unfold mret, M_ret. cbn. now rewrite app_nil_r. Qed.

Lemma storeFree_emit (e : Event) : storeFree (emit e).
Proof. intros w. reflexivity. Qed.

Lemma storeFree_panic {A : Type} : storeFree (@panic A).
Proof. intros [us tr]. unfold panic. cbn. now rewrite app_nil_r. Qed.

Lemma storeFree_empty {A : Type} (m : M A) :
  storeFree m -> userStates (worldOf (m (initial ∅))) = ∅.
Proof.
  intros H. specialize (H (initial ∅)).
  destruct (m (initial ∅)) as [a w0|w0]; injection H as ->; reflexivity.
Qed.

Lemma storeFree_bind {A B : Type} (m : M A) (f : A -> M B) :
  storeFree m -> (forall a, storeFree (f a)) -> storeFree (m ≫= f).
Proof.
  intros Hm Hf w. unfold mbind, M_bind.
  pose proof (storeFree_empty m Hm) as He.
  rewrite (Hm w). destruct (m (initial ∅)) as [a w0|w0]; [|reflexivity].
  cbn [worldOf] in He.
  rewrite (Hf a w0), (Hf a _). cbn [userStates trace].
  destruct (f a (initial ∅)) as [b w1|w1]; cbn [trace userStates];
    now rewrite <- app_assoc.
Qed.

Lemma storeFree_world {A : Type} (m : M A) (w : World) :
  storeFree m ->
  userStates (worldOf (m w)) = userStates w /\
  trace (worldOf (m w)) = (trace w ++ trace (worldOf (m (initial ∅))))%list /\
  panicked (m w) = panicked (m (initial ∅)).
Proof.
  intros H. rewrite (H w). destruct (m (initial ∅)); repeat split.
Qed.

Ltac store_free :=
  repeat first
    [ apply storeFree_ret | apply storeFree_emit | apply storeFree_panic
    | apply storeFree_bind; [|intros ?]
    | match goal with
      | |- storeFree (match ?x with _ => _ end) => destruct x
      | |- storeFree (if ?x then _ else _) => destruct x
      end ].

Lemma storeFree_sendMessage E chatID text md : storeFree (sendMessage E chatID text md).
Proof. unfold sendMessage, send. store_free. Qed.

Lemma storeFree_sendMessageWithKeyboard E chatID text k :
  storeFree (sendMessageWithKeyboard E chatID text k).
Proof. unfold sendMessageWithKeyboard, send. store_free. Qed.

Lemma storeFree_handleShortenCommand E chatID args :
  storeFree (handleShortenCommand E chatID args).
Proof.
  unfold handleShortenCommand, CreateLink, deref.
  destruct (decide _); [apply storeFree_sendMessage|].
  store_free; first [apply storeFree_sendMessage | apply storeFree_sendMessageWithKeyboard].
Qed.

Lemma storeFree_handleStatsCommand E chatID alias :
  storeFree (handleStatsCommand E chatID alias).
Proof.
  unfold handleStatsCommand, GetLinkStats.
  destruct (decide _); [apply storeFree_sendMessage|].
  store_free; first [apply storeFree_sendMessage | apply storeFree_sendMessageWithKeyboard].
Qed.

Lemma storeFree_handleDeleteCommand E chatID alias :
  storeFree (handleDeleteCommand E chatID alias).
Proof.
  unfold handleDeleteCommand, DeleteLink.
  destruct (decide _); [apply storeFree_sendMessage|].
  store_free; first [apply storeFree_sendMessage | apply storeFree_sendMessageWithKeyboard].
Qed.

Lemma storeFree_handleMyLinksCommand E chatID :
  storeFree (handleMyLinksCommand E chatID).
Proof.
  unfold handleMyLinksCommand, ListUserLinks.
  store_free; first [apply storeFree_sendMessage | apply storeFree_sendMessageWithKeyboard].
Qed.

Lemma storeFree_handleCommand E chatID name args :
  storeFree (handleCommand E chatID name args).
Proof.
  unfold handleCommand.
  repeat (destruct (decide _));
    first [ apply storeFree_sendMessage | apply storeFree_sendMessageWithKeyboard
          | apply storeFree_handleShortenCommand | apply storeFree_handleStatsCommand
          | apply storeFree_handleDeleteCommand | apply storeFree_handleMyLinksCommand ].
Qed.

(** ** One answer for one event *)

Ltac count := traces; rewrite ?List.length_app; cbn [length]; try lia.

Lemma answersOnce_sendMessage E chatID text md w :
  answersOnce (sendMessage E chatID text md) w.
Proof. unfold answersOnce. run. split; count. Qed.

Lemma answersOnce_sendMessageWithKeyboard E chatID text k w :
  answersOnce (sendMessageWithKeyboard E chatID text k) w.
Proof. unfold answersOnce. run. split; count. Qed.

Lemma answersOnce_handleShortenCommand E chatID args w :
  answersOnce (handleShortenCommand E chatID args) w.
Proof.
  unfold answersOnce. run.
  destruct (decide _); [split; count|].
  destruct (remoteCreateLink E _) as [res|err];
    [|destruct (hasCode err AlreadyExists); [destruct (CustomAlias _)|]];
    cbn [worldOf panicked userStates trace]; split; count.
Qed.

Lemma answersOnce_handleStatsCommand E chatID alias w :
  answersOnce (handleStatsCommand E chatID alias) w.
Proof.
  unfold answersOnce. run.
  destruct (decide _); [split; count|].
  destruct (remoteGetLinkStats E _) as [res|err];
    [|destruct (hasCode err NotFound)];
    cbn [worldOf panicked userStates trace]; split; count.
Qed.

Lemma answersOnce_handleDeleteCommand E chatID alias w :
  answersOnce (handleDeleteCommand E chatID alias) w.
Proof.
  unfold answersOnce. run.
  destruct (decide _); [split; count|].
  destruct (remoteDeleteLink E _) as [err|];
    [destruct (hasCode err NotFound)|];
    cbn [worldOf panicked userStates trace]; split; count.
Qed.

Lemma answersOnce_handleMyLinksCommand E chatID w :
  answersOnce (handleMyLinksCommand E chatID) w.
Proof.
  unfold answersOnce. run.
  destruct (remoteListUserLinks E _) as [links|err];
    [destruct (decide _)|];
    cbn [worldOf panicked userStates trace]; split; count.
Qed.

Lemma answersOnce_handleCustomAliasInput E userID text w :
  answersOnce (handleCustomAliasInput E userID text) w.
Proof.
  unfold answersOnce. run.
  destruct (negb _); cbn [worldOf panicked userStates trace]; split; count.
Qed.

Lemma answersOnce_handleURLInputWithAlias E userID text alias w :
  answersOnce (handleURLInputWithAlias E userID text alias) w.
Proof.
  unfold answersOnce. run.
  destruct (decide _); [split; count|].
  destruct (remoteCreateLink E _) as [res|err];
    [|destruct (hasCode err AlreadyExists)];
    cbn [worldOf panicked userStates trace]; split; count.
Qed.

Lemma answersOnce_handleCommand E chatID name args w :
  answersOnce (handleCommand E chatID name args) w.
Proof.
  unfold handleCommand.
  repeat (destruct (decide _));
    first [ apply answersOnce_sendMessage | apply answersOnce_sendMessageWithKeyboard
          | apply answersOnce_handleShortenCommand | apply answersOnce_handleStatsCommand
          | apply answersOnce_handleDeleteCommand | apply answersOnce_handleMyLinksCommand ].
Qed.

(** [handleMessage] by the state of the user. *)
Lemma handleMessage_eq (E : Env) (w : World) (userID : Z) (text : string) :
  handleMessage E userID text w =
  if decide (State (stateOf w userID) = StateWaitingForAlias) then
    handleCustomAliasInput E userID text w
  else if decide (State (stateOf w userID) = StateWaitingForURL) then
    handleURLInputWithAlias E userID text (StateAlias (stateOf w userID)) w
  else if MatchString urlRegex text then handleShortenCommand E userID text w
  else sendMessageWithKeyboard E userID msgUseShortenCommand createMainKeyboard w.
Proof.
  unfold handleMessage, getUserState, mbind, M_bind. fold (stateOf w userID).
  repeat (destruct (decide _); [reflexivity|]).
  now destruct (MatchString urlRegex text).
Qed.

Lemma answersOnce_handleMessage E userID text w :
  answersOnce (handleMessage E userID text) w.
Proof.
  unfold answersOnce. rewrite handleMessage_eq.
  repeat (destruct (decide _));
    [apply answersOnce_handleCustomAliasInput | apply answersOnce_handleURLInputWithAlias|].
  destruct (MatchString urlRegex text);
    [apply answersOnce_handleShortenCommand | apply answersOnce_sendMessageWithKeyboard].
Qed.


(** X1. Every slash command and every text message is answered: the handler
    makes at most one call to the remote service and sends exactly one
    message, or none in the one case where it panics. *)
Theorem commands_and_texts_answered_once
    (E : Env) (chatID : Z) (name args text : string) (w : World) :
  answersOnce (handleCommand E chatID name args) w /\
  answersOnce (handleMessage E chatID text) w.
Proof.
  split; [apply answersOnce_handleCommand | apply answersOnce_handleMessage].
Qed.

Lemma storeFree_appends {A : Type} (m : M A) (w : World) :
  storeFree m -> exists d, trace (worldOf (m w)) = (trace w ++ d)%list.
Proof.
  intros H. destruct (storeFree_world m w H) as (_ & Ht & _). eauto.
Qed.

Lemma routeCallback_appends (E : Env) (chatID : Z) (data : string) (w : World) :
  exists d, trace (worldOf (routeCallback E chatID data w)) = (trace w ++ d)%list.
Proof.
  unfold routeCallback.
  destruct (decide _);
    [apply storeFree_appends, storeFree_sendMessageWithKeyboard|].
  destruct (decide _); [apply storeFree_appends, storeFree_handleMyLinksCommand|].
  destruct (decide _);
    [apply storeFree_appends, storeFree_sendMessageWithKeyboard|].
  destruct (HasPrefix data "stats_");
    [apply storeFree_appends, storeFree_handleStatsCommand|].
  destruct (HasPrefix data "delete_");
    [apply storeFree_appends, storeFree_handleDeleteCommand|].
  destruct (decide _).
  - run. eexists. reflexivity.
  - exists []. symmetry. apply app_nil_r.
Qed.

Lemma knownToken_route (E : Env) (chatID : Z) (data : string) (w : World) :
  let r := routeCallback E chatID data w in
  panicked r = false /\
  (length (calls (trace (worldOf r))) <= length (calls (trace w)) + 1)%nat /\
  length (sent (trace (worldOf r))) =
    (length (sent (trace w)) + if knownToken data then 1 else 0)%nat /\
  (knownToken data = false -> worldOf r = w).
Proof.
  unfold routeCallback, knownToken.
  assert (forall (m : M (option error)),
            answersOnce m w -> panicked (m w) = false ->
            panicked (m w) = false /\
            (length (calls (trace (worldOf (m w)))) <= length (calls (trace w)) + 1)%nat /\
            length (sent (trace (worldOf (m w)))) = (length (sent (trace w)) + 1)%nat /\
            (true = false -> worldOf (m w) = w))
    as Hone.
  { intros m [Hc Hs] Hp. rewrite Hp in Hs. repeat split; auto. discriminate. }
  destruct (decide (data = callbackCreateLink)) as [->|H1].
  { apply Hone; [apply answersOnce_sendMessageWithKeyboard | reflexivity]. }
  destruct (decide (data = callbackMyLinks)) as [->|H2].
  { apply Hone; [apply answersOnce_handleMyLinksCommand|].
    run. destruct (remoteListUserLinks E _); [destruct (decide _)|]; reflexivity. }
  destruct (decide (data = callbackHelp)) as [->|H3].
  { apply Hone; [apply answersOnce_sendMessageWithKeyboard | reflexivity]. }
  rewrite (bool_decide_eq_false_2 (data = "create_link")) by exact H1.
  rewrite (bool_decide_eq_false_2 (data = "my_links")) by exact H2.
  rewrite (bool_decide_eq_false_2 (data = "help")) by exact H3.
  cbn [orb].
  destruct (HasPrefix data "stats_") eqn:Hs.
  { rewrite orb_true_r. cbn [orb].
    apply Hone; [apply answersOnce_handleStatsCommand|].
    run. destruct (decide _); [reflexivity|].
    destruct (remoteGetLinkStats E _) as [|err]; [|destruct (hasCode err NotFound)];
      reflexivity. }
  destruct (HasPrefix data "delete_") eqn:Hd.
  { rewrite orb_true_r.
    apply Hone; [apply answersOnce_handleDeleteCommand|].
    run. destruct (decide _); [reflexivity|].
    destruct (remoteDeleteLink E _) as [err|]; [destruct (hasCode err NotFound)|];
      reflexivity. }
  rewrite !orb_false_r.
  destruct (decide (data = callbackCustomAlias)) as [->|H4].
  { rewrite (bool_decide_eq_true_2 (callbackCustomAlias = "custom_alias"))
      by reflexivity.
    run. split; [reflexivity|]. split; [count|]. split; [count | discriminate]. }
  rewrite (bool_decide_eq_false_2 (data = "custom_alias")) by exact H4.
  run. repeat split; try lia.
Qed.

Lemma button_press_answered_iff_known_aux
    (E : Env) (id : string) (message : option Z) (data : string) (w : World) :
  let r := handleCallbackQuery E id message data w in
  (length (calls (trace (worldOf r))) <= length (calls (trace w)) + 1)%nat /\
  length (sent (trace (worldOf r))) =
    (length (sent (trace w)) +
     if knownToken data then match message with Some _ => 1 | None => 0 end else 0)%nat.
Proof.
  intros r. subst r.
  destruct (answerWorld_facts E id w) as (_ & Hac & Has).
  destruct message as [chatID|].
  - rewrite handleCallbackQuery_eq.
    destruct (knownToken_route E chatID data (answerWorld E id w)) as (_ & Hc & Hs & _).
    rewrite Hac in Hc. rewrite Has in Hs. now split.
  - rewrite handleCallbackQuery_nil.
    destruct (knownToken data); cbn [worldOf]; rewrite Hac, Has; split; lia.
Qed.

(** X2. A button press is always acknowledged. When the callback carries its
    message, the handler does not panic, and for a token the switch has a
    case for (create_link, my_links, help, custom_alias, or one that starts
    with stats_ or delete_) exactly one message is sent. When the callback
    carries no message, such a token makes the handler panic on the nil
    dereference, with nothing sent, called or stored. Any other token,
    [cancel] included, is only acknowledged, with or without message: no
    panic, nothing sent, nothing called, the state store as it was. *)
Theorem button_press_answered_iff_known
    (E : Env) (id : string) (message : option Z) (data : string) (w : World) :
  let r := handleCallbackQuery E id message data w in
  In (Answered id) (trace (worldOf r)) /\
  (panicked r = true <-> message = None /\ knownToken data = true) /\
  (length (calls (trace (worldOf r))) <= length (calls (trace w)) + 1)%nat /\
  length (sent (trace (worldOf r))) =
    (length (sent (trace w)) +
     if knownToken data then match message with Some _ => 1 | None => 0 end else 0)%nat /\
  (knownToken data = false \/ message = None ->
     userStates (worldOf r) = userStates w /\
     calls (trace (worldOf r)) = calls (trace w) /\
     sent (trace (worldOf r)) = sent (trace w)) /\
  knownToken callbackCancel = false.
Proof.
  intros r. subst r.
  destruct (button_press_answered_iff_known_aux E id message data w) as [Hc Hs].
  destruct (answerWorld_facts E id w) as (Hau & Hac & Has).
  assert (In (Answered id) (trace (answerWorld E id w))) as Hin.
  { unfold answerWorld. cbn [trace]. apply in_or_app. right. now left. }
  split; [|split; [|split; [exact Hc|split; [exact Hs|split; [|reflexivity]]]]].
  - destruct message as [chatID|].
    + rewrite handleCallbackQuery_eq.
      destruct (routeCallback_appends E chatID data (answerWorld E id w)) as [d ->].
      apply in_or_app. now left.
    + rewrite handleCallbackQuery_nil. now destruct (knownToken data).
  - destruct message as [chatID|].
    + rewrite handleCallbackQuery_eq.
      destruct (knownToken_route E chatID data (answerWorld E id w)) as (-> & _).
      split; [discriminate | intros [Hm _]; discriminate Hm].
    + rewrite handleCallbackQuery_nil. destruct (knownToken data); cbn [panicked].
      * split; [now split | reflexivity].
      * split; [discriminate | intros [_ Hk]; discriminate Hk].
  - intros Hor. destruct message as [chatID|].
    + destruct Hor as [Hk|Hm]; [|discriminate Hm].
      rewrite handleCallbackQuery_eq.
      destruct (knownToken_route E chatID data (answerWorld E id w)) as (_ & _ & _ & Hu).
      rewrite (Hu Hk). now repeat split.
    + rewrite handleCallbackQuery_nil.
      destruct (knownToken data); cbn [worldOf]; now repeat split.
Qed.

(** ** The state store across updates *)

Lemma storeStep_other (c v : Z) (m m' : gmap Z UserState) :
  storeStep c m m' -> v <> c -> m' !! v = m !! v.
Proof.
  intros [-> | [-> | (st & _ & ->)]] Hne; [reflexivity| |].
  - now apply lookup_delete_ne.
  - now apply lookup_insert_ne.
Qed.

Lemma storeStep_ok (c : Z) (m m' : gmap Z UserState) :
  storeStep c m m' -> storeOK m -> storeOK m'.
Proof.
  intros [-> | [-> | (st & Hst & ->)]] Hok u st' Hl; [now apply (Hok u)| |].
  - destruct (decide (c = u)) as [->|Hne].
    + rewrite lookup_delete_eq in Hl. discriminate.
    + rewrite lookup_delete_ne in Hl by exact Hne. now apply (Hok u).
  - destruct (decide (c = u)) as [->|Hne].
    + rewrite lookup_insert_eq in Hl. now injection Hl as <-.
    + rewrite lookup_insert_ne in Hl by exact Hne. now apply (Hok u).
Qed.

Lemma handleMessage_storeStep (E : Env) (userID : Z) (text : string) (w : World) :
  storeStep userID (userStates w) (userStates (worldOf (handleMessage E userID text w))).
Proof.
  rewrite handleMessage_eq.
  destruct (decide _) as [_|_]; [|destruct (decide _) as [_|_]].
  - destruct (handleCustomAliasInput_run E w userID text) as (_ & _ & Hok & Hbad).
    destruct (validAlias (TrimSpace text)) eqn:Hv.
    + right. right. eexists. split; [|apply (Hok eq_refl)]. right. now split.
    + left. apply (Hbad eq_refl).
  - right. left. apply (handleURLInputWithAlias_run E w userID text).
  - left. destruct (MatchString urlRegex text).
    + apply (storeFree_world _ w (storeFree_handleShortenCommand E userID text)).
    + apply (storeFree_world _ w (storeFree_sendMessageWithKeyboard E userID _ _)).
Qed.

Lemma routeCallback_storeStep (E : Env) (chatID : Z) (data : string) (w : World) :
  storeStep chatID (userStates w) (userStates (worldOf (routeCallback E chatID data w))).
Proof.
  unfold routeCallback.
  destruct (decide _);
    [left; apply (storeFree_world _ w), storeFree_sendMessageWithKeyboard|].
  destruct (decide _);
    [left; apply (storeFree_world _ w), storeFree_handleMyLinksCommand|].
  destruct (decide _);
    [left; apply (storeFree_world _ w), storeFree_sendMessageWithKeyboard|].
  destruct (HasPrefix data "stats_");
    [left; apply (storeFree_world _ w), storeFree_handleStatsCommand|].
  destruct (HasPrefix data "delete_");
    [left; apply (storeFree_world _ w), storeFree_handleDeleteCommand|].
  destruct (decide _).
  - right. right. run. eexists. split; [|reflexivity]. left. now split.
  - left. reflexivity.
Qed.

(** Logging the error of a handler changes neither the store nor the calls
    and messages. *)
Lemma bind_logFailure (m : M (option error)) (what : string) (w : World) :
  let r := (err ← m; logFailure what err) w in
  panicked r = panicked (m w) /\
  userStates (worldOf r) = userStates (worldOf (m w)) /\
  calls (trace (worldOf r)) = calls (trace (worldOf (m w))) /\
  sent (trace (worldOf r)) = sent (trace (worldOf (m w))).
Proof.
  unfold mbind, M_bind, logFailure.
  destruct (m w) as [[err|] w1|w1]; run; repeat split; now traces.
Qed.

Lemma processUpdate_storeStep (E : Env) (u : Update) (w : World) :
  match chatOf u with
  | Some c => storeStep c (userStates w) (userStates (worldOf (processUpdate E u w)))
  | None => userStates (worldOf (processUpdate E u w)) = userStates w
  end.
Proof.
  destruct u as [id chat data|chat name args|chat text|]; cbn [chatOf processUpdate];
    [| | |reflexivity];
    match goal with
    | |- context [mbind (fun e => logFailure ?s e) ?m w] =>
        destruct (bind_logFailure m s w) as (_ & -> & _ & _)
    end.
  - destruct chat as [chat|].
    + rewrite handleCallbackQuery_eq.
      pose proof (routeCallback_storeStep E chat data (answerWorld E id w)) as H.
      now destruct (answerWorld_facts E id w) as (<- & _ & _).
    + rewrite handleCallbackQuery_nil.
      destruct (knownToken data); apply (answerWorld_facts E id w).
  - left. apply (storeFree_world _ w (storeFree_handleCommand E chat name args)).
  - apply handleMessage_storeStep.
Qed.

Lemma serve_cons (E : Env) (u : Update) (rest : list (Env * Update)) (w : World) :
  serve ((E, u) :: rest) w =
  if panicked (processUpdate E u w) then Panic (worldOf (processUpdate E u w))
  else serve rest (worldOf (processUpdate E u w)).
Proof.
  cbn [serve]. unfold mbind at 1, M_bind at 1.
  now destruct (processUpdate E u w) as [[] w1|w1].
Qed.

(** X3. Updates of other chats do not touch the record of a chat: after the
    loop has processed any sequence of updates none of which belongs to chat
    [v], the state store holds for [v] what it held before. *)
Theorem other_chats_leave_record_alone
    (us : list (Env * Update)) (w : World) (v : Z) :
  (forall E u, In (E, u) us -> chatOf u <> Some v) ->
  userStates (worldOf (serve us w)) !! v = userStates w !! v.
Proof.
  revert w. induction us as [|[E u] rest IH]; intros w Hus; [reflexivity|].
  assert (userStates (worldOf (processUpdate E u w)) !! v = userStates w !! v) as H1.
  { pose proof (processUpdate_storeStep E u w) as Hstep.
    pose proof (Hus E u (or_introl eq_refl)) as Hne.
    destruct (chatOf u) as [c|]; [|now rewrite Hstep].
    apply (storeStep_other c); [exact Hstep | congruence]. }
  rewrite serve_cons. destruct (panicked (processUpdate E u w)); [exact H1|].
  rewrite IH; [exact H1|]. intros E' u' Hin. apply (Hus E' u'). now right.
Qed.

Lemma other_chats_leave_record_alone_witness :
  let us := [(sampleEnv, CallbackQuery "q1" (Some 5) "custom_alias");
             (sampleEnv, TextMessage 5 "my-link");
             (refusingEnv, Command 6 "shorten" "https://x.com")] in
  let w := initial {[ 7 := {| State := StateWaitingForURL; StateAlias := "abc" |} ]} in
  (forall E u, In (E, u) us -> chatOf u <> Some 7) /\
  userStates (worldOf (serve us w)) !! 7 = userStates w !! 7.
Proof.
  assert (forall E u,
            In (E, u) [(sampleEnv, CallbackQuery "q1" (Some 5) "custom_alias");
                       (sampleEnv, TextMessage 5 "my-link");
                       (refusingEnv, Command 6 "shorten" "https://x.com")] ->
            chatOf u <> Some 7) as H.
  { intros E u Hin. cbn in Hin.
    destruct Hin as [H|[H|[H|[]]]]; inversion H; discriminate. }
  split; [exact H|].
  apply (other_chats_leave_record_alone _ _ 7 H).
Defined.

Lemma serve_storeOK (us : list (Env * Update)) (w : World) :
  storeOK (userStates w) -> storeOK (userStates (worldOf (serve us w))).
Proof.
  revert w. induction us as [|[E u] rest IH]; intros w Hok; [exact Hok|].
  assert (storeOK (userStates (worldOf (processUpdate E u w)))) as H1.
  { pose proof (processUpdate_storeStep E u w) as Hstep.
    destruct (chatOf u) as [c|]; [|now rewrite Hstep].
    now apply (storeStep_ok c (userStates w)). }
  rewrite serve_cons. destruct (panicked (processUpdate E u w)); [exact H1|].
  now apply IH.
Qed.

(** X4. Whatever updates the loop has processed since the start of the bot,
    the state store holds only records of two kinds: waiting for an alias,
    carrying nothing, and waiting for a URL, carrying a valid alias. So the
    CreateLink call the alias conversation ends with always asks for an
    alias of 1 to 20 letters, digits or hyphens. *)
Theorem conversation_alias_always_valid
    (us : list (Env * Update)) (E : Env) (chatID : Z) (text : string) :
  let w := worldOf (serve us (initial ∅)) in
  let r := handleMessage E chatID text w in
  storeOK (userStates w) /\
  (State (stateOf w chatID) = StateWaitingForURL ->
     validAlias (StateAlias (stateOf w chatID)) = true /\
     (containsURL text ->
        calls (trace (worldOf r)) =
          (calls (trace w) ++
           [CallCreateLink (aliasRequest chatID (FindString urlRegex text)
                              (StateAlias (stateOf w chatID)))])%list)).
Proof.
  intros w r. subst r.
  assert (storeOK (userStates w)) as Hok.
  { apply serve_storeOK. intros u st Hl. cbn in Hl. rewrite lookup_empty in Hl.
    discriminate. }
  split; [exact Hok|]. intros Hst.
  assert (userStates w !! chatID = Some (stateOf w chatID)) as Hl.
  { unfold stateOf in *. destruct (userStates w !! chatID) as [st|]; [reflexivity|].
    cbn in Hst. discriminate. }
  split.
  - destruct (Hok _ _ Hl) as [[H1 _] | [_ H2]]; [|exact H2].
    rewrite H1 in Hst. discriminate.
  - intros Hc. rewrite handleMessage_eq.
    destruct (decide _) as [Heq|_]; [rewrite Hst in Heq; discriminate|].
    destruct (decide _) as [_|Hne]; [|contradiction].
    apply (handleURLInputWithAlias_run E w chatID text).
    now apply FindString_url_nonempty.
Qed.

Lemma processUpdate_counts (E : Env) (u : Update) (w : World) :
  (length (calls (trace (worldOf (processUpdate E u w)))) <=
   length (calls (trace w)) + 1)%nat /\
  (length (sent (trace (worldOf (processUpdate E u w)))) <=
   length (sent (trace w)) + 1)%nat.
Proof.
  destruct u as [id chat data|chat name args|chat text|]; cbn [processUpdate];
    [| | |split; cbn; lia];
    match goal with
    | |- context [mbind (fun e => logFailure ?s e) ?m w] =>
        destruct (bind_logFailure m s w) as (_ & _ & -> & ->)
    end.
  - destruct (button_press_answered_iff_known_aux E id chat data w) as [Hc Hs].
    split; [exact Hc|]. rewrite Hs. destruct (knownToken data), chat; lia.
  - destruct (answersOnce_handleCommand E chat name args w) as [Hc Hs].
    split; [exact Hc|]. rewrite Hs. destruct (panicked _); lia.
  - destruct (answersOnce_handleMessage E chat text w) as [Hc Hs].
    split; [exact Hc|]. rewrite Hs. destruct (panicked _); lia.
Qed.

Lemma conversation_alias_always_valid_witness :
  let us := [(sampleEnv, CallbackQuery "q1" (Some 5) "custom_alias");
             (sampleEnv, TextMessage 5 "my-link")] in
  let w := worldOf (serve us (initial ∅)) in
  State (stateOf w 5) = StateWaitingForURL /\
  validAlias (StateAlias (stateOf w 5)) = true /\
  StateAlias (stateOf w 5) = "my-link".
Proof.
  split; [reflexivity|].
  split; [|reflexivity].
  apply (conversation_alias_always_valid
           [(sampleEnv, CallbackQuery "q1" (Some 5) "custom_alias");
            (sampleEnv, TextMessage 5 "my-link")] sampleEnv 5 "https://x.com").
  reflexivity.
Defined.

(** X5. The loop makes at most one call to the remote service and sends at
    most one message for each update it processes. *)
Theorem serve_one_call_one_message_per_update (us : list (Env * Update)) (w : World) :
  (length (calls (trace (worldOf (serve us w)))) <=
   length (calls (trace w)) + length us)%nat /\
  (length (sent (trace (worldOf (serve us w)))) <=
   length (sent (trace w)) + length us)%nat.
Proof.
  revert w. induction us as [|[E u] rest IH]; intros w; [cbn; lia|].
  destruct (processUpdate_counts E u w) as [Hc Hs].
  rewrite serve_cons. cbn [length].
  destruct (panicked (processUpdate E u w)); cbn [worldOf]; [lia|].
  destruct (IH (worldOf (processUpdate E u w))) as [Hc' Hs']. lia.
Qed.

(** ** The alias conversation as a whole *)

Lemma processUpdate_text (E : Env) (chat : Z) (text : string) (w : World) :
  let r := processUpdate E (TextMessage chat text) w in
  let h := handleMessage E chat text w in
  panicked r = panicked h /\
  userStates (worldOf r) = userStates (worldOf h) /\
  calls (trace (worldOf r)) = calls (trace (worldOf h)) /\
  sent (trace (worldOf r)) = sent (trace (worldOf h)).
Proof. apply bind_logFailure. Qed.

Lemma processUpdate_callback (E : Env) (id : string) (chat : option Z)
    (data : string) (w : World) :
  let r := processUpdate E (CallbackQuery id chat data) w in
  let h := handleCallbackQuery E id chat data w in
  panicked r = panicked h /\
  userStates (worldOf r) = userStates (worldOf h) /\
  calls (trace (worldOf r)) = calls (trace (worldOf h)) /\
  sent (trace (worldOf r)) = sent (trace (worldOf h)).
Proof. apply bind_logFailure. Qed.

(** Pressing [custom_alias] starts the conversation. *)
Lemma press_custom_alias (E : Env) (id : string) (chat : Z) (w : World) :
  let r := handleCallbackQuery E id (Some chat) "custom_alias" w in
  panicked r = false /\
  userStates (worldOf r) =
    <[chat := {| State := StateWaitingForAlias; StateAlias := "" |}]> (userStates w) /\
  calls (trace (worldOf r)) = calls (trace w) /\
  sent (trace (worldOf r)) =
    (sent (trace w) ++ [plainMessage chat msgSendCustomAlias])%list.
Proof.
  intros r. subst r. rewrite handleCallbackQuery_eq.
  destruct (answerWorld_facts E id w) as (Hu & Hc & Hs).
  unfold routeCallback.
  repeat (destruct (decide _) as [Heq|_]; [discriminate Heq|]).
  change (HasPrefix "custom_alias" "stats_") with false.
  change (HasPrefix "custom_alias" "delete_") with false.
  cbn iota.
  destruct (decide _) as [_|Hne]; [|exfalso; now apply Hne].
  run. rewrite Hu. split; [reflexivity|]. split; [reflexivity|].
  split; traces; [exact Hc | now rewrite Hs].
Qed.

(** X6. The whole alias conversation: the button [custom_alias], then a text
    that is a valid alias once trimmed, then a text with a URL, each answered
    in its own circumstances, end in exactly one CreateLink call, for the
    first URL of the last text with the alias of the text before; the loop
    does not panic and the record of the chat is gone from the store. *)
Theorem alias_conversation_end_to_end
    (E1 E2 E3 : Env) (id : string) (chat : Z) (t1 t2 : string) (w : World) :
  validAlias (TrimSpace t1) = true ->
  containsURL t2 ->
  let r := serve [(E1, CallbackQuery id (Some chat) "custom_alias");
                  (E2, TextMessage chat t1);
                  (E3, TextMessage chat t2)] w in
  panicked r = false /\
  userStates (worldOf r) = delete chat (userStates w) /\
  firstURL t2 (FindString urlRegex t2) /\
  calls (trace (worldOf r)) =
    (calls (trace w) ++
     [CallCreateLink (aliasRequest chat (FindString urlRegex t2) (TrimSpace t1))])%list.
Proof.
  intros Hv Hc r. subst r.
  (* the button *)
  destruct (processUpdate_callback E1 id (Some chat) "custom_alias" w)
    as (Hp1 & Hu1 & Hc1 & _).
  destruct (press_custom_alias E1 id chat w) as (Hp1' & Hu1' & Hc1' & _).
  rewrite serve_cons, Hp1, Hp1'.
  set (w1 := worldOf (processUpdate E1 (CallbackQuery id (Some chat) "custom_alias") w))
    in *.
  assert (userStates w1 !! chat =
          Some {| State := StateWaitingForAlias; StateAlias := "" |}) as Hl1.
  { rewrite Hu1, Hu1'. apply lookup_insert_eq. }
  (* the alias *)
  destruct (processUpdate_text E2 chat t1 w1) as (Hp2 & Hu2 & Hc2 & _).
  rewrite (handleMessage_waiting_alias _ _ _ _ _ Hl1) in Hp2, Hu2, Hc2.
  destruct (handleCustomAliasInput_run E2 w1 chat t1) as (Hp2' & Hc2' & Hok & _).
  destruct (Hok Hv) as [Hu2' _].
  rewrite serve_cons, Hp2, Hp2'.
  set (w2 := worldOf (processUpdate E2 (TextMessage chat t1) w1)) in *.
  assert (userStates w2 !! chat =
          Some {| State := StateWaitingForURL; StateAlias := TrimSpace t1 |}) as Hl2.
  { rewrite Hu2, Hu2'. apply lookup_insert_eq. }
  (* the URL *)
  destruct (processUpdate_text E3 chat t2 w2) as (Hp3 & Hu3 & Hc3 & _).
  rewrite (handleMessage_waiting_url _ _ _ _ _ Hl2) in Hp3, Hu3, Hc3.
  destruct (handleURLInputWithAlias_run E3 w2 chat t2 (TrimSpace t1))
    as (Hp3' & Hu3' & _ & Hsome).
  destruct (Hsome (proj2 (FindString_url_nonempty t2) Hc)) as [Hc3' _].
  rewrite serve_cons, Hp3, Hp3'. cbn [serve].
  set (w3 := worldOf (processUpdate E3 (TextMessage chat t2) w2)) in *.
  unfold mret, M_ret. cbn [panicked worldOf].
  split; [reflexivity|]. split; [|split; [now apply FindString_url|]].
  - rewrite Hu3, Hu3', Hu2, Hu2', Hu1, Hu1'.
    now rewrite !delete_insert_eq.
  - rewrite Hc3, Hc3', Hc2, Hc2', Hc1, Hc1'. reflexivity.
Qed.

Lemma alias_conversation_end_to_end_witness :
  let r := serve [(sampleEnv, CallbackQuery "q1" (Some 5) "custom_alias");
                  (sampleEnv, TextMessage 5 " my-link ");
                  (refusingEnv, TextMessage 5 "it is https://a.b/c ok")] (initial ∅) in
  validAlias (TrimSpace " my-link ") = true /\
  containsURL "it is https://a.b/c ok" /\
  panicked r = false /\
  calls (trace (worldOf r)) = [CallCreateLink (aliasRequest 5 "https://a.b/c" "my-link")].
Proof.
  assert (containsURL "it is https://a.b/c ok") as Hc.
  { apply FindString_url_nonempty. vm_compute. discriminate. }
  split; [reflexivity|]. split; [exact Hc|].
  destruct (alias_conversation_end_to_end sampleEnv sampleEnv refusingEnv "q1" 5
              " my-link " "it is https://a.b/c ok" (initial ∅) eq_refl Hc)
    as (Hp & _ & _ & Hcalls).
  split; [exact Hp | exact Hcalls].
Defined.

(** X7. A text without a URL in state [StateWaitingForURL] ends the
    conversation and the carried alias is forgotten: the next text of the
    same chat is handled as in the idle state, so a URL in it is shortened
    with the modifiers of that text and, without an [alias=] modifier, with
    no custom alias at all. *)
Theorem failed_url_step_forgets_alias
    (E1 E2 : Env) (chat : Z) (alias t1 t2 : string) (w : World) :
  userStates w !! chat = Some {| State := StateWaitingForURL; StateAlias := alias |} ->
  ~ containsURL t1 ->
  containsURL t2 ->
  let w1 := worldOf (handleMessage E1 chat t1 w) in
  let r := handleMessage E2 chat t2 w1 in
  stateOf w1 chat = idle /\
  calls (trace (worldOf r)) =
    (calls (trace w) ++
     [CallCreateLink (shortenRequest E2 chat (FindString urlRegex t2) t2)])%list /\
  (~ hasModifier "alias=" aliasClass t2 ->
     CustomAlias (shortenRequest E2 chat (FindString urlRegex t2) t2) = None).
Proof.
  intros Hl Hno Hyes w1 r. subst w1 r.
  rewrite (handleMessage_waiting_url _ _ _ _ _ Hl).
  destruct (handleURLInputWithAlias_run E1 w chat t1 alias) as (_ & Hu & Hnone & _).
  assert (FindString urlRegex t1 = "") as He by now apply FindString_url.
  specialize (Hnone He).
  set (w1 := worldOf (handleURLInputWithAlias E1 chat t1 alias w)) in *.
  assert (stateOf w1 chat = idle) as Hidle.
  { unfold stateOf. rewrite Hu, lookup_delete_eq. reflexivity. }
  split; [exact Hidle|].
  rewrite handleMessage_default by (rewrite Hidle; discriminate).
  pose proof (proj2 (FindString_url_nonempty t2) Hyes) as Hne.
  rewrite (proj2 (MatchString_url t2) Hne).
  destruct (handleShortenCommand_run E2 w1 chat t2) as (_ & _ & Hsome).
  destruct (Hsome Hne) as [Hcalls _].
  split.
  - rewrite Hcalls, Hnone. now traces.
  - intros Hm. cbn [CustomAlias shortenRequest].
    now apply submatch1_key_none in Hm.
Qed.

Lemma failed_url_step_forgets_alias_witness :
  let w := initial {[ 5 := {| State := StateWaitingForURL; StateAlias := "foo" |} ]} in
  let w1 := worldOf (handleMessage sampleEnv 5 "no link here" w) in
  let r := handleMessage sampleEnv 5 "https://x.com" w1 in
  userStates w !! 5 = Some {| State := StateWaitingForURL; StateAlias := "foo" |} /\
  ~ containsURL "no link here" /\
  containsURL "https://x.com" /\
  stateOf w1 5 = idle /\
  calls (trace (worldOf r)) =
    (calls (trace w) ++
     [CallCreateLink (shortenRequest sampleEnv 5 (FindString urlRegex "https://x.com")
                        "https://x.com")])%list.
Proof.
  assert (~ containsURL "no link here") as Hno.
  { intros Hc. apply FindString_url_nonempty in Hc. apply Hc. reflexivity. }
  assert (containsURL "https://x.com") as Hyes.
  { apply FindString_url_nonempty. vm_compute. discriminate. }
  assert (userStates
            (initial {[ 5 := {| State := StateWaitingForURL; StateAlias := "foo" |} ]})
            !! 5 = Some {| State := StateWaitingForURL; StateAlias := "foo" |}) as Hl
    by reflexivity.
  split; [exact Hl|]. split; [exact Hno|]. split; [exact Hyes|].
  destruct (failed_url_step_forgets_alias sampleEnv sampleEnv 5 "foo"
              "no link here" "https://x.com"
              (initial {[ 5 := {| State := StateWaitingForURL; StateAlias := "foo" |} ]})
              Hl Hno Hyes) as (H1 & H2 & _).
  split; [exact H1 | exact H2].
Defined.

(** ** What an answer depends on *)

Lemma storeBlind_storeFree {A : Type} (m : M A) : storeFree m -> storeBlind m.
Proof.
  intros H. exists (trace (worldOf (m (initial ∅)))), (panicked (m (initial ∅))).
  intros w. destruct (storeFree_world m w H) as (_ & Ht & Hp). now split.
Qed.

Lemma storeBlind_handleCustomAliasInput E userID text :
  storeBlind (handleCustomAliasInput E userID text).
Proof.
  unfold storeBlind. run.
  destruct (negb _); do 2 eexists; intros w; cbn [worldOf panicked trace];
    split; reflexivity.
Qed.

Lemma storeBlind_handleURLInputWithAlias E userID text alias :
  storeBlind (handleURLInputWithAlias E userID text alias).
Proof.
  unfold storeBlind. run.
  destruct (decide _);
    [do 2 eexists; intros w; cbn [worldOf panicked trace]; split; reflexivity|].
  destruct (remoteCreateLink E _) as [res|err];
    [|destruct (hasCode err AlreadyExists)];
    do 2 eexists; intros w; cbn [worldOf panicked trace]; rewrite <- ?app_assoc;
    split; reflexivity.
Qed.

Lemma storeBlind_events {A : Type} (m : M A) (w1 w2 : World) :
  storeBlind m ->
  eventsOf m w1 = eventsOf m w2 /\ panicked (m w1) = panicked (m w2).
Proof.
  intros (d & p & H). destruct (H w1) as [Ht1 Hp1]. destruct (H w2) as [Ht2 Hp2].
  unfold eventsOf. rewrite Ht1, Ht2, !drop_app_length. split; congruence.
Qed.

(** X8. What a text message is answered with depends on the record of its
    own chat only: in two worlds that agree on that record, whatever they
    hold for other chats and whatever happened before, the handler appends
    the same events and panics in the same cases. *)
Theorem answer_depends_on_own_record_only
    (E : Env) (chat : Z) (text : string) (w1 w2 : World) :
  userStates w1 !! chat = userStates w2 !! chat ->
  eventsOf (handleMessage E chat text) w1 = eventsOf (handleMessage E chat text) w2 /\
  panicked (handleMessage E chat text w1) = panicked (handleMessage E chat text w2).
Proof.
  intros Hl.
  assert (stateOf w1 chat = stateOf w2 chat) as Hst by (unfold stateOf; now rewrite Hl).
  unfold eventsOf. rewrite !handleMessage_eq, Hst.
  destruct (decide _);
    [apply (storeBlind_events _ w1 w2), storeBlind_handleCustomAliasInput|].
  destruct (decide _);
    [apply (storeBlind_events _ w1 w2), storeBlind_handleURLInputWithAlias|].
  destruct (MatchString urlRegex text);
    apply (storeBlind_events _ w1 w2), storeBlind_storeFree;
    [apply storeFree_handleShortenCommand | apply storeFree_sendMessageWithKeyboard].
Qed.

Lemma answer_depends_on_own_record_only_witness :
  let w1 := initial {[ 5 := {| State := StateWaitingForAlias; StateAlias := "" |} ]} in
  let w2 := initial {[ 5 := {| State := StateWaitingForAlias; StateAlias := "" |};
                       6 := {| State := StateWaitingForURL; StateAlias := "abc" |} ]} in
  userStates w1 !! 5 = userStates w2 !! 5 /\
  eventsOf (handleMessage sampleEnv 5 "my-link") w1 =
  eventsOf (handleMessage sampleEnv 5 "my-link") w2.
Proof.
  split; [reflexivity|].
  apply (answer_depends_on_own_record_only sampleEnv 5 "my-link"
           (initial {[ 5 := {| State := StateWaitingForAlias; StateAlias := "" |} ]})
           (initial {[ 5 := {| State := StateWaitingForAlias; StateAlias := "" |};
                       6 := {| State := StateWaitingForURL; StateAlias := "abc" |} ]})).
  reflexivity.
Defined.

(** X9. A slash command neither reads nor changes the state store: in any
    world it appends the events it appends in the empty one and panics in
    the same cases, so a command sent in the middle of the alias
    conversation leaves the conversation pending. *)
Theorem commands_ignore_conversation
    (E : Env) (chat : Z) (name args : string) (w : World) :
  let r := handleCommand E chat name args w in
  let r0 := handleCommand E chat name args (initial ∅) in
  userStates (worldOf r) = userStates w /\
  trace (worldOf r) = (trace w ++ trace (worldOf r0))%list /\
  panicked r = panicked r0 /\
  (forall u, stateOf (worldOf r) u = stateOf w u).
Proof.
  intros r r0. subst r r0.
  destruct (storeFree_world _ w (storeFree_handleCommand E chat name args))
    as (Hu & Ht & Hp).
  repeat split; try assumption. intros u. unfold stateOf. now rewrite Hu.
Qed.

(** ** Arguments that are missing *)

(** X10. Arguments that fail the local check never reach the remote service:
    [/shorten] without a URL, and [/stats] and [/delete] with an alias that
    is empty once trimmed, only send the message that tells the format; the
    state store is not changed. *)
Theorem missing_arguments_stay_local (E : Env) (chat : Z) (w : World) :
  (forall args, ~ containsURL args ->
     handleShortenCommand E chat args w =
     Done (apiSend E {| ChatID := chat; Text := msgInvalidShortenFormat;
                        Markdown := true; ReplyMarkup := None |})
          {| userStates := userStates w;
             trace := (trace w ++
                       [Sent {| ChatID := chat; Text := msgInvalidShortenFormat;
                                Markdown := true; ReplyMarkup := None |}])%list |}) /\
  (forall alias, TrimSpace alias = "" ->
     handleStatsCommand E chat alias w =
     Done (apiSend E (plainMessage chat "Invalid command format. Use: /stats <alias>"))
          {| userStates := userStates w;
             trace := (trace w ++
                       [Sent (plainMessage chat
                                "Invalid command format. Use: /stats <alias>")])%list |}) /\
  (forall alias, TrimSpace alias = "" ->
     handleDeleteCommand E chat alias w =
     Done (apiSend E (plainMessage chat "Invalid command format. Use: /delete <alias>"))
          {| userStates := userStates w;
             trace := (trace w ++
                       [Sent (plainMessage chat
                                "Invalid command format. Use: /delete <alias>")])%list |}).
Proof.
  split; [|split].
  - intros args Hno. run.
    destruct (decide _) as [_|Hne]; [reflexivity|].
    exfalso. apply Hno. now apply FindString_url_nonempty.
  - intros alias He. run. rewrite He.
    destruct (decide _) as [_|Hne]; [reflexivity | contradiction].
  - intros alias He. run. rewrite He.
    destruct (decide _) as [_|Hne]; [reflexivity | contradiction].
Qed.

Lemma missing_arguments_stay_local_witness :
  ~ containsURL "title=x alias=y" /\
  TrimSpace "   " = "" /\
  calls (trace (worldOf (handleShortenCommand refusingEnv 5 "title=x alias=y" (initial ∅))))
    = [] /\
  calls (trace (worldOf (handleStatsCommand refusingEnv 5 "   " (initial ∅)))) = [] /\
  calls (trace (worldOf (handleDeleteCommand refusingEnv 5 "   " (initial ∅)))) = [].
Proof.
  assert (~ containsURL "title=x alias=y") as Hno.
  { intros Hc. apply FindString_url_nonempty in Hc. apply Hc. reflexivity. }
  assert (TrimSpace "   " = "") as He by reflexivity.
  destruct (missing_arguments_stay_local refusingEnv 5 (initial ∅)) as (H1 & H2 & H3).
  split; [exact Hno|]. split; [exact He|].
  rewrite (H1 _ Hno), (H2 _ He), (H3 _ He). repeat split.
Defined.

(** X11. [/delete] and the Delete buttons, with an alias that is not blank:
    exactly one DeleteLink call is made, for the trimmed alias, and one
    message is sent: the confirmation with the follow-up keyboard when the
    call succeeds, [Link with alias 'a' not found.] when it fails with
    status NotFound, the internal error text for any other failure, with
    another status or with none. The state store is not changed. *)
Theorem delete_outcomes (E : Env) (chat : Z) (alias : string) (w : World) :
  TrimSpace alias <> "" ->
  let a := TrimSpace alias in
  let r := handleDeleteCommand E chat alias w in
  panicked r = false /\
  userStates (worldOf r) = userStates w /\
  calls (trace (worldOf r)) = (calls (trace w) ++ [CallDeleteLink a])%list /\
  sent (trace (worldOf r)) =
    (sent (trace w) ++
     [match remoteDeleteLink E a with
      | None =>
          {| ChatID := chat;
             Text := "Link '" +:+ a +:+ "' has been deleted successfully.";
             Markdown := false;
             ReplyMarkup := Some deletedKeyboard |}
      | Some err =>
          plainMessage chat
            match err with
            | StatusError NotFound _ => "Link with alias '" +:+ a +:+ "' not found."
            | _ => "Internal error occurred. Please try again later."
            end
      end])%list.
Proof.
  intros Hne a r. subst a r. run.
  destruct (decide _) as [|_]; [contradiction|].
  destruct (remoteDeleteLink E _) as [[[] msg|msg]|];
    try match goal with
        | |- context [hasCode ?e ?c] =>
            let b := eval vm_compute in (hasCode e c) in change (hasCode e c) with b
        end;
    cbn [worldOf panicked userStates trace]; repeat split; now traces.
Qed.

Lemma delete_outcomes_witness :
  TrimSpace " abc " <> "" /\
  calls (trace (worldOf (handleDeleteCommand sampleEnv 5 " abc " (initial ∅)))) =
    [CallDeleteLink "abc"] /\
  sent (trace (worldOf (handleDeleteCommand refusingEnv 5 " abc " (initial ∅)))) =
    [plainMessage 5 "Link with alias 'abc' not found."] /\
  sent (trace (worldOf (handleDeleteCommand
                          (failingEnv (StatusError Unavailable "down")) 5 " abc "
                          (initial ∅)))) =
    [plainMessage 5 "Internal error occurred. Please try again later."] /\
  sent (trace (worldOf (handleDeleteCommand
                          (failingEnv (PlainError "connection reset")) 5 " abc "
                          (initial ∅)))) =
    [plainMessage 5 "Internal error occurred. Please try again later."].
Proof.
  assert (TrimSpace " abc " <> "") as Hne by (vm_compute; discriminate).
  split; [exact Hne|].
  destruct (delete_outcomes sampleEnv 5 " abc " (initial ∅) Hne) as (_ & _ & Hc & _).
  destruct (delete_outcomes refusingEnv 5 " abc " (initial ∅) Hne) as (_ & _ & _ & Hs).
  destruct (delete_outcomes (failingEnv (StatusError Unavailable "down")) 5 " abc "
              (initial ∅) Hne) as (_ & _ & _ & Hu).
  destruct (delete_outcomes (failingEnv (PlainError "connection reset")) 5 " abc "
              (initial ∅) Hne) as (_ & _ & _ & Hp).
  split; [exact Hc|]. split; [exact Hs|]. split; [exact Hu | exact Hp].
Defined.

(** ** The statistics text and the order of the breakdown *)

Lemma Permutation_short {A : Type} (l1 l2 : list A) :
  l1 ≡ₚ l2 -> (length l2 <= 1)%nat -> l1 = l2.
Proof.
  intros Hp Hlen. destruct l2 as [|x [|y l]]; cbn in Hlen; [| |lia].
  - now apply Permutation_nil_r.
  - now apply Permutation_singleton_r.
Qed.

(** X12. With at most one category in the click breakdown the statistics
    text does not depend on the order of the range over the map: every order
    gives the same text. *)
Theorem stats_text_fixed_up_to_one_category
    (E : Env) (alias : string) (res : GetLinkStatsResponse)
    (o1 o2 : list (string * Z)) :
  (size (ClicksByDevice res) <= 1)%nat ->
  o1 ≡ₚ map_to_list (ClicksByDevice res) ->
  o2 ≡ₚ map_to_list (ClicksByDevice res) ->
  statsText E alias res o1 = statsText E alias res o2.
Proof.
  intros Hsize H1 H2.
  assert (length (map_to_list (ClicksByDevice res)) <= 1)%nat as Hlen
    by now rewrite length_map_to_list.
  now rewrite (Permutation_short _ _ H1 Hlen), (Permutation_short _ _ H2 Hlen).
Qed.

Lemma stats_text_fixed_up_to_one_category_witness :
  (size (ClicksByDevice oneDeviceStats) <= 1)%nat /\
  statsText sampleEnv "abc" oneDeviceStats (map_to_list (ClicksByDevice oneDeviceStats)) =
  statsText sampleEnv "abc" oneDeviceStats
    (rev (map_to_list (ClicksByDevice oneDeviceStats))).
Proof.
  assert (size (ClicksByDevice oneDeviceStats) <= 1)%nat as Hs by (vm_compute; lia).
  split; [exact Hs|].
  apply (stats_text_fixed_up_to_one_category sampleEnv "abc" oneDeviceStats).
  - exact Hs.
  - reflexivity.
  - symmetry. apply Permutation_rev.
Defined.

(** ** Idle text without a URL *)

(** X13. A text message outside the two waiting states that contains no
    URL-shaped substring gets the hint with the main menu and nothing else:
    no call is made, nothing is stored, and the invalid-format answer of
    [/shorten] is never sent for it. *)
Theorem idle_text_without_url_gets_hint
    (E : Env) (chat : Z) (text : string) (w : World) :
  State (stateOf w chat) <> StateWaitingForAlias ->
  State (stateOf w chat) <> StateWaitingForURL ->
  ~ containsURL text ->
  handleMessage E chat text w =
  Done (apiSend E {| ChatID := chat; Text := msgUseShortenCommand;
                     Markdown := false; ReplyMarkup := Some createMainKeyboard |})
       {| userStates := userStates w;
          trace := (trace w ++
                    [Sent {| ChatID := chat; Text := msgUseShortenCommand;
                             Markdown := false;
                             ReplyMarkup := Some createMainKeyboard |}])%list |}.
Proof.
  intros H1 H2 Hno. rewrite (handleMessage_default _ _ _ _ H1 H2).
  destruct (MatchString urlRegex text) eqn:Hm; [|reflexivity].
  exfalso. apply Hno. apply FindString_url_nonempty. now apply MatchString_url.
Qed.

Lemma idle_text_without_url_gets_hint_witness :
  State (stateOf (initial ∅) 5) <> StateWaitingForAlias /\
  State (stateOf (initial ∅) 5) <> StateWaitingForURL /\
  ~ containsURL "hello there" /\
  calls (trace (worldOf (handleMessage refusingEnv 5 "hello there" (initial ∅)))) = [].
Proof.
  assert (~ containsURL "hello there") as Hno.
  { intros Hc. apply FindString_url_nonempty in Hc. apply Hc. reflexivity. }
  assert (State (stateOf (initial ∅) 5) <> StateWaitingForAlias) as H1
    by (vm_compute; discriminate).
  assert (State (stateOf (initial ∅) 5) <> StateWaitingForURL) as H2
    by (vm_compute; discriminate).
  split; [exact H1|]. split; [exact H2|]. split; [exact Hno|].
  rewrite (idle_text_without_url_gets_hint refusingEnv 5 "hello there" (initial ∅)
             H1 H2 Hno).
  reflexivity.
Defined.

(** ** The buttons the bot shows *)

Lemma knownToken_stats (a : string) : knownToken ("stats_" +:+ a) = true.
Proof.
  unfold knownToken, HasPrefix. rewrite (prefix_app "stats_" a).
  now rewrite orb_true_r.
Qed.

Lemma knownToken_delete (a : string) : knownToken ("delete_" +:+ a) = true.
Proof.
  unfold knownToken, HasPrefix. rewrite (prefix_app "delete_" a).
  now rewrite orb_true_r.
Qed.

Lemma listKeyboard_known (links : list Link) (nav : Keyboard) :
  forallb knownToken (tokens nav) = true ->
  forallb knownToken (tokens (map listRow links ++ nav)%list) = true.
Proof.
  intros Hnav. induction links as [|l links IH]; [exact Hnav|].
  unfold tokens in *. cbn [map app concat listRow button Data forallb].
  now rewrite knownToken_stats, knownToken_delete, IH.
Qed.

Ltac good :=
  cbn [worldOf trace];
  repeat (apply Forall_app; split); try assumption;
  repeat (apply Forall_cons; split); try apply Forall_nil;
  cbn [goodEvent ReplyMarkup]; try exact I.

Lemma good_sendMessage E chat text md w :
  Forall goodEvent (trace w) ->
  Forall goodEvent (trace (worldOf (sendMessage E chat text md w))).
Proof. intros H. run. good. Qed.

Lemma good_handleShortenCommand E chat args w :
  Forall goodEvent (trace w) ->
  Forall goodEvent (trace (worldOf (handleShortenCommand E chat args w))).
Proof.
  intros H. run. destruct (decide _); [good|].
  destruct (remoteCreateLink E _) as [res|err];
    [|destruct (hasCode err AlreadyExists); [destruct (CustomAlias _)|]]; good.
  unfold tokens. cbn [createLinkActionsKeyboard concat app map button Data forallb].
  now rewrite knownToken_stats, knownToken_delete.
Qed.

Lemma good_handleStatsCommand E chat alias w :
  Forall goodEvent (trace w) ->
  Forall goodEvent (trace (worldOf (handleStatsCommand E chat alias w))).
Proof.
  intros H. run. destruct (decide _); [good|].
  destruct (remoteGetLinkStats E _) as [res|err];
    [|destruct (hasCode err NotFound)]; good.
  unfold tokens. cbn [statsKeyboard concat app map button Data forallb].
  now rewrite knownToken_delete.
Qed.

Lemma good_handleDeleteCommand E chat alias w :
  Forall goodEvent (trace w) ->
  Forall goodEvent (trace (worldOf (handleDeleteCommand E chat alias w))).
Proof.
  intros H. run. destruct (decide _); [good|].
  destruct (remoteDeleteLink E _) as [err|];
    [destruct (hasCode err NotFound)|]; good.
  reflexivity.
Qed.

Lemma good_handleMyLinksCommand E chat w :
  Forall goodEvent (trace w) ->
  Forall goodEvent (trace (worldOf (handleMyLinksCommand E chat w))).
Proof.
  intros H. run.
  destruct (remoteListUserLinks E _) as [links|err]; [destruct (decide _)|]; good.
  - reflexivity.
  - now apply listKeyboard_known.
Qed.

Lemma good_handleCommand E chat name args w :
  Forall goodEvent (trace w) ->
  Forall goodEvent (trace (worldOf (handleCommand E chat name args w))).
Proof.
  intros H. unfold handleCommand.
  repeat (destruct (decide _));
    first [ now apply good_handleShortenCommand | now apply good_handleStatsCommand
          | now apply good_handleDeleteCommand | now apply good_handleMyLinksCommand
          | now apply good_sendMessage | idtac ].
  run. good. reflexivity.
Qed.

Lemma good_handleMessage E chat text w :
  Forall goodEvent (trace w) ->
  Forall goodEvent (trace (worldOf (handleMessage E chat text w))).
Proof.
  intros H. rewrite handleMessage_eq.
  destruct (decide _); [|destruct (decide _)].
  - run. destruct (negb _); good.
  - run. destruct (decide _); [good|].
    destruct (remoteCreateLink E _) as [res|err];
      [|destruct (hasCode err AlreadyExists)]; good.
    unfold tokens. cbn [createLinkActionsKeyboard concat app map button Data forallb].
    now rewrite knownToken_stats, knownToken_delete.
  - destruct (MatchString urlRegex text); [now apply good_handleShortenCommand|].
    run. good. reflexivity.
Qed.

Lemma good_handleCallbackQuery E id message data w :
  Forall goodEvent (trace w) ->
  Forall goodEvent (trace (worldOf (handleCallbackQuery E id message data w))).
Proof.
  intros H.
  assert (Forall goodEvent (trace (answerWorld E id w))) as Ha.
  { unfold answerWorld. cbn [trace]. destruct (apiRequest E id); good. }
  destruct message as [chat|];
    [|rewrite handleCallbackQuery_nil; now destruct (knownToken data)].
  rewrite handleCallbackQuery_eq.
  revert Ha. generalize (answerWorld E id w). clear H w. intros w H.
  unfold routeCallback.
  destruct (decide _); [run; good; reflexivity|].
  destruct (decide _); [now apply good_handleMyLinksCommand|].
  destruct (decide _); [run; good; reflexivity|].
  destruct (HasPrefix data "stats_"); [now apply good_handleStatsCommand|].
  destruct (HasPrefix data "delete_"); [now apply good_handleDeleteCommand|].
  destruct (decide _); [run; good | exact H].
Qed.

Lemma good_processUpdate E u w :
  Forall goodEvent (trace w) ->
  Forall goodEvent (trace (worldOf (processUpdate E u w))).
Proof.
  intros H.
  assert (forall (m : M (option error)) what,
            Forall goodEvent (trace (worldOf (m w))) ->
            Forall goodEvent (trace (worldOf ((err ← m; logFailure what err) w)))) as Hlog.
  { intros m what Hm. unfold mbind, M_bind, logFailure.
    destruct (m w) as [[err|] w1|w1]; run; cbn [worldOf] in Hm; [good | exact Hm..]. }
  destruct u as [id chat data|chat name args|chat text|]; cbn [processUpdate];
    [apply Hlog, good_handleCallbackQuery | apply Hlog, good_handleCommand
    | apply Hlog, good_handleMessage | ]; exact H.
Qed.

Lemma good_serve us w :
  Forall goodEvent (trace w) -> Forall goodEvent (trace (worldOf (serve us w))).
Proof.
  revert w. induction us as [|[E u] rest IH]; intros w H; [exact H|].
  rewrite serve_cons. pose proof (good_processUpdate E u w H) as H1.
  destruct (panicked (processUpdate E u w)); [exact H1 | now apply IH].
Qed.

(** X14. No dead buttons: whatever updates the loop has processed since the
    start of the bot, every button of every keyboard it has sent carries a
    token the switch of [handleCallbackQuery] has a case for, so pressing it,
    on the message that shows it, is answered with a message. *)
Theorem every_button_shown_is_handled
    (us : list (Env * Update)) (m : Message) (k : Keyboard) (d : string) :
  In (Sent m) (trace (worldOf (serve us (initial ∅)))) ->
  ReplyMarkup m = Some k ->
  In d (tokens k) ->
  knownToken d = true /\
  forall E id chat w,
    length (sent (trace (worldOf (handleCallbackQuery E id (Some chat) d w)))) =
    (length (sent (trace w)) + 1)%nat.
Proof.
  intros Hin Hk Hd.
  assert (knownToken d = true) as Hknown.
  { pose proof (good_serve us (initial ∅) (List.Forall_nil _)) as Hgood.
    rewrite List.Forall_forall in Hgood. specialize (Hgood _ Hin).
    cbn [goodEvent] in Hgood. rewrite Hk in Hgood.
    rewrite forallb_forall in Hgood. now apply Hgood. }
  split; [exact Hknown|]. intros E id chat w.
  destruct (button_press_answered_iff_known_aux E id (Some chat) d w) as [_ Hs].
  now rewrite Hs, Hknown.
Qed.

Lemma every_button_shown_is_handled_witness :
  let us := [(sampleEnv, Command 5 "my_links" "")] in
  let m := {| ChatID := 5;
              Text := "Your Links:" +:+ nl +:+ nl +:+ "1. https://example.com" +:+ nl +:+
                      "   https://gurls.io/abc";
              Markdown := false;
              ReplyMarkup := Some [ [button "Stats" "stats_abc"; button "Delete" "delete_abc"];
                                    [button "Create Link" "create_link"];
                                    [button "Main Menu" "help"] ] |} in
  In (Sent m) (trace (worldOf (serve us (initial ∅)))) /\
  knownToken "delete_abc" = true.
Proof.
  assert (In (Sent {| ChatID := 5;
              Text := "Your Links:" +:+ nl +:+ nl +:+ "1. https://example.com" +:+ nl +:+
                      "   https://gurls.io/abc";
              Markdown := false;
              ReplyMarkup := Some [ [button "Stats" "stats_abc"; button "Delete" "delete_abc"];
                                    [button "Create Link" "create_link"];
                                    [button "Main Menu" "help"] ] |})
            (trace (worldOf (serve [(sampleEnv, Command 5 "my_links" "")] (initial ∅)))))
    as Hin.
  { vm_compute. right. left. reflexivity. }
  split; [exact Hin|].
  apply (every_button_shown_is_handled [(sampleEnv, Command 5 "my_links" "")] _ _
           "delete_abc" Hin eq_refl).
  vm_compute. right. left. reflexivity.
Defined.


(** ** The patterns *)

Lemma flat_map_nil {A B : Type} (f : A -> list B) (l : list A) :
  (forall x, In x l -> f x = []) -> flat_map f l = [].
Proof.
  induction l as [|x l IH]; intros H; [reflexivity|]. cbn.
  rewrite (H x (or_introl eq_refl)), IH; [reflexivity|].
  intros y Hy. apply H. now right.
Qed.

Lemma dropN_inside (cls : ascii -> bool) (k : nat) (a b : string) :
  (k < String.length a)%nat -> allb cls a = true ->
  exists c t, dropN k (a +:+ b) = String c t /\ cls c = true.
Proof.
  revert a. induction k as [|k IH]; intros [|x a] Hlt Hall; cbn in Hlt; try lia.
  - cbn in Hall. apply andb_true_iff in Hall as [Hx _]. simpl. eauto.
  - cbn in Hall. apply andb_true_iff in Hall as [_ Ha]. simpl.
    apply IH; [lia | exact Ha].
Qed.

(** A greedy run followed by a byte outside its class: only the whole run
    can be followed by that byte. *)
Lemma head_runs_group_then_byte (cls : ascii -> bool) (c0 : ascii) (b : bool)
    (s : string) :
  cls c0 = false ->
  head (runs (Cat (Grp (plus cls)) (Lit (String c0 ""))) b s) =
  match fst (span cls s) with
  | "" => None
  | String _ _ as v =>
      if String.prefix (String c0 "") (snd (span cls s))
      then Some (v +:+ String c0 "", [v], dropN 1 (snd (span cls s)))
      else None
  end.
Proof.
  intros Hc0.
  change (runs (Cat (Grp (plus cls)) (Lit (String c0 ""))) b s)
    with (flat_map
            (fun '(m1, c1, t1) =>
               map (fun '(m2, c2, t2) => (m1 +:+ m2, (c1 ++ c2)%list, t2))
                   (runs (Lit (String c0 "")) (b && String.eqb m1 "") t1))
            (map (fun '(m, cs, t) => (m, m :: cs, t))
                 (map (fun k => (takeN k s, @nil string, dropN k s))
                      (rev (seq 1 (S (String.length (fst (span cls s))) - 1)))))).
  cbn [Nat.sub]. rewrite Nat.sub_0_r.
  pose proof (takeN_span cls s) as Ht. pose proof (dropN_span cls s) as Hd.
  pose proof (span_app cls s) as Happ. pose proof (span_all cls s) as Hall.
  destruct (fst (span cls s)) as [|x run] eqn:Hf; [reflexivity|].
  set (n := String.length (String x run)) in *.
  replace n with (S (String.length run)) at 1 by reflexivity.
  rewrite rev_seq_S. change (1 + String.length run)%nat with n.
  cbn [map flat_map]. rewrite Ht, Hd.
  rewrite flat_map_nil.
  - rewrite app_nil_r. cbn [runs].
    destruct (String.prefix (String c0 "") (snd (span cls s))); reflexivity.
  - intros [[m1 c1] t1] Hin.
    apply in_map_iff in Hin as ([[m cs] t] & Heq & Hin).
    apply in_map_iff in Hin as (k & Hk & Hin).
    apply in_rev, in_seq in Hin. injection Hk as <- <- <-. injection Heq as <- <- <-.
    assert (k < n)%nat as Hlt by (subst n; cbn [String.length]; lia).
    rewrite <- Happ.
    destruct (dropN_inside cls k (String x run) (snd (span cls s)) Hlt Hall)
      as (c & t & -> & Hc).
    cbn [runs String.prefix].
    destruct (ascii_dec c0 c) as [->|_]; [congruence | reflexivity].
Qed.

Lemma matchAt_title (b : bool) (s : string) :
  matchAt titleRegex b s =
  (fun v => ["title=" +:+ quoteMark +:+ v +:+ quoteMark; v]) <$> titleAt s.
Proof.
  rewrite matchAt_head. unfold titleRegex, titleAt, quoteMark. rewrite runs_Cat_Lit.
  destruct (String.prefix "title=" s); [|reflexivity].
  change (String.length "title=") with 6%nat.
  generalize (dropN 6 s) (b && String.eqb "title=" ""). intros t b'.
  rewrite head_map', runs_Cat_Lit.
  destruct (String.prefix (String dquote "") t); [|reflexivity].
  change (String.length (String dquote "")) with 1%nat.
  rewrite head_map', head_runs_group_then_byte by reflexivity.
  destruct (fst (span notQuote (dropN 1 t))); [reflexivity|].
  destruct (String.prefix (String dquote "") (snd (span notQuote (dropN 1 t))));
    reflexivity.
Qed.

(** The leftmost search, for a pattern whose match at a position is known. *)
Lemma search_first (r : regexp) (f : string -> option (list string)) :
  (forall b s, matchAt r b s = f s) ->
  forall b s,
    match search r b s with
    | Some l =>
        exists k, (k <= String.length s)%nat /\ f (dropN k s) = Some l /\
                  forall j, (j < k)%nat -> f (dropN j s) = None
    | None => forall k, f (dropN k s) = None
    end.
Proof.
  intros Hf b s. revert b. induction s as [|c s IH]; intros b;
    rewrite search_eq, Hf.
  - destruct (f "") as [l|] eqn:Hl.
    + exists 0%nat. repeat split; [cbn; lia | exact Hl | intros j Hj; lia].
    + intros k. now rewrite dropN_nil.
  - destruct (f (String c s)) as [l|] eqn:Hl.
    + exists 0%nat. repeat split; [cbn; lia | exact Hl | intros j Hj; lia].
    + specialize (IH false). destruct (search r false s) as [l|].
      * destruct IH as (k & Hk & Hfk & Hleft). exists (S k).
        repeat split; [cbn; lia | exact Hfk |].
        intros [|j] Hj; [exact Hl | apply Hleft; lia].
      * intros [|k]; [exact Hl | apply IH].
Qed.

Lemma titleAt_complete (v post : string) :
  v <> "" -> allb notQuote v = true ->
  titleAt ("title=" +:+ quoteMark +:+ v +:+ quoteMark +:+ post) = Some v.
Proof.
  intros Hne Hall. unfold titleAt.
  rewrite (prefix_app "title=").
  change (dropN 6 ("title=" +:+ ?x)) with x.
  rewrite (prefix_app quoteMark).
  change (dropN 1 (quoteMark +:+ ?x)) with x.
  rewrite (span_prefix notQuote v (quoteMark +:+ post) Hall) by reflexivity.
  cbn [fst snd]. rewrite (prefix_app quoteMark).
  destruct v; [congruence | reflexivity].
Qed.

Lemma titleAt_sound (s v : string) :
  titleAt s = Some v -> titleOccursAt 0 v s.
Proof.
  unfold titleAt. destruct (String.prefix "title=" s) eqn:Hp; [|discriminate].
  apply prefix_split in Hp. change (String.length "title=") with 6%nat in Hp.
  revert Hp. generalize (dropN 6 s). intros t Hs.
  destruct (String.prefix quoteMark t) eqn:Hq; [|discriminate].
  apply prefix_split in Hq. change (String.length quoteMark) with 1%nat in Hq.
  revert Hq. generalize (dropN 1 t). intros body Ht.
  pose proof (span_app notQuote body) as Happ.
  pose proof (span_all notQuote body) as Hall.
  destruct (fst (span notQuote body)) as [|x run] eqn:Hf; [discriminate|].
  destruct (String.prefix quoteMark (snd (span notQuote body))) eqn:Hq2; [|discriminate].
  apply prefix_split in Hq2. change (String.length quoteMark) with 1%nat in Hq2.
  intros [= <-].
  exists "", (dropN 1 (snd (span notQuote body))).
  split; [|split; [reflexivity | split; [discriminate | exact Hall]]].
  rewrite Hs, Ht, <- Happ, Hq2 at 1. cbn [String.append].
  reflexivity.
Qed.

Lemma titleOccursAt_dropN (n : nat) (v s : string) :
  titleOccursAt n v s -> titleAt (dropN n s) = Some v.
Proof.
  intros (pre & post & -> & <- & Hne & Hall).
  rewrite dropN_app. now apply titleAt_complete.
Qed.

Lemma submatch1_title (s : string) :
  match submatch1 titleRegex s with
  | Some v => firstTitle s v
  | None => ~ hasTitle s
  end.
Proof.
  unfold submatch1, FindStringSubmatch.
  pose proof (search_first titleRegex _ matchAt_title true s) as H.
  destruct (search titleRegex true s) as [l|]; cbn [default].
  - destruct H as (k & Hk & Hfk & Hleft).
    destruct (titleAt (dropN k s)) as [v|] eqn:Hat; [|discriminate].
    cbn in Hfk. injection Hfk as <-.
    apply titleAt_sound in Hat as Hocc.
    destruct Hocc as (pre0 & post & Hd & Hl0 & Hne & Hall).
    destruct pre0; [|discriminate].
    change (dropN k s = "title=" +:+ quoteMark +:+ v +:+ quoteMark +:+ post) in Hd.
    exists k. split.
    + exists (takeN k s), post. split; [|split; [|now split]].
      * rewrite <- Hd. symmetry. apply takeN_dropN.
      * rewrite length_takeN. lia.
    + intros n' v' Hocc'. apply titleOccursAt_dropN in Hocc'.
      destruct (Nat.le_gt_cases k n') as [|Hlt]; [assumption|].
      specialize (Hleft _ Hlt). rewrite Hocc' in Hleft. discriminate.
  - intros (n & v & Hocc). apply titleOccursAt_dropN in Hocc.
    specialize (H n). rewrite Hocc in H. discriminate.
Qed.

Lemma firstTitle_unique (s v v' : string) :
  firstTitle s v -> firstTitle s v' -> v = v'.
Proof.
  intros (n & Hm & Hmin) (n' & Hm' & Hmin').
  assert (n = n') as <- by (pose proof (Hmin _ _ Hm'); pose proof (Hmin' _ _ Hm); lia).
  apply titleOccursAt_dropN in Hm. apply titleOccursAt_dropN in Hm'. congruence.
Qed.

(** X16. The title of a [/shorten] request is the text between the double
    quotes of the leftmost [title=] that is followed by a double quote, a
    non-empty text without double quote and a closing double quote; without
    such an occurrence (no closing quote, nothing between the quotes) the
    request has no title. *)
Theorem shorten_title_is_leftmost_quoted
    (E : Env) (chat : Z) (url args : string) :
  (forall v, Title (shortenRequest E chat url args) = Some v <-> firstTitle args v) /\
  (Title (shortenRequest E chat url args) = None <-> ~ hasTitle args) /\
  (forall v, firstTitle args v -> v <> "" /\ allb notQuote v = true).
Proof.
  cbn [Title shortenRequest]. pose proof (submatch1_title args) as H.
  destruct (submatch1 titleRegex args) as [v0|]; split; [|split| |split].
  - intros v. split; [intros [= <-]; exact H|].
    intros Hv. f_equal. eapply firstTitle_unique; eassumption.
  - split; [discriminate|]. intros Hno. exfalso. apply Hno.
    destruct H as (n & Hocc & _). now exists n, v0.
  - intros v (n & (pre & post & _ & _ & Hne & Hall) & _). now split.
  - intros v. split; [discriminate|].
    intros (n & Hocc & _). exfalso. apply H. now exists n, v.
  - split; [intros _; exact H | reflexivity].
  - intros v (n & (pre & post & _ & _ & Hne & Hall) & _). now split.
Qed.

Example title_unterminated :
  Title (shortenRequest sampleEnv 5 "https://x.com"
           ("https://x.com title=" +:+ quoteMark +:+ "My site")) = None.
Proof. vm_compute. reflexivity. Qed.

Example title_with_spaces :
  Title (shortenRequest sampleEnv 5 "https://x.com"
           ("https://x.com title=" +:+ quoteMark +:+ "My site" +:+ quoteMark
            +:+ " alias=z")) = Some "My site".
Proof. vm_compute. reflexivity. Qed.

(** X17. The alias and the expiry of a [/shorten] request come from the
    leftmost [alias=], respectively [expires_in=], that is followed by at
    least one byte of its class (word bytes and hyphen, respectively word
    bytes): the value is the whole run of such bytes. Without such an
    occurrence the request has no custom alias, respectively no expiry. *)
Theorem shorten_modifiers_are_leftmost_runs
    (E : Env) (chat : Z) (url args : string) :
  let req := shortenRequest E chat url args in
  (forall a, CustomAlias req = Some a <-> firstModifier "alias=" aliasClass args a) /\
  (CustomAlias req = None <-> ~ hasModifier "alias=" aliasClass args) /\
  (forall v, firstModifier "expires_in=" expiresInClass args v ->
     ExpiresAt req =
       match ParseDuration E v with
       | Some d => Some (Now E + d)
       | None => None
       end) /\
  (~ hasModifier "expires_in=" expiresInClass args -> ExpiresAt req = None).
Proof.
  cbn [CustomAlias ExpiresAt shortenRequest].
  split; [intros a; apply submatch1_key_iff|].
  split; [apply submatch1_key_none|]. split.
  - intros v Hv. apply submatch1_key_iff in Hv. fold expiresInRegex in Hv.
    now rewrite Hv.
  - intros Hno. apply submatch1_key_none in Hno. fold expiresInRegex in Hno.
    now rewrite Hno.
Qed.

(** X18. [customAliasRegex] accepts exactly the texts of 1 to 20 bytes that
    are all letters, digits or hyphens; such a text has no white space to
    trim, so the alias conversation stores it as typed. *)
Theorem custom_alias_pattern_exact (s : string) :
  (MatchString customAliasRegex s = true <->
   (1 <= String.length s <= 20)%nat /\ allb customAliasClass s = true) /\
  (MatchString customAliasRegex s = true -> TrimSpace s = s).
Proof.
  rewrite MatchString_customAlias. unfold validAlias.
  rewrite !andb_true_iff, !Nat.leb_le. split; [tauto|].
  intros [_ Hall]. now apply TrimSpace_alias.
Qed.

Lemma occursAt_same (n : nat) (u u' s : string) :
  occursAt n u s -> occursAt n u' s -> String.length u = String.length u' -> u = u'.
Proof.
  intros Ho Ho' Hlen.
  destruct (occursAt_dropN _ _ _ Ho) as [post Hd].
  destruct (occursAt_dropN _ _ _ Ho') as [post' Hd'].
  rewrite Hd in Hd'.
  assert (takeN (String.length u) (u +:+ post) =
          takeN (String.length u) (u' +:+ post')) as H by now rewrite Hd'.
  rewrite takeN_app in H. rewrite Hlen, takeN_app in H. exact H.
Qed.

(** X19. [urlRegex] finds the first URL-shaped substring: it matches
    exactly the texts that contain one, [FindString] returns the one that
    starts leftmost, extended to the next white space or the end of the text,
    and returns the empty string exactly when there is none. *)
Theorem url_pattern_finds_first (s : string) :
  (MatchString urlRegex s = true <-> containsURL s) /\
  (FindString urlRegex s <> "" <-> containsURL s) /\
  (containsURL s -> firstURL s (FindString urlRegex s)) /\
  (forall u, firstURL s u -> u = FindString urlRegex s).
Proof.
  destruct (FindString_url s) as [Hyes Hno].
  split; [rewrite MatchString_url; apply FindString_url_nonempty|].
  split; [apply FindString_url_nonempty|]. split; [exact Hyes|].
  intros u Hu. pose proof (Hyes (firstURL_contains _ _ Hu)) as Hf.
  destruct Hu as (n & Hshape & Hocc & Hmin).
  destruct Hf as (n' & Hshape' & Hocc' & Hmin').
  assert (n = n') as <-.
  { destruct (Hmin _ _ Hshape' Hocc'). destruct (Hmin' _ _ Hshape Hocc). lia. }
  destruct (Hmin _ _ Hshape' Hocc') as [_ Hl1].
  destruct (Hmin' _ _ Hshape Hocc) as [_ Hl2].
  specialize (Hl1 eq_refl). specialize (Hl2 eq_refl).
  apply (occursAt_same n _ _ s Hocc Hocc'). lia.
Qed.

(** X20. [/my_links] and the My Links button make exactly one ListUserLinks
    call for the chat and do not change the state store; a failure of the
    call is answered with the internal error text, an empty list with the
    invitation to create a first link and the main menu. *)
Theorem my_links_failure_and_empty_list (E : Env) (chat : Z) (w : World) :
  let r := handleMyLinksCommand E chat w in
  panicked r = false /\
  userStates (worldOf r) = userStates w /\
  calls (trace (worldOf r)) = (calls (trace w) ++ [CallListUserLinks chat])%list /\
  (forall err, remoteListUserLinks E chat = inr err ->
     sent (trace (worldOf r)) =
       (sent (trace w) ++
        [plainMessage chat "Internal error occurred. Please try again later."])%list) /\
  (remoteListUserLinks E chat = inl [] ->
     sent (trace (worldOf r)) =
       (sent (trace w) ++
        [{| ChatID := chat;
            Text := "You have no links yet." +:+ nl +:+ "Create your first link!";
            Markdown := false;
            ReplyMarkup := Some createMainKeyboard |}])%list).
Proof.
  intros r. subst r. run.
  destruct (remoteListUserLinks E chat) as [links|err].
  - destruct (decide (length links = 0%nat)) as [Hz|Hnz];
      cbn [worldOf panicked userStates trace];
      (split; [reflexivity|]; split; [reflexivity|]; split; [now traces|];
       split; [discriminate|]).
    + intros _. now traces.
    + intros [= ->]. exfalso. now apply Hnz.
  - cbn [worldOf panicked userStates trace].
    split; [reflexivity|]. split; [reflexivity|]. split; [now traces|].
    split; [intros err' [= <-]; now traces | discriminate].
Qed.
